(** * Voice receive path: PacketHandler

    A shallow embedding of the voice/video packet demultiplexer
    [PacketHandler] (decrypt, strip RTP header extension, silence
    filter, speaking debounce, per-user sinks) and the properties of
    its specification, proved or refuted on the embedding.

    Layout:
    - [Buf]           : the Node [Buffer] primitives the handler calls;
    - records         : connection, directory entries, sinks, timers and
                        the world a call runs in;
    - [M]             : state and completion monad (a step falls
                        through, executes [return;] or throws);
    - [PacketHandler] : the methods of the class, parametrised by the
                        collaborators that live outside the class
                        (secretbox, the silence frame, the speaking flag);
    - [Obs], [Demo]   : what a call is observed to do, and a concrete
                        session to run the methods on;
    - lemmas on the stages of [push], then the properties C1-C10. *)

From Stdlib Require Import ZArith List Lia.
From Stdlib.Strings Require Import Byte.
From stdpp Require Import base gmap strings list.

Local Open Scope Z_scope.

(* ===================================================================== *)
(** ** Node Buffer primitives                                             *)
(* ===================================================================== *)

Module Buf.

(** A [Buffer] is a sequence of octets; offsets are JavaScript numbers,
    here integers that may be negative. *)
Definition Buffer := list byte.

#[global] Instance byte_eq_dec : EqDecision byte := Byte.byte_eq_dec.

Definition octet (b : byte) : Z := Z.of_N (Byte.to_N b).

Definition len (b : Buffer) : Z := Z.of_nat (length b).

(** [Buffer.alloc(n)]: n zero octets. *)
Definition alloc (n : nat) : Buffer := replicate n x00.

(** [buf[i]]: [None] stands for [undefined]. *)
Definition at_ (b : Buffer) (i : Z) : option byte :=
  if i <? 0 then None else b !! Z.to_nat i.

(** Offsets of [slice]/[subarray]: negative counts from the end, then
    clamped to [0, length]. *)
Definition adjustOffset (offset length : Z) : Z :=
  if offset <? 0 then Z.max 0 (offset + length)
  else if offset <? length then offset
  else length.

(** [buf.subarray(start, end)]; [end = None] is an omitted (undefined)
    argument.  Never throws: out-of-range offsets are clamped. *)
Definition subarray (b : Buffer) (start : Z) (end_ : option Z) : Buffer :=
  let s := adjustOffset start (len b) in
  let e := match end_ with
           | Some e => adjustOffset e (len b)
           | None => len b
           end in
  let newLength := if s <? e then e - s else 0 in
  take (Z.to_nat newLength) (drop (Z.to_nat s) b).

(** [buf.slice] is [subarray] on Buffers. *)
Definition slice := subarray.

(** [source.copy(target, targetStart, sourceStart, sourceEnd)].
    A negative [targetStart], [sourceStart] or [sourceEnd], or a
    [sourceStart] beyond the source, raises a RangeError ([None]);
    otherwise as many octets as fit are written over [target]. *)
Definition copy (source target : Buffer)
    (targetStart sourceStart : Z) (sourceEnd : option Z) : option Buffer :=
  let sourceEnd := default (len source) sourceEnd in
  if (targetStart <? 0) || (sourceStart <? 0) || (len source <? sourceStart)
     || (sourceEnd <? 0)
  then None
  else if (len target <=? targetStart) || (sourceEnd <=? sourceStart)
  then Some target
  else
    let nb := Z.min (Z.min (sourceEnd - sourceStart)
                           (len target - targetStart))
                    (len source - sourceStart) in
    let chunk := take (Z.to_nat nb) (drop (Z.to_nat sourceStart) source) in
    Some (take (Z.to_nat targetStart) target ++ chunk
          ++ drop (Z.to_nat (targetStart + nb)) target).

(** [buf.readUInt32BE(offset)]: a RangeError ([None]) when the four
    octets are not all inside the buffer. *)
Definition readUInt32BE (b : Buffer) (offset : Z) : option Z :=
  match at_ b offset, at_ b (offset + 1), at_ b (offset + 2),
        at_ b (offset + 3) with
  | Some b0, Some b1, Some b2, Some b3 =>
      Some (octet b0 * 2 ^ 24 + octet b1 * 2 ^ 16 + octet b2 * 2 ^ 8
            + octet b3)
  | _, _, _, _ => None
  end.

(** [buf.readUInt16BE(offset)]. *)
Definition readUInt16BE (b : Buffer) (offset : Z) : option Z :=
  match at_ b offset, at_ b (offset + 1) with
  | Some b0, Some b1 => Some (octet b0 * 2 ^ 8 + octet b1)
  | _, _ => None
  end.

(** [a.equals(b)]. *)
Definition equals (a b : Buffer) : bool := bool_decide (a = b).

End Buf.

Import Buf.

(* ===================================================================== *)
(** ** Data model                                                         *)
(* ===================================================================== *)

(** [connection.authentication]: [secret_key = None] is a null or
    undefined key; [mode] is the negotiated mode string. *)
Record Authentication := {
  secret_key : option Buffer;
  mode : string;
}.

(** A value of [connection.ssrcMap]. *)
Record UserStat := {
  userId : string;
  hasVideo : bool;
  speaking : Z;
}.

(** Argument of [connection.onSpeaking]. *)
Record SpeakingData := {
  user_id : string;
  sd_ssrc : Z;
  sd_speaking : Z;
}.

(** The connection object read through [this.receiver.connection].
    [onSpeaking] is its method, code outside this class: [true] when the
    call returns, [false] when it throws (the connection is closed). *)
Record Connection := {
  authentication : Authentication;
  ssrcMap : gmap Z UserStat;
  onSpeaking : SpeakingData → bool;
}.

(** Identity of a sink object ([new Readable()], [new IvfJoinner()]). *)
Definition Handle := nat.

(** A value of [this.streams]: [{ stream, end }]. *)
Record StreamInfo := {
  stream : Handle;
  end_ : string;
}.

(** A value of [this.speakingTimeouts]: the timer object made by
    [setTimeout(..., DISCORD_SPEAKING_DELAY).unref()].  [t_armed] says
    whether the runtime still has it scheduled, [t_deadline] when it is
    due, [t_user_id] is the [userStat.userId] its callback closes over. *)
Record Timeout := {
  t_deadline : Z;
  t_armed : bool;
  t_user_id : string;
}.

(** Values [parseBuffer] returns as [Error] objects. *)
Inductive ParseError :=
| MissingKey        (* 'secret_key cannot be null or undefined' *)
| DecryptFailed.    (* 'Failed to decrypt voice packet' *)

(** How a call of [secretbox.methods.open] ends: with the plaintext,
    with the falsy value of a failed authentication, or with an
    exception of the cipher library (a key or nonce of the wrong size,
    a library that reports a failed authentication by throwing). *)
Inductive OpenResult :=
| Opened (plaintext : Buffer)
| Rejected
| OpenThrew.

(** Exceptions that unwind the JavaScript stack. *)
Inductive Exn :=
| RangeError                          (* Buffer offset out of range *)
| NotifyFailed                        (* connection.onSpeaking threw *)
| UnhandledError (e : ParseError)     (* emit('error') with no listener *)
| SecretboxError.                     (* secretbox.methods.open threw *)

(** Calls that leave the class, in the order they are made. *)
Inductive Event :=
| OnSpeaking (d : SpeakingData)
| EmitError (e : ParseError)
| StreamPush (h : Handle) (chunk : option Buffer)   (* None: push(null) *)
| VideoPush (h : Handle) (chunk : Buffer)
| SetTimeout (ssrc : Z) (delay : Z)
| Refresh (ssrc : Z)
| ClearTimeout (ssrc : Z).

(** The handler's fields, the connection it reads, and the part of the
    runtime it touches: whether an ['error'] listener is attached to the
    emitter, the clock in milliseconds, the allocator of object
    identities and the trace of outgoing calls. *)
Record World := {
  nonce : Buffer;
  connection : Connection;
  streams : gmap string StreamInfo;
  videoStreams : gmap string Handle;
  speakingTimeouts : gmap Z Timeout;
  errorListener : bool;
  clock : Z;
  nextHandle : Handle;
  trace : list Event;
}.

Definition set_nonce (n : Buffer) (w : World) : World :=
  {| nonce := n; connection := connection w; streams := streams w;
     videoStreams := videoStreams w; speakingTimeouts := speakingTimeouts w;
     errorListener := errorListener w; clock := clock w;
     nextHandle := nextHandle w; trace := trace w |}.

Definition set_connection (c : Connection) (w : World) : World :=
  {| nonce := nonce w; connection := c; streams := streams w;
     videoStreams := videoStreams w; speakingTimeouts := speakingTimeouts w;
     errorListener := errorListener w; clock := clock w;
     nextHandle := nextHandle w; trace := trace w |}.

Definition set_streams (s : gmap string StreamInfo) (w : World) : World :=
  {| nonce := nonce w; connection := connection w; streams := s;
     videoStreams := videoStreams w; speakingTimeouts := speakingTimeouts w;
     errorListener := errorListener w; clock := clock w;
     nextHandle := nextHandle w; trace := trace w |}.

Definition set_videoStreams (s : gmap string Handle) (w : World) : World :=
  {| nonce := nonce w; connection := connection w; streams := streams w;
     videoStreams := s; speakingTimeouts := speakingTimeouts w;
     errorListener := errorListener w; clock := clock w;
     nextHandle := nextHandle w; trace := trace w |}.

Definition set_speakingTimeouts (t : gmap Z Timeout) (w : World) : World :=
  {| nonce := nonce w; connection := connection w; streams := streams w;
     videoStreams := videoStreams w; speakingTimeouts := t;
     errorListener := errorListener w; clock := clock w;
     nextHandle := nextHandle w; trace := trace w |}.

Definition set_errorListener (b : bool) (w : World) : World :=
  {| nonce := nonce w; connection := connection w; streams := streams w;
     videoStreams := videoStreams w; speakingTimeouts := speakingTimeouts w;
     errorListener := b; clock := clock w;
     nextHandle := nextHandle w; trace := trace w |}.

Definition set_clock (c : Z) (w : World) : World :=
  {| nonce := nonce w; connection := connection w; streams := streams w;
     videoStreams := videoStreams w; speakingTimeouts := speakingTimeouts w;
     errorListener := errorListener w; clock := c;
     nextHandle := nextHandle w; trace := trace w |}.

Definition set_nextHandle (h : Handle) (w : World) : World :=
  {| nonce := nonce w; connection := connection w; streams := streams w;
     videoStreams := videoStreams w; speakingTimeouts := speakingTimeouts w;
     errorListener := errorListener w; clock := clock w;
     nextHandle := h; trace := trace w |}.

Definition set_trace (t : list Event) (w : World) : World :=
  {| nonce := nonce w; connection := connection w; streams := streams w;
     videoStreams := videoStreams w; speakingTimeouts := speakingTimeouts w;
     errorListener := errorListener w; clock := clock w;
     nextHandle := nextHandle w; trace := t |}.

(** [userStat.speaking = v] on the entry stored under [ssrc]. *)
Definition set_speaking (v : Z) (u : UserStat) : UserStat :=
  {| userId := userId u; hasVideo := hasVideo u; speaking := v |}.

Definition set_ssrcMap (m : gmap Z UserStat) (c : Connection) : Connection :=
  {| authentication := authentication c; ssrcMap := m;
     onSpeaking := onSpeaking c |}.

(* ===================================================================== *)
(** ** Completions and the handler monad                                  *)
(* ===================================================================== *)

(** How a piece of a method body ends: it falls through with a value,
    executes [return;], or throws.  The world reached is kept in each
    case: effects made before a throw are not undone. *)
Inductive Completion (A : Type) :=
| Normal (a : A) (w : World)
| Return (w : World)
| Throw (e : Exn) (w : World).
Arguments Normal {A} a w.
Arguments Return {A} w.
Arguments Throw {A} e w.

Definition M (A : Type) : Type := World → Completion A.

#[global] Instance M_ret : MRet M := λ A a w, Normal a w.

#[global] Instance M_bind : MBind M := λ A B f m w,
  match m w with
  | Normal a w' => f a w'
  | Return w' => Return w'
  | Throw e w' => Throw e w'
  end.

Definition get : M World := λ w, Normal w w.
Definition modify (f : World → World) : M unit := λ w, Normal tt (f w).
Definition throw {A} (e : Exn) : M A := λ w, Throw e w.
Definition return_ {A} : M A := λ w, Return w.
Definition log (ev : Event) : M unit :=
  modify (λ w, set_trace (trace w ++ [ev]) w).

(** A Buffer primitive that raises a RangeError when it yields [None]. *)
Definition orRangeError {A} (o : option A) : M A :=
  match o with
  | Some a => mret a
  | None => throw RangeError
  end.

(** A whole method body: [return;] ends the call normally. *)
Definition method (body : M unit) : M unit := λ w,
  match body w with
  | Normal _ w' => Normal tt w'
  | Return w' => Normal tt w'
  | Throw e w' => Throw e w'
  end.

(** [try { body } catch { }]. *)
Definition try_catch (body : M unit) : M unit := λ w,
  match body w with
  | Throw _ w' => Normal tt w'
  | r => r
  end.

(** The world a completion ends in. *)
Definition world_of {A} (c : Completion A) : World :=
  match c with
  | Normal _ w => w
  | Return w => w
  | Throw _ w => w
  end.

Definition throws {A} (c : Completion A) : bool :=
  match c with
  | Throw _ _ => true
  | _ => false
  end.

(** [this.connection.onSpeaking(d)]. *)
Definition call_onSpeaking (d : SpeakingData) : M unit :=
  log (OnSpeaking d);;
  w ← get;
  if onSpeaking (connection w) d then mret tt else throw NotifyFailed.

(** [this.emit('error', e)]: an emitter with no ['error'] listener
    throws the error it is asked to emit. *)
Definition emit_error (e : ParseError) : M unit :=
  log (EmitError e);;
  w ← get;
  if errorListener w then mret tt else throw (UnhandledError e).

(** The delay between packets when a user is considered to have stopped
    speaking. *)
Definition DISCORD_SPEAKING_DELAY : Z := 250.

(* ===================================================================== *)
(** ** The methods of PacketHandler                                       *)
(* ===================================================================== *)

Module PacketHandler.

(** *** Pieces of [parseBuffer] that do not depend on collaborators *)

(** Choose correct nonce depending on encryption: the nonce scratch
    buffer after the [copy], and the [end] variable ([None] while it is
    still undefined).  [None] as a whole: the [copy] threw. *)
Definition chooseNonce (mode : string) (nonce buffer : Buffer)
    : option (Buffer * option Z) :=
  if decide (mode = "xsalsa20_poly1305_lite") then
    n ← copy buffer nonce 0 (len buffer - 4) None;
    Some (n, Some (len buffer - 4))
  else if decide (mode = "xsalsa20_poly1305_suffix") then
    n ← copy buffer nonce 0 (len buffer - 24) None;
    Some (n, Some (len buffer - 24))
  else
    n ← copy buffer nonce 0 0 (Some 12);
    Some (n, None).

(** [packet[0] === 0xbe && packet[1] === 0xde] *)
Definition hasExtension (packet : Buffer) : bool :=
  bool_decide (at_ packet 0 = Some xbe)
  && bool_decide (at_ packet 1 = Some xde).

(** Strip RTP Header Extensions (one-byte only).  [None]: the read of
    the length word threw. *)
Definition stripExtension (packet : Buffer) : option Buffer :=
  if hasExtension packet then
    headerExtensionLength ← readUInt16BE packet 2;
    Some (subarray packet (4 + 4 * headerExtensionLength) None)
  else Some packet.

Section Handler.

(** [secretbox.methods.open(ciphertext, nonce, key)], code outside this
    class: any function of its three arguments into [OpenResult]. *)
Variable secretbox_open : Buffer → Buffer → Buffer → OpenResult.

(** [SILENCE_FRAME] of [util/Silence]. *)
Variable SILENCE_FRAME : Buffer.

(** [Speaking.FLAGS.SPEAKING]. *)
Variable FLAGS_SPEAKING : Z.

(** [_stoppedSpeaking(userId)] *)
Definition _stoppedSpeaking (userId : string) : M unit :=
  method (
    w ← get;
    match streams w !! userId with
    | Some streamInfo =>
        if decide (end_ streamInfo = "silence") then
          modify (λ w, set_streams (delete userId (streams w)) w);;
          log (StreamPush (stream streamInfo) None)
        else mret tt
    | None => mret tt
    end).

(** The ['end'] listener [makeStream] attaches to the stream it makes. *)
Definition onStreamEnd (user : string) : M unit :=
  modify (λ w, set_streams (delete user (streams w)) w).

(** [makeStream(user, end)] *)
Definition makeStream (user : string) (end' : string) : M Handle :=
  w ← get;
  match streams w !! user with
  | Some streamInfo => mret (stream streamInfo)
  | None =>
      let stream := nextHandle w in
      modify (set_nextHandle (S stream));;
      modify (λ w, set_streams
                     (<[user := {| stream := stream; end_ := end' |}]>
                        (streams w)) w);;
      mret stream
  end.

(** The ['end'] listener [makeVideoStream] attaches. *)
Definition onVideoStreamEnd (user : string) : M unit :=
  modify (λ w, set_videoStreams (delete user (videoStreams w)) w).

(** [makeVideoStream(user)] *)
Definition makeVideoStream (user : string) : M Handle :=
  w ← get;
  match videoStreams w !! user with
  | Some stream => mret stream
  | None =>
      let stream := nextHandle w in
      modify (set_nextHandle (S stream));;
      modify (λ w, set_videoStreams (<[user := stream]> (videoStreams w)) w);;
      mret stream
  end.

(** [parseBuffer(buffer)]: an [Error] value ([inl]) or the payload.
    The call of the secretbox is not inside a [try]: what it throws
    leaves [parseBuffer]. *)
Definition parseBuffer (buffer : Buffer) : M (ParseError + Buffer) :=
  w ← get;
  let auth := authentication (connection w) in
  '(nonce', end') ← orRangeError (chooseNonce (mode auth) (nonce w) buffer);
  modify (set_nonce nonce');;
  match secret_key auth with
  | None => mret (inl MissingKey)
  | Some key =>
      match secretbox_open (slice buffer 12 end') nonce' key with
      | OpenThrew => throw SecretboxError
      | Rejected => mret (inl DecryptFailed)
      | Opened packet =>
          packet ← orRangeError (stripExtension packet);
          mret (inr packet)
      end
  end.

(** Lines 104-117 of [push]: the silence check for users in video.
    Yields the value of [opusPacket] afterwards ([None]: undefined). *)
Definition silenceCheck (buffer : Buffer) (userStat : UserStat)
    (streamInfo : option StreamInfo) (videoStreamInfo : option Handle)
    : M (option Buffer) :=
  if hasVideo userStat then
    opusPacket ← parseBuffer buffer;
    match opusPacket with
    | inl err =>
        (if bool_decide (is_Some streamInfo)
            || bool_decide (is_Some videoStreamInfo)
         then emit_error err else mret tt);;
        return_
    | inr opusPacket =>
        if equals SILENCE_FRAME opusPacket then return_
        else mret (Some opusPacket)
    end
  else mret None.

(** Body of the timer callback armed in [push]. *)
Definition speakingTimeoutCallback (ssrc : Z) (user : string) : M unit :=
  try_catch (
    call_onSpeaking {| user_id := user; sd_ssrc := ssrc; sd_speaking := 0 |};;
    log (ClearTimeout ssrc);;
    modify (λ w, set_speakingTimeouts (delete ssrc (speakingTimeouts w)) w)).

(** Lines 119-142 of [push]: the speaking timeout of [ssrc].  The
    directory is kept by value: the assignment to [userStat.speaking]
    is written back under [ssrc], the key [userStat] was read from
    whenever [ssrcMap.has(ssrc)] holds. *)
Definition advanceSpeaking (ssrc : Z) (userStat : UserStat) : M unit :=
  w ← get;
  let speakingTimeout := speakingTimeouts w !! ssrc in
  if bool_decide (is_Some (ssrcMap (connection w) !! ssrc)) then
    match speakingTimeout with
    | None =>
        userStat ←
          (if speaking userStat =? 0 then
             let userStat := set_speaking FLAGS_SPEAKING userStat in
             modify (λ w, set_connection
                            (set_ssrcMap (<[ssrc := userStat]>
                                            (ssrcMap (connection w)))
                                         (connection w)) w);;
             mret userStat
           else mret userStat);
        call_onSpeaking {| user_id := userId userStat; sd_ssrc := ssrc;
                           sd_speaking := speaking userStat |};;
        log (SetTimeout ssrc DISCORD_SPEAKING_DELAY);;
        modify (λ w, set_speakingTimeouts
                       (<[ssrc := {| t_deadline :=
                                       clock w + DISCORD_SPEAKING_DELAY;
                                     t_armed := true;
                                     t_user_id := userId userStat |}]>
                          (speakingTimeouts w)) w)
    | Some speakingTimeout =>
        log (Refresh ssrc);;
        modify (λ w, set_speakingTimeouts
                       (<[ssrc := {| t_deadline :=
                                       clock w + DISCORD_SPEAKING_DELAY;
                                     t_armed := true;
                                     t_user_id :=
                                       t_user_id speakingTimeout |}]>
                          (speakingTimeouts w)) w)
    end
  else mret tt.

(** [opusPacket] once a sink needs it: parsed now unless an earlier
    step already did ([if (!opusPacket) ...]; a Buffer is truthy). *)
Definition ensureParsed (buffer : Buffer) (opusPacket : option Buffer)
    : M Buffer :=
  match opusPacket with
  | Some opusPacket => mret opusPacket
  | None =>
      opusPacket ← parseBuffer buffer;
      match opusPacket with
      | inl err => emit_error err;; return_
      | inr opusPacket => mret opusPacket
      end
  end.

(** Lines 144-158 of [push].  [opusPacket === null] cannot hold for the
    Buffer [parseBuffer] returned, so [stream.destroy()] is never
    reached. *)
Definition deliverAudio (buffer : Buffer) (streamInfo : option StreamInfo)
    (opusPacket : option Buffer) : M (option Buffer) :=
  match streamInfo with
  | Some streamInfo =>
      opusPacket ← ensureParsed buffer opusPacket;
      log (StreamPush (stream streamInfo) (Some opusPacket));;
      mret (Some opusPacket)
  | None => mret opusPacket
  end.

(** Lines 160-170 of [push]. *)
Definition deliverVideo (buffer : Buffer) (videoStreamInfo : option Handle)
    (opusPacket : option Buffer) : M unit :=
  match videoStreamInfo with
  | Some stream =>
      opusPacket ← ensureParsed buffer opusPacket;
      log (VideoPush stream opusPacket)
  | None => mret tt
  end.

(** [userStat = ssrcMap.get(ssrc) || ssrcMap.get(ssrc - 1)] *)
Definition resolve (w : World) (ssrc : Z) : option UserStat :=
  match ssrcMap (connection w) !! ssrc with
  | Some userStat => Some userStat
  | None => ssrcMap (connection w) !! (ssrc - 1)
  end.

(** [push(buffer)] *)
Definition push (buffer : Buffer) : M unit :=
  method (
    ssrc ← orRangeError (readUInt32BE buffer 8);
    w ← get;
    match resolve w ssrc with
    | None => return_
    | Some userStat =>
        let streamInfo := streams w !! userId userStat in
        let videoStreamInfo := videoStreams w !! userId userStat in
        opusPacket ← silenceCheck buffer userStat streamInfo videoStreamInfo;
        advanceSpeaking ssrc userStat;;
        opusPacket ← deliverAudio buffer streamInfo opusPacket;
        deliverVideo buffer videoStreamInfo opusPacket
    end).

(** The runtime running the timer of [ssrc] when it is due: a one-shot
    timer is descheduled, then its callback runs. *)
Definition fireTimeout (ssrc : Z) : M unit :=
  w ← get;
  match speakingTimeouts w !! ssrc with
  | Some t =>
      modify (λ w, set_speakingTimeouts
                     (<[ssrc := {| t_deadline := t_deadline t;
                                   t_armed := false;
                                   t_user_id := t_user_id t |}]>
                        (speakingTimeouts w)) w);;
      speakingTimeoutCallback ssrc (t_user_id t)
  | None => mret tt
  end.

End Handler.

End PacketHandler.

Import PacketHandler.

(** Simplification stops at a call of [parseBuffer]; its result is
    supplied by a hypothesis. *)
Arguments parseBuffer : simpl never.

(* ===================================================================== *)
(** ** Observing a call                                                   *)
(* ===================================================================== *)

(** The completion [c] replayed from world [w2]: same value, world [w2]
    with the nonce buffer [c] ended with. *)
Definition rebase {A} (c : Completion A) (w2 : World) : Completion A :=
  match c with
  | Normal a w => Normal a (set_nonce (nonce w) w2)
  | Return w => Return (set_nonce (nonce w) w2)
  | Throw e w => Throw e (set_nonce (nonce w) w2)
  end.

(** Events appended to the trace between world [w] and world [w']. *)
Definition emitted (w w' : World) : list Event :=
  drop (length (trace w)) (trace w').

Fixpoint count (f : Event → bool) (l : list Event) : nat :=
  match l with
  | [] => 0%nat
  | ev :: l => ((if f ev then 1 else 0) + count f l)%nat
  end.

(** The timer of [ssrc] armed or re-armed: one advance of its debouncer. *)
Definition isAdvance (ssrc : Z) (ev : Event) : bool :=
  match ev with
  | SetTimeout s _ | Refresh s => bool_decide (s = ssrc)
  | _ => false
  end.

Definition isStart (ssrc : Z) (ev : Event) : bool :=
  match ev with
  | OnSpeaking d => bool_decide (sd_ssrc d = ssrc) && negb (sd_speaking d =? 0)
  | _ => false
  end.

Definition isStop (ssrc : Z) (ev : Event) : bool :=
  match ev with
  | OnSpeaking d => bool_decide (sd_ssrc d = ssrc) && (sd_speaking d =? 0)
  | _ => false
  end.

Definition isError (ev : Event) : bool :=
  match ev with
  | EmitError _ => true
  | _ => false
  end.

Definition isDelivery (ev : Event) : bool :=
  match ev with
  | StreamPush _ _ | VideoPush _ _ => true
  | _ => false
  end.

Definition isNotify (ev : Event) : bool :=
  match ev with
  | OnSpeaking _ => true
  | _ => false
  end.

(** Events of the sink steps of [push]: error events and deliveries. *)
Definition isSink (ev : Event) : bool := isError ev || isDelivery ev.

(** What a packet for [userStat] puts on the sinks when it decodes to
    [payload]. *)
Definition deliveryEvents (streamInfo : option StreamInfo)
    (videoStreamInfo : option Handle) (payload : Buffer) : list Event :=
  match streamInfo with
  | Some si => [StreamPush (stream si) (Some payload)]
  | None => []
  end ++
  match videoStreamInfo with
  | Some h => [VideoPush h payload]
  | None => []
  end.

(** The fields the sink steps of [push] read. *)
Record sinks_frame (w w' : World) : Prop := {
  fr_nonce : nonce w' = nonce w;
  fr_auth : authentication (connection w') = authentication (connection w);
  fr_streams : streams w' = streams w;
  fr_video : videoStreams w' = videoStreams w;
  fr_listener : errorListener w' = errorListener w;
}.

(** Is a sink registered for the user? ([streamInfo || videoStreamInfo]) *)
Definition listening (sa : option StreamInfo) (sv : option Handle) : bool :=
  bool_decide (is_Some sa) || bool_decide (is_Some sv).

Module Obs.

(** Lines 75-90 of [parseBuffer]: what it makes of the answer of the
    secretbox. *)
Definition afterOpen (answer : OpenResult) : M (ParseError + Buffer) :=
  match answer with
  | OpenThrew => throw SecretboxError
  | Rejected => mret (inl DecryptFailed)
  | Opened packet =>
      packet ← orRangeError (stripExtension packet);
      mret (inr packet)
  end.

Section Observations.
Variable secretbox_open : Buffer → Buffer → Buffer → OpenResult.
Variable FLAGS_SPEAKING : Z.

(** The argument of the speaking-start call for [userStat]. *)
Definition startData (ssrc : Z) (userStat : UserStat) : SpeakingData :=
  {| user_id := userId userStat; sd_ssrc := ssrc;
     sd_speaking := if speaking userStat =? 0 then FLAGS_SPEAKING
                    else speaking userStat |}.

(** The events of one run of lines 119-142 whose notification returns. *)
Definition debounceEvents (w : World) (ssrc : Z) (userStat : UserStat)
    : list Event :=
  if bool_decide (is_Some (ssrcMap (connection w) !! ssrc)) then
    match speakingTimeouts w !! ssrc with
    | None => [OnSpeaking (startData ssrc userStat);
               SetTimeout ssrc DISCORD_SPEAKING_DELAY]
    | Some _ => [Refresh ssrc]
    end
  else [].

(** The timer map after such a run. *)
Definition debounceTimeouts (w : World) (ssrc : Z) (userStat : UserStat)
    : gmap Z Timeout :=
  if bool_decide (is_Some (ssrcMap (connection w) !! ssrc)) then
    <[ssrc := {| t_deadline := clock w + DISCORD_SPEAKING_DELAY;
                 t_armed := true;
                 t_user_id := match speakingTimeouts w !! ssrc with
                              | None => userId userStat
                              | Some t => t_user_id t
                              end |}]> (speakingTimeouts w)
  else speakingTimeouts w.

(** The start notification of this run, if it makes one, returns. *)
Definition startReturns (w : World) (ssrc : Z) (userStat : UserStat) : Prop :=
  is_Some (ssrcMap (connection w) !! ssrc) →
  speakingTimeouts w !! ssrc = None →
  onSpeaking (connection w) (startData ssrc userStat) = true.

(** Lines 144-170 of [push] as one computation. *)
Definition deliver (buffer : Buffer) (sa : option StreamInfo)
    (sv : option Handle) (opusPacket : option Buffer) : M unit :=
  opusPacket ← deliverAudio secretbox_open buffer sa opusPacket;
  deliverVideo secretbox_open buffer sv opusPacket.

End Observations.

End Obs.

Import Obs.

(* ===================================================================== *)
(** ** A concrete session                                                 *)
(* ===================================================================== *)

Module Demo.

(** A stand-in for secretbox: it throws for a key that is not 32 octets
    long, rejects the empty ciphertext and every ciphertext that starts
    with ff, and releases any other unchanged. *)
Definition open_ (c n k : Buffer) : OpenResult :=
  if negb (len k =? 32) then OpenThrew
  else
    match c with
    | [] => Rejected
    | b :: _ => if bool_decide (b = xff) then Rejected else Opened c
    end.

Definition SILENCE_FRAME : Buffer := [xf8; xff; xfe].

Definition FLAGS_SPEAKING : Z := 1.

Definition key : Buffer := alloc 32.

(** A 12-octet RTP header whose SSRC is the last octet. *)
Definition header (ssrc : byte) : Buffer :=
  [x80; x78; x00; x01; x00; x00; x00; x02; x00; x00; x00; ssrc].

(** alice sends audio only, carol is in video. *)
Definition alice : UserStat :=
  {| userId := "alice"; hasVideo := false; speaking := 0 |}.

Definition carol : UserStat :=
  {| userId := "carol"; hasVideo := true; speaking := 5 |}.

(** The directory: alice under 41, carol under 80. *)
Definition conn (mode : string) (notify : bool) : Connection :=
  {| authentication := {| secret_key := Some key; mode := mode |};
     ssrcMap := <[41 := alice]> (<[80 := carol]> ∅);
     onSpeaking := λ _, notify |}.

(** A fresh handler at time 1000 with an audio sink for alice and for
    carol and a video sink for carol. *)
Definition world (mode : string) (notify : bool) : World :=
  {| nonce := alloc 24;
     connection := conn mode notify;
     streams := <["alice" := {| stream := 0%nat; end_ := "manual" |}]>
                  (<["carol" := {| stream := 1%nat; end_ := "silence" |}]> ∅);
     videoStreams := <["carol" := 2%nat]> ∅;
     speakingTimeouts := ∅;
     errorListener := true;
     clock := 1000;
     nextHandle := 3%nat;
     trace := [] |}.

(** The same handler 250 ms later, while the timer armed for alice at
    time 1000 is due. *)
Definition speaking_world (mode : string) (notify : bool) : World :=
  set_speakingTimeouts
    (<[41 := {| t_deadline := 1250; t_armed := true;
                t_user_id := "alice" |}]> ∅)
    (set_clock 1250 (world mode notify)).

(** The same handler with nobody listening. *)
Definition unattended (mode : string) (notify : bool) : World :=
  set_videoStreams ∅ (set_streams ∅ (world mode notify)).

(** The same handler on a connection whose key has 16 octets, a size
    the secretbox refuses. *)
Definition short_key_world (mode : string) (notify : bool) : World :=
  set_connection
    {| authentication := {| secret_key := Some (alloc 16); mode := mode |};
       ssrcMap := ssrcMap (conn mode notify);
       onSpeaking := onSpeaking (conn mode notify) |}
    (world mode notify).

(** The handler of this session. *)
Definition pushDemo := PacketHandler.push open_ SILENCE_FRAME FLAGS_SPEAKING.

Definition parseDemo := PacketHandler.parseBuffer open_.

End Demo.

(* ===================================================================== *)
(** ** The life of a handler                                              *)
(* ===================================================================== *)

Module Run.

(** [new PacketHandler(receiver)]: a zeroed 24-octet nonce and three
    empty maps.  The connection is the receiver's; a new emitter has no
    listener; the clock and the next object identity are the runtime's. *)
Definition constructor (connection : Connection) (now : Z) (fresh : Handle)
    : World :=
  {| nonce := alloc 24;
     connection := connection;
     streams := ∅;
     videoStreams := ∅;
     speakingTimeouts := ∅;
     errorListener := false;
     clock := now;
     nextHandle := fresh;
     trace := [] |}.

(** The runtime looking at the timer of [ssrc]: its callback runs when
    the timer is scheduled and due, and not otherwise. *)
Definition timerDue (ssrc : Z) : M unit :=
  w ← get;
  match speakingTimeouts w !! ssrc with
  | Some t =>
      if t_armed t && (t_deadline t <=? clock w) then fireTimeout ssrc
      else mret tt
  | None => mret tt
  end.

(** What happens to a handler: calls of its methods, its callbacks run
    by the runtime, and what its surroundings do between two calls. *)
Inductive Op :=
| Push (buffer : Buffer)                 (* push(buffer) *)
| TimerDue (ssrc : Z)                    (* the runtime visits a timer *)
| Tick (ms : N)                          (* time passes *)
| MakeStream (user end' : string)        (* makeStream(user, end) *)
| MakeVideoStream (user : string)        (* makeVideoStream(user) *)
| StoppedSpeaking (user : string)        (* _stoppedSpeaking(user) *)
| StreamEnd (user : string)              (* 'end' of an audio stream *)
| VideoStreamEnd (user : string)         (* 'end' of a video stream *)
| OnError                                (* on('error', listener) *)
| SetConnection (c : Connection).        (* the connection changes *)

Section Exec.
Variable secretbox_open : Buffer → Buffer → Buffer → OpenResult.
Variable SILENCE_FRAME : Buffer.
Variable FLAGS_SPEAKING : Z.

(** One step.  A call that throws leaves the world it had reached. *)
Definition exec (w : World) (op : Op) : World :=
  match op with
  | Push buffer =>
      world_of (push secretbox_open SILENCE_FRAME FLAGS_SPEAKING buffer w)
  | TimerDue ssrc => world_of (timerDue ssrc w)
  | Tick ms => set_clock (clock w + Z.of_N ms) w
  | MakeStream user end' => world_of (makeStream user end' w)
  | MakeVideoStream user => world_of (makeVideoStream user w)
  | StoppedSpeaking user => world_of (_stoppedSpeaking user w)
  | StreamEnd user => world_of (onStreamEnd user w)
  | VideoStreamEnd user => world_of (onVideoStreamEnd user w)
  | OnError => set_errorListener true w
  | SetConnection c => set_connection c w
  end.

Definition run (w : World) (ops : list Op) : World := foldl exec w ops.

End Exec.

(** The connection notifies without throwing. *)
Definition notifies (c : Connection) : Prop := ∀ d, onSpeaking c d = true.

(** Every connection a run installs notifies without throwing. *)
Definition installs_notifying (op : Op) : Prop :=
  match op with
  | SetConnection c => notifies c
  | _ => True
  end.

(** What [push] leaves alone: both registries, the allocator, the clock,
    the listeners, the authentication and the notifier of the
    connection, and the size of the nonce buffer. *)
Record push_frame (w w' : World) : Prop := {
  pf_streams : streams w' = streams w;
  pf_video : videoStreams w' = videoStreams w;
  pf_next : nextHandle w' = nextHandle w;
  pf_clock : clock w' = clock w;
  pf_listener : errorListener w' = errorListener w;
  pf_auth : authentication (connection w') = authentication (connection w);
  pf_notifier : onSpeaking (connection w') = onSpeaking (connection w);
  pf_nonce : length (nonce w') = length (nonce w);
}.

(** The directory after a step that started from [w]: as it was, or
    with the speaking field of the entry under [ssrc] raised from 0 to
    [flag]. *)
Definition directory_step (flag ssrc : Z) (w w' : World) : Prop :=
  ssrcMap (connection w') = ssrcMap (connection w)
  ∨ ∃ userStat, ssrcMap (connection w) !! ssrc = Some userStat
                ∧ speaking userStat = 0
                ∧ ssrcMap (connection w')
                  = <[ssrc := set_speaking flag userStat]>
                      (ssrcMap (connection w)).

(** A computation keeps [R] between the world it starts in and the
    world it ends in, however it ends. *)
Definition preserves (R : World → World → Prop) {A} (m : M A) : Prop :=
  ∀ w, R w (world_of (m w)).

(** The connection object is untouched. *)
Definition same_connection (w w' : World) : Prop :=
  connection w' = connection w.

(** Sinks are distinct objects made before [nextHandle]: no two users
    share an audio stream or a video stream, and no audio stream is a
    video stream. *)
Record registry_wf (w : World) : Prop := {
  rw_audio_old : ∀ u si, streams w !! u = Some si →
                         (stream si < nextHandle w)%nat;
  rw_video_old : ∀ u h, videoStreams w !! u = Some h →
                        (h < nextHandle w)%nat;
  rw_audio_inj : ∀ u1 u2 s1 s2,
      streams w !! u1 = Some s1 → streams w !! u2 = Some s2 →
      stream s1 = stream s2 → u1 = u2;
  rw_video_inj : ∀ u1 u2 h,
      videoStreams w !! u1 = Some h → videoStreams w !! u2 = Some h →
      u1 = u2;
  rw_apart : ∀ u1 u2 si h,
      streams w !! u1 = Some si → videoStreams w !! u2 = Some h →
      stream si ≠ h;
}.

(** Starts and stops of [ssrc] are in balance with its timer entry: one
    more start than stops while the entry exists, as many otherwise. *)
Definition balanced (w : World) : Prop :=
  ∀ ssrc,
    count (isStart ssrc) (trace w)
    = (count (isStop ssrc) (trace w)
       + match speakingTimeouts w !! ssrc with
         | Some _ => 1
         | None => 0
         end)%nat.

(** Every timer entry is scheduled. *)
Definition all_armed (w : World) : Prop :=
  ∀ ssrc t, speakingTimeouts w !! ssrc = Some t → t_armed t = true.

(** Started with an ['error'] listener attached, a computation throws
    nothing but a RangeError, what [onSpeaking] threw or what the
    secretbox threw. *)
Definition handled {A} (m : M A) : Prop :=
  ∀ w e w', errorListener w = true → m w = Throw e w' →
            e = RangeError ∨ e = NotifyFailed ∨ e = SecretboxError.

(** An event that stays with the sinks [sa] and [sv]: a push on a
    stream is a push of a payload, never of the end-of-stream [null],
    on the stream of [sa]; a push on a video stream is on [sv]. *)
Definition ownEvent (sa : option StreamInfo) (sv : option Handle)
    (ev : Event) : Prop :=
  match ev with
  | StreamPush h chunk =>
      ∃ payload si, chunk = Some payload ∧ sa = Some si ∧ h = stream si
  | VideoPush h _ => sv = Some h
  | _ => True
  end.

(** The trace grows, by events that satisfy [P]. *)
Definition extends (P : Event → Prop) (w w' : World) : Prop :=
  ∃ evs, trace w' = trace w ++ evs ∧ Forall P evs.

(** The facts that go through a life together. *)
Definition armed_inv (w : World) : Prop :=
  notifies (connection w) ∧ all_armed w.

Definition debounce_inv (w : World) : Prop :=
  notifies (connection w) ∧ balanced w ∧ all_armed w.

End Run.

Import Run.

(* ===================================================================== *)
(** ** Reasoning about the monad                                          *)
(* ===================================================================== *)

Lemma bind_Normal {A B} (m : M A) (f : A → M B) w a w' :
  m w = Normal a w' → (m ≫= f) w = f a w'.
Proof. intros H. unfold mbind, M_bind. by rewrite H. Qed.

Lemma bind_Return {A B} (m : M A) (f : A → M B) w w' :
  m w = Return w' → (m ≫= f) w = Return w'.
Proof. intros H. unfold mbind, M_bind. by rewrite H. Qed.

Lemma bind_Throw {A B} (m : M A) (f : A → M B) w e w' :
  m w = Throw e w' → (m ≫= f) w = Throw e w'.
Proof. intros H. unfold mbind, M_bind. by rewrite H. Qed.

Ltac monad_unfold :=
  unfold mbind, M_bind, mret, M_ret, get, modify, log, throw, return_,
    orRangeError, method, try_catch, call_onSpeaking, emit_error in *.

(** Unfolding exposes the binds of the next call; three rounds reach the
    bottom of every method of the class. *)
Ltac msimpl := do 3 (monad_unfold; cbn).

(** Record eta for worlds, and the setters against the projections. *)
Lemma set_nonce_id w : set_nonce (nonce w) w = w.
Proof. by destruct w. Qed.

Lemma set_nonce_set_nonce n n' w : set_nonce n (set_nonce n' w) = set_nonce n w.
Proof. done. Qed.

(** *** [parseBuffer] reads the nonce buffer and the authentication, and
    writes the nonce buffer only *)

Section ParseFacts.
Variable secretbox_open : Buffer → Buffer → Buffer → OpenResult.

Lemma parseBuffer_indep buffer w w2 :
  nonce w2 = nonce w →
  authentication (connection w2) = authentication (connection w) →
  parseBuffer secretbox_open buffer w2
  = rebase (parseBuffer secretbox_open buffer w) w2.
Proof.
  intros Hn Ha. unfold parseBuffer. monad_unfold. rewrite Hn, Ha.
  destruct (chooseNonce _ _ _) as [[n e]|]; cbn.
  - destruct (secret_key _) as [key|]; cbn; [|done].
    destruct (secretbox_open _ _ _) as [p| |]; cbn; [|done..].
    destruct (stripExtension p); cbn; done.
  - by rewrite <- Hn, set_nonce_id.
Qed.

Lemma parseBuffer_frame buffer w :
  parseBuffer secretbox_open buffer w
  = rebase (parseBuffer secretbox_open buffer w) w.
Proof. by apply parseBuffer_indep. Qed.

Lemma parseBuffer_no_Return buffer w w' :
  parseBuffer secretbox_open buffer w ≠ Return w'.
Proof.
  unfold parseBuffer. monad_unfold.
  destruct (chooseNonce _ _ _) as [[n e]|]; cbn; [|done].
  destruct (secret_key _) as [key|]; cbn; [|done].
  destruct (secretbox_open _ _ _) as [p| |]; cbn; [|done..].
  destruct (stripExtension p); cbn; done.
Qed.

(** A parse that returned: the world is the old one with a new nonce. *)
Lemma parseBuffer_Normal_world buffer w r w1 :
  parseBuffer secretbox_open buffer w = Normal r w1 →
  w1 = set_nonce (nonce w1) w.
Proof.
  intros H. pose proof (parseBuffer_frame buffer w) as F.
  rewrite H in F. cbn in F. congruence.
Qed.

End ParseFacts.


(* ===================================================================== *)
(** ** Events of a call                                                   *)
(* ===================================================================== *)

Lemma count_app f l1 l2 : count f (l1 ++ l2) = (count f l1 + count f l2)%nat.
Proof. induction l1 as [|ev l1 IH]; cbn; [done | rewrite IH; lia]. Qed.

Lemma emitted_app w w' evs : trace w' = trace w ++ evs → emitted w w' = evs.
Proof. intros H. unfold emitted. rewrite H. apply drop_app_length. Qed.

Lemma emitted_same w w' : trace w' = trace w → emitted w w' = [].
Proof. intros H. apply emitted_app. by rewrite app_nil_r. Qed.

Section StageFacts.
Variable secretbox_open : Buffer → Buffer → Buffer → OpenResult.
Variable SILENCE_FRAME : Buffer.
Variable FLAGS_SPEAKING : Z.

#[local] Abbreviation parseBuffer := (parseBuffer secretbox_open).
#[local] Abbreviation silenceCheck := (silenceCheck secretbox_open SILENCE_FRAME).
#[local] Abbreviation advanceSpeaking := (advanceSpeaking FLAGS_SPEAKING).
#[local] Abbreviation ensureParsed := (ensureParsed secretbox_open).
#[local] Abbreviation deliverAudio := (deliverAudio secretbox_open).
#[local] Abbreviation deliverVideo := (deliverVideo secretbox_open).
#[local] Abbreviation push := (push secretbox_open SILENCE_FRAME FLAGS_SPEAKING).
#[local] Abbreviation startData := (startData FLAGS_SPEAKING).
#[local] Abbreviation debounceEvents := (debounceEvents FLAGS_SPEAKING).
#[local] Abbreviation startReturns := (startReturns FLAGS_SPEAKING).
#[local] Abbreviation deliver := (deliver secretbox_open).

Lemma advanceSpeaking_returns w ssrc userStat :
  startReturns w ssrc userStat →
  ∃ ws, advanceSpeaking ssrc userStat w = Normal tt ws
        ∧ sinks_frame w ws
        ∧ trace ws = trace w ++ debounceEvents w ssrc userStat
        ∧ speakingTimeouts ws = debounceTimeouts w ssrc userStat.
Proof.
  intros Hret. unfold PacketHandler.advanceSpeaking, Obs.debounceEvents,
    debounceTimeouts, Obs.startReturns, Obs.startData in *.
  monad_unfold. case_bool_decide as Hin; cbn.
  - destruct (speakingTimeouts w !! ssrc) as [t|] eqn:Ht; cbn.
    + eexists; split; [done|]. by repeat split.
    + specialize (Hret Hin eq_refl). revert Hret.
      destruct (speaking userStat =? 0); msimpl; intros ->;
        (eexists; split; [done|]); repeat split; cbn;
        by rewrite <- ?app_assoc.
  - eexists; split; [done|]. repeat split. by rewrite app_nil_r.
Qed.

(** A run whose start notification throws: the call was made, no timer
    is armed, the exception leaves [push]. *)
Lemma advanceSpeaking_throws w ssrc userStat :
  is_Some (ssrcMap (connection w) !! ssrc) →
  speakingTimeouts w !! ssrc = None →
  onSpeaking (connection w) (startData ssrc userStat) = false →
  ∃ ws, advanceSpeaking ssrc userStat w = Throw NotifyFailed ws
        ∧ trace ws = trace w ++ [OnSpeaking (startData ssrc userStat)]
        ∧ speakingTimeouts ws = speakingTimeouts w.
Proof.
  intros Hin Ht Hf. unfold PacketHandler.advanceSpeaking, Obs.startData in *. monad_unfold.
  rewrite bool_decide_true by done. rewrite Ht. revert Hf.
  destruct (speaking userStat =? 0); msimpl; intros ->;
    eexists; split; done.
Qed.

(** *** The silence check *)

Lemma silenceCheck_no_video buffer userStat sa sv w :
  hasVideo userStat = false →
  silenceCheck buffer userStat sa sv w = Normal None w.
Proof. intros H. unfold PacketHandler.silenceCheck. by rewrite H. Qed.

Lemma silenceCheck_pass buffer userStat sa sv w payload w1 :
  hasVideo userStat = true →
  parseBuffer buffer w = Normal (inr payload) w1 →
  payload ≠ SILENCE_FRAME →
  silenceCheck buffer userStat sa sv w = Normal (Some payload) w1.
Proof.
  intros Hv Hp Hs. unfold PacketHandler.silenceCheck. rewrite Hv.
  rewrite (bind_Normal _ _ _ _ _ Hp). unfold equals.
  rewrite bool_decide_false by congruence. done.
Qed.

Lemma silenceCheck_silence buffer userStat sa sv w w1 :
  hasVideo userStat = true →
  parseBuffer buffer w = Normal (inr SILENCE_FRAME) w1 →
  silenceCheck buffer userStat sa sv w = Return w1.
Proof.
  intros Hv Hp. unfold PacketHandler.silenceCheck. rewrite Hv.
  rewrite (bind_Normal _ _ _ _ _ Hp). unfold equals.
  rewrite bool_decide_true by done. done.
Qed.

Lemma silenceCheck_error buffer userStat sa sv w err w1 :
  hasVideo userStat = true →
  parseBuffer buffer w = Normal (inl err) w1 →
  let c := silenceCheck buffer userStat sa sv w in
  trace (world_of c)
  = trace w ++ (if listening sa sv then [EmitError err] else [])
  ∧ speakingTimeouts (world_of c) = speakingTimeouts w
  ∧ c ≠ Normal None (world_of c)
  ∧ (∀ p, c ≠ Normal (Some p) (world_of c))
  ∧ throws c = listening sa sv && negb (errorListener w).
Proof.
  intros Hv Hp. pose proof (parseBuffer_Normal_world _ _ _ _ _ Hp) as Hw.
  unfold PacketHandler.silenceCheck. rewrite Hv.
  rewrite (bind_Normal _ _ _ _ _ Hp). fold (listening sa sv).
  destruct (listening sa sv); msimpl.
  - rewrite Hw; cbn. destruct (errorListener w); cbn; by repeat split.
  - rewrite Hw; cbn. rewrite app_nil_r. by repeat split.
Qed.

(** *** Delivery to the sinks *)

Lemma deliver_parsed buffer sa sv payload ws :
  ∃ w', deliver buffer sa sv (Some payload) ws = Normal tt w'
        ∧ trace w' = trace ws ++ deliveryEvents sa sv payload
        ∧ speakingTimeouts w' = speakingTimeouts ws.
Proof.
  unfold Obs.deliver, PacketHandler.deliverAudio, PacketHandler.deliverVideo,
    PacketHandler.ensureParsed, deliveryEvents.
  destruct sa as [si|], sv as [h|]; msimpl; eexists; (split; [done|]);
    split; try done; by rewrite <- ?app_assoc, ?app_nil_r.
Qed.

Lemma deliver_unparsed buffer sa sv payload ws ws1 :
  parseBuffer buffer ws = Normal (inr payload) ws1 →
  ∃ w', deliver buffer sa sv None ws = Normal tt w'
        ∧ trace w' = trace ws ++ deliveryEvents sa sv payload
        ∧ speakingTimeouts w' = speakingTimeouts ws.
Proof.
  intros Hp. pose proof (parseBuffer_Normal_world _ _ _ _ _ Hp) as Hw.
  unfold Obs.deliver, PacketHandler.deliverAudio, PacketHandler.deliverVideo,
    PacketHandler.ensureParsed, deliveryEvents.
  destruct sa as [si|], sv as [h|]; msimpl; rewrite ?Hp; msimpl;
    eexists; (split; [done|]); try rewrite Hw; cbn;
    split; try done; by rewrite <- ?app_assoc, ?app_nil_r.
Qed.

Lemma deliver_error buffer sa sv err ws ws1 :
  parseBuffer buffer ws = Normal (inl err) ws1 →
  let c := method (deliver buffer sa sv None) ws in
  trace (world_of c)
  = trace ws ++ (if listening sa sv then [EmitError err] else [])
  ∧ speakingTimeouts (world_of c) = speakingTimeouts ws
  ∧ throws c = listening sa sv && negb (errorListener ws).
Proof.
  intros Hp. pose proof (parseBuffer_Normal_world _ _ _ _ _ Hp) as Hw.
  unfold Obs.deliver, PacketHandler.deliverAudio, PacketHandler.deliverVideo,
    PacketHandler.ensureParsed, listening.
  destruct sa as [si|], sv as [h|]; msimpl; rewrite ?Hp; msimpl;
    try rewrite Hw; cbn; rewrite ?app_nil_r;
    try (destruct (errorListener ws); cbn); by repeat split.
Qed.

(** *** [push] as the sequence of its stages *)

Lemma method_bind_Normal {A} (m : M A) (f : A → M unit) w a w' :
  m w = Normal a w' → method (m ≫= f) w = method (f a) w'.
Proof. intros H. unfold method. by rewrite (bind_Normal _ _ _ _ _ H). Qed.

Lemma method_Normal (m : M unit) w w' :
  m w = Normal tt w' → method m w = Normal tt w'.
Proof. intros H. unfold method. by rewrite H. Qed.

Lemma push_unresolved buffer w ssrc :
  readUInt32BE buffer 8 = Some ssrc →
  resolve w ssrc = None →
  push buffer w = Normal tt w.
Proof.
  intros Hr Hu. unfold PacketHandler.push. msimpl. rewrite Hr. msimpl.
  by rewrite Hu.
Qed.

Lemma push_truncated buffer w :
  readUInt32BE buffer 8 = None →
  push buffer w = Throw RangeError w.
Proof. intros Hr. unfold PacketHandler.push. msimpl. by rewrite Hr. Qed.

Lemma push_resolved buffer w ssrc userStat :
  readUInt32BE buffer 8 = Some ssrc →
  resolve w ssrc = Some userStat →
  push buffer w
  = method (
      opusPacket ← silenceCheck buffer userStat
                     (streams w !! userId userStat)
                     (videoStreams w !! userId userStat);
      advanceSpeaking ssrc userStat;;
      deliver buffer (streams w !! userId userStat)
        (videoStreams w !! userId userStat) opusPacket) w.
Proof.
  intros Hr Hu. unfold PacketHandler.push, method, Obs.deliver.
  unfold mbind at 1, M_bind at 1. unfold orRangeError. rewrite Hr.
  unfold mret at 1, M_ret at 1. unfold mbind at 1, M_bind at 1.
  unfold get at 1. rewrite Hu. done.
Qed.

(** A packet that decodes to [payload] (not silence for a user in video)
    and whose start notification returns: [push] returns, having run the
    speaking step once and pushed [payload] on each registered sink. *)
Lemma push_delivers buffer w ssrc userStat payload w1 :
  readUInt32BE buffer 8 = Some ssrc →
  resolve w ssrc = Some userStat →
  parseBuffer buffer w = Normal (inr payload) w1 →
  (hasVideo userStat = true → payload ≠ SILENCE_FRAME) →
  startReturns w ssrc userStat →
  ∃ w', push buffer w = Normal tt w'
        ∧ trace w' = trace w ++ debounceEvents w ssrc userStat
                     ++ deliveryEvents (streams w !! userId userStat)
                          (videoStreams w !! userId userStat) payload
        ∧ speakingTimeouts w' = debounceTimeouts w ssrc userStat.
Proof.
  intros Hr Hu Hp Hsil Hret. rewrite (push_resolved _ _ _ _ Hr Hu).
  assert (∃ n, w1 = set_nonce n w) as [n ->]
    by (eexists; by eapply parseBuffer_Normal_world).
  destruct (hasVideo userStat) eqn:Hv.
  - rewrite (method_bind_Normal _ _ _ _ _
               (silenceCheck_pass _ _ _ _ _ _ _ Hv Hp (Hsil eq_refl))).
    destruct (advanceSpeaking_returns (set_nonce n w) ssrc userStat)
      as (ws & Hs & _ & Htr & Hto); [exact Hret|].
    rewrite (method_bind_Normal _ _ _ _ _ Hs).
    destruct (deliver_parsed buffer (streams w !! userId userStat)
                (videoStreams w !! userId userStat) payload ws)
      as (w' & Hd & Htr' & Hto').
    exists w'. split; [by apply method_Normal|].
    rewrite Htr', Htr, Hto', Hto. by rewrite <- app_assoc.
  - rewrite (method_bind_Normal _ _ _ _ _
               (silenceCheck_no_video _ _ _ _ _ Hv)).
    destruct (advanceSpeaking_returns w ssrc userStat Hret)
      as (ws & Hs & Hfr & Htr & Hto).
    rewrite (method_bind_Normal _ _ _ _ _ Hs).
    pose proof (parseBuffer_indep secretbox_open buffer w ws
                  (fr_nonce _ _ Hfr) (fr_auth _ _ Hfr)) as Hp'.
    rewrite Hp in Hp'. cbn in Hp'.
    destruct (deliver_unparsed buffer (streams w !! userId userStat)
                (videoStreams w !! userId userStat) payload ws _ Hp')
      as (w' & Hd & Htr' & Hto').
    exists w'. split; [by apply method_Normal|].
    rewrite Htr', Htr, Hto', Hto. by rewrite <- app_assoc.
Qed.

(** A packet of a user in video whose parse yields an Error value. *)
Lemma push_error_video buffer w ssrc userStat err w1 :
  readUInt32BE buffer 8 = Some ssrc →
  resolve w ssrc = Some userStat →
  parseBuffer buffer w = Normal (inl err) w1 →
  hasVideo userStat = true →
  let c := push buffer w in
  let heard := listening (streams w !! userId userStat)
                 (videoStreams w !! userId userStat) in
  trace (world_of c) = trace w ++ (if heard then [EmitError err] else [])
  ∧ speakingTimeouts (world_of c) = speakingTimeouts w
  ∧ throws c = heard && negb (errorListener w).
Proof.
  intros Hr Hu Hp Hv. cbn zeta. rewrite (push_resolved _ _ _ _ Hr Hu).
  destruct (silenceCheck_error buffer userStat
              (streams w !! userId userStat)
              (videoStreams w !! userId userStat) w err w1 Hv Hp)
    as (Htr & Hto & Hn1 & Hn2 & Hth).
  unfold method, mbind, M_bind.
  destruct (silenceCheck buffer userStat _ _ w) as [[p|] w0|w0|e w0];
    cbn in *.
  - by destruct (Hn2 p).
  - by destruct Hn1.
  - done.
  - done.
Qed.

(** A packet of a user not in video whose parse yields an Error value. *)
Lemma push_error_audio buffer w ssrc userStat err w1 :
  readUInt32BE buffer 8 = Some ssrc →
  resolve w ssrc = Some userStat →
  parseBuffer buffer w = Normal (inl err) w1 →
  hasVideo userStat = false →
  startReturns w ssrc userStat →
  let c := push buffer w in
  let heard := listening (streams w !! userId userStat)
                 (videoStreams w !! userId userStat) in
  trace (world_of c) = trace w ++ debounceEvents w ssrc userStat
                       ++ (if heard then [EmitError err] else [])
  ∧ speakingTimeouts (world_of c) = debounceTimeouts w ssrc userStat
  ∧ throws c = heard && negb (errorListener w).
Proof.
  intros Hr Hu Hp Hv Hret. cbn zeta. rewrite (push_resolved _ _ _ _ Hr Hu).
  rewrite (method_bind_Normal _ _ _ _ _ (silenceCheck_no_video _ _ _ _ _ Hv)).
  destruct (advanceSpeaking_returns w ssrc userStat Hret)
    as (ws & Hs & Hfr & Htr & Hto).
  rewrite (method_bind_Normal _ _ _ _ _ Hs).
  pose proof (parseBuffer_indep secretbox_open buffer w ws
                (fr_nonce _ _ Hfr) (fr_auth _ _ Hfr)) as Hp'.
  rewrite Hp in Hp'. cbn in Hp'.
  destruct (deliver_error buffer (streams w !! userId userStat)
              (videoStreams w !! userId userStat) err ws _ Hp')
    as (Htr' & Hto' & Hth).
  rewrite Htr', Hto', Hth, Htr, Hto, (fr_listener _ _ Hfr).
  by rewrite <- app_assoc.
Qed.

End StageFacts.

(* ===================================================================== *)
(** ** Buffer facts                                                       *)
(* ===================================================================== *)

Lemma len_nonneg (b : Buffer) : 0 ≤ len b.
Proof. unfold len. lia. Qed.

Lemma octet_range (b : byte) : 0 ≤ octet b < 256.
Proof.
  unfold octet. pose proof (Byte.to_N_bounded b) as H. lia.
Qed.

Lemma readUInt16BE_range (b : Buffer) offset v :
  readUInt16BE b offset = Some v → 0 ≤ v < 65536.
Proof.
  unfold readUInt16BE. intros H.
  destruct (at_ b offset) as [b0|]; [|done].
  destruct (at_ b (offset + 1)) as [b1|]; [|done].
  injection H as <-.
  pose proof (octet_range b0). pose proof (octet_range b1). lia.
Qed.

(** [subarray(start)] from a non-negative offset drops [start] octets;
    past the end it leaves nothing. *)
Lemma subarray_from (b : Buffer) (start : Z) :
  0 ≤ start → subarray b start None = drop (Z.to_nat start) b.
Proof.
  intros H. unfold subarray, adjustOffset, len.
  destruct (start <? 0) eqn:E1; [lia|].
  destruct (start <? Z.of_nat (length b)) eqn:E2.
  - apply Z.ltb_lt in E2. rewrite (proj2 (Z.ltb_lt _ _) E2).
    apply take_ge. rewrite length_drop. lia.
  - apply Z.ltb_ge in E2. rewrite Z.ltb_irrefl. cbn.
    rewrite !drop_ge by lia. done.
Qed.

(** [slice(start, end)] with both offsets inside the buffer. *)
Lemma slice_within (b : Buffer) (start end' : Z) :
  0 ≤ start ≤ len b → 0 ≤ end' ≤ len b →
  slice b start (Some end') = drop (Z.to_nat start) (take (Z.to_nat end') b).
Proof.
  unfold slice, subarray, adjustOffset, len. intros Hs He.
  assert (∀ x, 0 ≤ x ≤ Z.of_nat (length b) →
            (if x <? 0 then Z.max 0 (x + Z.of_nat (length b))
             else if x <? Z.of_nat (length b) then x
                  else Z.of_nat (length b)) = x) as Hadj.
  { intros x Hx. destruct (x <? 0) eqn:E; [lia|].
    destruct (x <? Z.of_nat (length b)) eqn:E'; [done|]. lia. }
  rewrite !Hadj by done.
  destruct (start <? end') eqn:E.
  - rewrite take_drop_commute. f_equal. f_equal. lia.
  - apply Z.ltb_ge in E. change (Z.to_nat 0) with 0%nat. rewrite take_0.
    symmetry. apply drop_ge. rewrite length_take. lia.
Qed.

(** [copy] writes over the target without changing its size. *)
Lemma copy_length (source target : Buffer) ts ss se target' :
  copy source target ts ss se = Some target' →
  length target' = length target.
Proof.
  unfold copy, len. intros H.
  destruct (_ || _) eqn:E0 in H; [done|].
  destruct (_ || _) eqn:E in H; [by injection H as <-|].
  injection H as <-.
  apply orb_false_iff in E0 as [E0 E6].
  apply orb_false_iff in E0 as [E0 E5].
  apply orb_false_iff in E0 as [E3 E4].
  apply orb_false_iff in E as [E1 E2].
  apply Z.leb_gt in E1, E2. apply Z.ltb_ge in E3, E4, E5, E6.
  rewrite !length_app, !length_take, !length_drop. lia.
Qed.

Ltac zcases :=
  repeat match goal with
  | |- context [?a <? ?b] => destruct (Z.ltb_spec a b); try lia
  | |- context [?a <=? ?b] => destruct (Z.leb_spec a b); try lia
  end; cbn [orb andb].

(** The last [n] octets of the source written over the front of the
    target. *)
Lemma copy_tail (source target : Buffer) (n : Z) :
  0 < n ≤ len source → n ≤ len target →
  copy source target 0 (len source - n) None
  = Some (drop (Z.to_nat (len source - n)) source
          ++ drop (Z.to_nat n) target).
Proof.
  intros Hn Ht. unfold copy, default, from_option, id.
  pose proof (len_nonneg source). zcases.
  rewrite !Z.min_l by lia.
  change (Z.to_nat 0) with 0%nat. rewrite take_0. cbn [app].
  f_equal. f_equal; [|f_equal; lia].
  apply take_ge. rewrite length_drop. unfold len in *. lia.
Qed.

(** The first 12 octets of the source written over the front of the
    target. *)
Lemma copy_head (source target : Buffer) :
  12 ≤ len source → 12 ≤ len target →
  copy source target 0 0 (Some 12)
  = Some (take 12 source ++ drop 12 target).
Proof.
  intros Hs Ht. unfold copy, default, from_option, id.
  pose proof (len_nonneg source). zcases.
  rewrite !Z.min_l by lia.
  change (Z.to_nat 0) with 0%nat. change (Z.to_nat (12 - 0)) with 12%nat.
  change (Z.to_nat (0 + (12 - 0))) with 12%nat.
  by rewrite take_0, drop_0.
Qed.

(** A negative [sourceStart] is a RangeError. *)
Lemma copy_negative (source target : Buffer) (n : Z) :
  len source < n → copy source target 0 (len source - n) None = None.
Proof.
  intros H. unfold copy, default, from_option, id.
  destruct (Z.ltb_spec (len source - n) 0); [|lia].
  by rewrite orb_true_r.
Qed.

(* ===================================================================== *)
(** ** C7: the RTP extension stripper                                     *)
(* ===================================================================== *)

Lemma hasExtension_cons (packet : Buffer) :
  hasExtension packet = true ↔ ∃ rest, packet = xbe :: xde :: rest.
Proof.
  unfold hasExtension, at_. cbn. split.
  - intros H. apply andb_prop in H as [H0 H1].
    apply bool_decide_eq_true in H0, H1.
    destruct packet as [|b0 [|b1 rest]]; cbn in *; try done.
    injection H0 as ->. injection H1 as ->. by exists rest.
  - intros [rest ->]. done.
Qed.

Lemma stripExtension_skip (packet : Buffer) (n : Z) :
  hasExtension packet = true →
  readUInt16BE packet 2 = Some n →
  stripExtension packet = Some (drop (Z.to_nat (4 + 4 * n)) packet).
Proof.
  intros H Hn. unfold stripExtension. rewrite H, Hn. cbn.
  rewrite subarray_from; [done|].
  apply readUInt16BE_range in Hn. lia.
Qed.

(** C7, as the specification states it, fails: a payload that follows
    an extension block may start with the marker BE DE itself, and a
    second run then strips it again. *)
Lemma C7_strip_twice_differs :
  stripExtension [xbe; xde; x00; x00; xbe; xde; x00; x00; x01]
  = Some [xbe; xde; x00; x00; x01]
  ∧ stripExtension [xbe; xde; x00; x00; x01] = Some [x01]
  ∧ (stripExtension [xbe; xde; x00; x00; xbe; xde; x00; x00; x01]
     ≫= stripExtension)
    ≠ stripExtension [xbe; xde; x00; x00; xbe; xde; x00; x00; x01].
Proof. vm_compute. repeat split; congruence. Qed.

(** C7 (amended): a plaintext that does not start with BE DE passes
    unmodified; one that does, and whose 16-bit big-endian word count [n]
    at offset 2 can be read, loses its first 4 + 4n octets; and a second
    run of the stripper is a no-op whenever the stripped payload does not
    itself start with BE DE. *)
Theorem C7_stripExtension_once (packet : Buffer) :
  (hasExtension packet = false → stripExtension packet = Some packet)
  ∧ (∀ n, hasExtension packet = true →
          readUInt16BE packet 2 = Some n →
          stripExtension packet
          = Some (drop (Z.to_nat (4 + 4 * n)) packet))
  ∧ (∀ stripped, stripExtension packet = Some stripped →
                 hasExtension stripped = false →
                 stripExtension packet ≫= stripExtension
                 = stripExtension packet).
Proof.
  split; [|split].
  - intros H. unfold stripExtension. by rewrite H.
  - intros n H Hn. by apply stripExtension_skip.
  - intros stripped Hs Hm.
    rewrite Hs. cbn. unfold stripExtension. by rewrite Hm.
Qed.

(** The amended C7 at a plaintext with a one-word extension block. *)
Lemma C7_stripExtension_once_witness :
  stripExtension [xbe; xde; x00; x01; x10; x20; x30; x40; x07; x08]
  = Some [x07; x08]
  ∧ stripExtension [xbe; xde; x00; x01; x10; x20; x30; x40; x07; x08]
    ≫= stripExtension
    = stripExtension [xbe; xde; x00; x01; x10; x20; x30; x40; x07; x08].
Proof.
  pose proof (C7_stripExtension_once
                [xbe; xde; x00; x01; x10; x20; x30; x40; x07; x08])
    as (_ & Hskip & Hidem).
  specialize (Hskip 1 eq_refl eq_refl).
  split; [exact Hskip|].
  exact (Hidem [x07; x08] Hskip eq_refl).
Defined.

(* ===================================================================== *)
(** ** C5: the nonce and the ciphertext region                            *)
(* ===================================================================== *)

(** C5, as the specification states it, fails on short datagrams: in
    suffix mode a 12-octet datagram makes the [copy] of its "last 24
    octets" start at offset -12, a RangeError, so no nonce is produced
    and [parseBuffer] throws.  It also fails when the scratch nonce is
    not clean: here it holds the 24 octets a suffix-mode datagram left,
    and a lite-mode datagram overwrites only the first four. *)
Lemma C5_short_datagram_has_no_nonce :
  chooseNonce "xsalsa20_poly1305_suffix" (alloc 24) (Demo.header x29) = None
  ∧ throws (Demo.parseDemo (Demo.header x29)
              (Demo.world "xsalsa20_poly1305_suffix" true)) = true
  ∧ chooseNonce "xsalsa20_poly1305_lite" (replicate 24 x55)
      (Demo.header x29 ++ [x01; x02; x03; x04])
    = Some ([x01; x02; x03; x04] ++ replicate 20 x55, Some 12).
Proof. vm_compute. done. Qed.

(** The nonce builder in each mode, for a datagram long enough. *)
Lemma chooseNonce_lite (nonce buffer : Buffer) :
  4 ≤ len buffer → 4 ≤ len nonce →
  chooseNonce "xsalsa20_poly1305_lite" nonce buffer
  = Some (drop (length buffer - 4) buffer ++ drop 4 nonce,
          Some (len buffer - 4)).
Proof.
  intros Hb Hn. unfold chooseNonce. rewrite decide_True by done.
  rewrite copy_tail by lia. change (Z.to_nat 4) with 4%nat.
  replace (Z.to_nat (len buffer - 4)) with (length buffer - 4)%nat
    by (unfold len; lia).
  done.
Qed.

Lemma chooseNonce_suffix (nonce buffer : Buffer) :
  24 ≤ len buffer → len nonce = 24 →
  chooseNonce "xsalsa20_poly1305_suffix" nonce buffer
  = Some (drop (length buffer - 24) buffer, Some (len buffer - 24)).
Proof.
  intros Hb Hn. unfold chooseNonce.
  rewrite decide_False by done. rewrite decide_True by done.
  rewrite copy_tail by lia. change (Z.to_nat 24) with 24%nat.
  replace (Z.to_nat (len buffer - 24)) with (length buffer - 24)%nat
    by (unfold len; lia).
  rewrite (drop_ge nonce) by (unfold len in Hn; lia).
  by rewrite app_nil_r.
Qed.

Lemma chooseNonce_other (mode : string) (nonce buffer : Buffer) :
  mode ≠ "xsalsa20_poly1305_lite" → mode ≠ "xsalsa20_poly1305_suffix" →
  12 ≤ len buffer → 12 ≤ len nonce →
  chooseNonce mode nonce buffer
  = Some (take 12 buffer ++ drop 12 nonce, None).
Proof.
  intros Hl Hs Hb Hn. unfold chooseNonce. rewrite !decide_False by done.
  by rewrite copy_head by lia.
Qed.

(** The region between offset 12 and the last [n] octets. *)
Lemma slice_before_tail (b : Buffer) (n : Z) :
  0 ≤ n ≤ len b →
  slice b 12 (Some (len b - n)) = drop 12 (take (Z.to_nat (len b - n)) b).
Proof.
  intros Hn.
  assert (12 ≤ len b - n ∨ len b - n < 12) as [Hge|Hlt] by lia.
  - rewrite slice_within by lia. by change (Z.to_nat 12) with 12%nat.
  - unfold slice, subarray, adjustOffset.
    zcases; change (Z.to_nat 0) with 0%nat; rewrite take_0;
      symmetry; apply drop_ge; rewrite length_take; unfold len in *; lia.
Qed.

Section NonceClaims.
Variable secretbox_open : Buffer → Buffer → Buffer → OpenResult.

#[local] Abbreviation parseBuffer := (parseBuffer secretbox_open).

(** The one call of the secretbox [parseBuffer] makes: on the octets
    from offset 12 to [end], under the nonce just built, which stays in
    the nonce buffer. *)
Lemma parseBuffer_calls buffer w nonce' end' :
  chooseNonce (mode (authentication (connection w))) (nonce w) buffer
  = Some (nonce', end') →
  parseBuffer buffer w
  = match secret_key (authentication (connection w)) with
    | None => Normal (inl MissingKey) (set_nonce nonce' w)
    | Some key =>
        afterOpen (secretbox_open (slice buffer 12 end') nonce' key)
          (set_nonce nonce' w)
    end.
Proof.
  intros Hc. unfold PacketHandler.parseBuffer, Obs.afterOpen. msimpl.
  rewrite Hc. msimpl.
  destruct (secret_key _) as [key|]; msimpl; [|done].
  by destruct (secretbox_open _ _ _).
Qed.

(** C5 (amended): on a handler whose nonce buffer has its 24 octets,
    whenever the nonce builder returns, the nonce has 24 octets and the
    ciphertext [parseBuffer] hands to the secretbox under that nonce is
    the datagram from offset 12 to [end].  For a datagram of at least 4
    octets in lite mode: the nonce is its last 4 octets followed by the
    20 octets left in the nonce buffer, and the ciphertext is octets
    12 .. length-4.  For a datagram of at least 24 octets in suffix
    mode: the nonce is its last 24 octets and the ciphertext is octets
    12 .. length-24.  For a datagram of at least 12 octets in any other
    mode: the nonce is its first 12 octets followed by the 12 octets
    left in the nonce buffer, and the ciphertext is octets 12 .. length.
    [opens ciphertext nonce'] says that [parseBuffer] calls the
    secretbox on exactly these two and the key, and leaves [nonce'] in
    the nonce buffer. *)
Theorem C5_chooseNonce_regions buffer w :
  length (nonce w) = 24%nat →
  let auth := authentication (connection w) in
  let opens (ciphertext nonce' : Buffer) :=
    length nonce' = 24%nat
    ∧ parseBuffer buffer w
      = match secret_key auth with
        | None => Normal (inl MissingKey) (set_nonce nonce' w)
        | Some key =>
            afterOpen (secretbox_open ciphertext nonce' key)
              (set_nonce nonce' w)
        end in
  (∀ nonce' end',
     chooseNonce (mode auth) (nonce w) buffer = Some (nonce', end') →
     opens (slice buffer 12 end') nonce')
  ∧ (mode auth = "xsalsa20_poly1305_lite" → 4 ≤ len buffer →
     opens (drop 12 (take (length buffer - 4) buffer))
       (drop (length buffer - 4) buffer ++ drop 4 (nonce w)))
  ∧ (mode auth = "xsalsa20_poly1305_suffix" → 24 ≤ len buffer →
     opens (drop 12 (take (length buffer - 24) buffer))
       (drop (length buffer - 24) buffer))
  ∧ (mode auth ≠ "xsalsa20_poly1305_lite" →
     mode auth ≠ "xsalsa20_poly1305_suffix" →
     12 ≤ len buffer →
     opens (drop 12 buffer) (take 12 buffer ++ drop 12 (nonce w))).
Proof.
  intros Hlen. cbn zeta.
  assert (len (nonce w) = 24) as Hlen' by (unfold len; lia).
  assert (∀ nonce' end',
            chooseNonce (mode (authentication (connection w))) (nonce w) buffer
            = Some (nonce', end') →
            length nonce' = 24%nat
            ∧ parseBuffer buffer w
              = match secret_key (authentication (connection w)) with
                | None => Normal (inl MissingKey) (set_nonce nonce' w)
                | Some key =>
                    afterOpen
                      (secretbox_open (slice buffer 12 end') nonce' key)
                      (set_nonce nonce' w)
                end) as Hany.
  { intros nonce' end' Hc. split; [|by apply parseBuffer_calls].
    rewrite <- Hlen. revert Hc. unfold chooseNonce.
    repeat case_decide; intros Hcn;
      destruct (copy _ _ _ _ _) as [n|] eqn:Hc; cbn in Hcn; try done;
      injection Hcn as <- <-; by eapply copy_length. }
  split; [exact Hany|]. split; [|split].
  - intros Hm Hb.
    pose proof (Hany _ _ (eq_trans (f_equal (λ m, chooseNonce m _ _) Hm)
                            (chooseNonce_lite (nonce w) buffer Hb
                               ltac:(lia)))) as H.
    rewrite slice_before_tail in H by lia.
    by replace (Z.to_nat (len buffer - 4)) with (length buffer - 4)%nat in H
      by (unfold len; lia).
  - intros Hm Hb.
    pose proof (Hany _ _ (eq_trans (f_equal (λ m, chooseNonce m _ _) Hm)
                            (chooseNonce_suffix (nonce w) buffer Hb Hlen')))
      as H.
    rewrite slice_before_tail in H by lia.
    by replace (Z.to_nat (len buffer - 24)) with (length buffer - 24)%nat in H
      by (unfold len; lia).
  - intros Hl Hs Hb.
    pose proof (Hany _ _ (chooseNonce_other _ (nonce w) buffer Hl Hs Hb
                            ltac:(lia))) as H.
    unfold slice in H. by rewrite subarray_from in H by lia.
Qed.

End NonceClaims.

(** The amended C5 at a 20-octet datagram in lite mode on a handler
    whose nonce buffer still holds the 24 octets of an earlier
    suffix-mode datagram: the secretbox is called on octets 12 .. 16
    under the last 4 octets followed by 20 octets of the earlier
    nonce. *)
Lemma C5_chooseNonce_regions_witness :
  let w := set_nonce (replicate 24 x55)
             (Demo.world "xsalsa20_poly1305_lite" true) in
  let nonce' := [x01; x02; x03; x04] ++ replicate 20 x55 in
  Demo.parseDemo
    (Demo.header x29 ++ [x0a; x0b; x0c; x0d; x01; x02; x03; x04]) w
  = afterOpen (Demo.open_ [x0a; x0b; x0c; x0d] nonce' Demo.key)
      (set_nonce nonce' w)
  ∧ afterOpen (Demo.open_ [x0a; x0b; x0c; x0d] nonce' Demo.key)
      (set_nonce nonce' w)
    = Normal (inr [x0a; x0b; x0c; x0d]) (set_nonce nonce' w).
Proof.
  cbn zeta.
  destruct (C5_chooseNonce_regions Demo.open_
              (Demo.header x29 ++ [x0a; x0b; x0c; x0d; x01; x02; x03; x04])
              (set_nonce (replicate 24 x55)
                 (Demo.world "xsalsa20_poly1305_lite" true))
              eq_refl) as (_ & Hlite & _).
  destruct (Hlite eq_refl ltac:(vm_compute; discriminate)) as [_ Hcall].
  split; [exact Hcall | reflexivity].
Defined.

(* ===================================================================== *)
(** ** C10: the stream registry keeps the first end policy                *)
(* ===================================================================== *)

(** C10: with an audio stream already registered for [user], a further
    [makeStream(user, end2)] returns the stream made first and changes
    nothing, whatever [end2] is; the stored [end] of the first call alone
    decides whether [_stoppedSpeaking] ends the stream. *)
Theorem C10_makeStream_keeps_first_end (user end2 : string)
    (info : StreamInfo) (w : World) :
  streams w !! user = Some info →
  makeStream user end2 w = Normal (stream info) w
  ∧ streams (world_of (makeStream user end2 w)) !! user = Some info
  ∧ _stoppedSpeaking user (world_of (makeStream user end2 w))
    = if decide (end_ info = "silence")
      then Normal tt (set_trace (trace w ++ [StreamPush (stream info) None])
                        (set_streams (delete user (streams w)) w))
      else Normal tt w.
Proof.
  intros H.
  assert (makeStream user end2 w = Normal (stream info) w) as Hm.
  { unfold makeStream. msimpl. by rewrite H. }
  rewrite Hm. cbn. split; [done|]. split; [done|].
  unfold _stoppedSpeaking. msimpl. rewrite H.
  by destruct (decide (end_ info = "silence")).
Qed.

(** C10 at carol, whose stream was made with end = 'silence': a second
    [makeStream] with 'manual' returns stream 1 and a stop still ends it. *)
Lemma C10_makeStream_keeps_first_end_witness :
  makeStream "carol" "manual" (Demo.world "xsalsa20_poly1305" true)
  = Normal 1%nat (Demo.world "xsalsa20_poly1305" true)
  ∧ trace (world_of (_stoppedSpeaking "carol"
                       (world_of (makeStream "carol" "manual"
                                    (Demo.world "xsalsa20_poly1305" true)))))
    = [StreamPush 1%nat None].
Proof.
  pose proof (C10_makeStream_keeps_first_end "carol" "manual"
                {| stream := 1%nat; end_ := "silence" |}
                (Demo.world "xsalsa20_poly1305" true) eq_refl)
    as (Hm & _ & Hs).
  split; [exact Hm|]. rewrite Hs. reflexivity.
Defined.

(* ===================================================================== *)
(** ** The timer callback                                                 *)
(* ===================================================================== *)

Lemma fireTimeout_returns (ssrc : Z) (t : Timeout) (w : World) :
  speakingTimeouts w !! ssrc = Some t →
  onSpeaking (connection w)
    {| user_id := t_user_id t; sd_ssrc := ssrc; sd_speaking := 0 |} = true →
  ∃ w', fireTimeout ssrc w = Normal tt w'
        ∧ trace w' = trace w ++ [OnSpeaking {| user_id := t_user_id t;
                                               sd_ssrc := ssrc;
                                               sd_speaking := 0 |};
                                 ClearTimeout ssrc]
        ∧ speakingTimeouts w' = delete ssrc (speakingTimeouts w).
Proof.
  intros Ht Hok. unfold fireTimeout, speakingTimeoutCallback. msimpl.
  rewrite Ht. msimpl. rewrite Hok. msimpl.
  eexists. split; [done|]. cbn. split; [by rewrite <- app_assoc|].
  by rewrite delete_insert_eq.
Qed.

Lemma fireTimeout_notify_fails (ssrc : Z) (t : Timeout) (w : World) :
  speakingTimeouts w !! ssrc = Some t →
  onSpeaking (connection w)
    {| user_id := t_user_id t; sd_ssrc := ssrc; sd_speaking := 0 |} = false →
  ∃ w', fireTimeout ssrc w = Normal tt w'
        ∧ trace w' = trace w ++ [OnSpeaking {| user_id := t_user_id t;
                                               sd_ssrc := ssrc;
                                               sd_speaking := 0 |}]
        ∧ speakingTimeouts w' !! ssrc
          = Some {| t_deadline := t_deadline t; t_armed := false;
                    t_user_id := t_user_id t |}.
Proof.
  intros Ht Hf. unfold fireTimeout, speakingTimeoutCallback. msimpl.
  rewrite Ht. msimpl. rewrite Hf. msimpl.
  eexists. split; [done|]. cbn. split; [done|].
  by rewrite lookup_insert_eq.
Qed.

(* ===================================================================== *)
(** ** C3: a failed stop notification                                     *)
(* ===================================================================== *)

(** C3: the timer of alice (ssrc 41) fires while [onSpeaking] throws.
    The exception is swallowed: the callback returns.  But the entry is
    not removed from [speakingTimeouts]: [delete] stands after the
    throwing call inside the [try] block and is skipped.  The stale
    entry, no longer scheduled, makes the next packet of ssrc 41 refresh
    it instead of announcing a new start. *)
Theorem C3_failed_stop_keeps_timer_entry :
  let w := Demo.speaking_world "xsalsa20_poly1305" false in
  throws (fireTimeout 41 w) = false
  ∧ speakingTimeouts (world_of (fireTimeout 41 w)) !! 41
    = Some {| t_deadline := 1250; t_armed := false; t_user_id := "alice" |}
  ∧ emitted w (world_of (Demo.pushDemo (Demo.header x29 ++ [x01])
                           (world_of (fireTimeout 41 w))))
    = [OnSpeaking {| user_id := "alice"; sd_ssrc := 41; sd_speaking := 0 |};
       Refresh 41; StreamPush 0%nat (Some [x01])].
Proof. vm_compute. done. Qed.

(* ===================================================================== *)
(** ** What every packet that reaches the speaking step does              *)
(* ===================================================================== *)

Lemma count_none f evs :
  Forall (λ ev, f ev = false) evs → count f evs = 0%nat.
Proof. induction 1 as [|ev evs Hev _ IH]; cbn; [done|by rewrite Hev, IH]. Qed.

Lemma sink_events_only evs :
  Forall (λ ev, isSink ev = true) evs →
  (∀ ssrc, count (isAdvance ssrc) evs = 0%nat)
  ∧ count isNotify evs = 0%nat
  ∧ (∀ ssrc, count (isStart ssrc) evs = 0%nat)
  ∧ (∀ ssrc, count (isStop ssrc) evs = 0%nat).
Proof.
  intros H. repeat split; intros; apply count_none;
    (eapply Forall_impl; [exact H|]); by intros [].
Qed.

Lemma world_of_method (m : M unit) w :
  world_of (method m w) = world_of (m w).
Proof. unfold method. by destruct (m w). Qed.

Section ReachFacts.
Variable secretbox_open : Buffer → Buffer → Buffer → OpenResult.
Variable SILENCE_FRAME : Buffer.
Variable FLAGS_SPEAKING : Z.

#[local] Abbreviation parseBuffer := (parseBuffer secretbox_open).
#[local] Abbreviation silenceCheck := (silenceCheck secretbox_open SILENCE_FRAME).
#[local] Abbreviation advanceSpeaking := (advanceSpeaking FLAGS_SPEAKING).
#[local] Abbreviation push := (push secretbox_open SILENCE_FRAME FLAGS_SPEAKING).
#[local] Abbreviation startData := (startData FLAGS_SPEAKING).
#[local] Abbreviation debounceEvents := (debounceEvents FLAGS_SPEAKING).
#[local] Abbreviation startReturns := (startReturns FLAGS_SPEAKING).
#[local] Abbreviation deliver := (deliver secretbox_open).

Ltac parse_cases :=
  repeat match goal with
  | |- context [PacketHandler.parseBuffer secretbox_open ?b ?w] =>
      let F := fresh "F" in
      pose proof (parseBuffer_frame secretbox_open b w) as F;
      destruct (PacketHandler.parseBuffer secretbox_open b w)
        as [[?err|?p] ?w1|?w1|?e ?w1];
      cbn in F; injection F as F; try rewrite F; msimpl
  end.

(** The silence check lets a packet through with the trace, the timers
    and the directory as they were. *)
Lemma silenceCheck_Normal_world buffer userStat sa sv w opusPacket w0 :
  silenceCheck buffer userStat sa sv w = Normal opusPacket w0 →
  ∃ n, w0 = set_nonce n w.
Proof.
  unfold PacketHandler.silenceCheck.
  destruct (hasVideo userStat); msimpl.
  - pose proof (parseBuffer_frame secretbox_open buffer w) as F.
    destruct (PacketHandler.parseBuffer secretbox_open buffer w)
      as [[err|p] w1|w1|e w1]; cbn in F; msimpl; try done.
    + destruct (_ || _); msimpl; [|done]. by destruct (errorListener w1).
    + destruct (equals SILENCE_FRAME p); [done|].
      intros [= <- <-]. injection F as F. eauto.
  - intros [= <- <-]. exists (nonce w). by rewrite set_nonce_id.
Qed.

(** A packet stopped by the silence check leaves the timers alone and
    adds at most an error event. *)
Lemma silenceCheck_stops buffer userStat sa sv w :
  let c := silenceCheck buffer userStat sa sv w in
  (∀ opusPacket w0, c ≠ Normal opusPacket w0) →
  speakingTimeouts (world_of c) = speakingTimeouts w
  ∧ ∃ evs, trace (world_of c) = trace w ++ evs
           ∧ Forall (λ ev, isSink ev = true) evs.
Proof.
  cbn zeta. unfold PacketHandler.silenceCheck.
  destruct (hasVideo userStat); msimpl.
  - parse_cases; intros Hn.
    + destruct (_ || _); msimpl.
      * destruct (errorListener w); cbn; (split; [done|]);
          eexists; (split; [done|]); by repeat constructor.
      * split; [done|]. exists []. by rewrite app_nil_r.
    + destruct (equals SILENCE_FRAME p); cbn.
      * split; [done|]. exists []. by rewrite app_nil_r.
      * by destruct (Hn (Some p) (set_nonce (nonce w1) w)).
    + split; [done|]. exists []. by rewrite app_nil_r.
    + split; [done|]. exists []. by rewrite app_nil_r.
  - intros Hn. by destruct (Hn None w).
Qed.

(** The sink steps never touch the timers and add sink events only,
    however they end. *)
Lemma deliver_frame buffer sa sv opusPacket ws :
  let c := deliver buffer sa sv opusPacket ws in
  speakingTimeouts (world_of c) = speakingTimeouts ws
  ∧ ∃ evs, trace (world_of c) = trace ws ++ evs
           ∧ Forall (λ ev, isSink ev = true) evs.
Proof.
  cbn zeta. unfold Obs.deliver, PacketHandler.deliverAudio,
    PacketHandler.deliverVideo, PacketHandler.ensureParsed.
  destruct sa as [si|], sv as [h|], opusPacket as [p|]; msimpl;
    parse_cases; try destruct (errorListener ws); cbn;
    (split; [done|]);
    first [ by (exists []; rewrite app_nil_r)
          | eexists; split; [by rewrite <- ?app_assoc|];
            by repeat constructor ].
Qed.

(** A packet that passes the silence check and whose start
    notification, if any, returns: the speaking step runs once, and what
    follows are sink events. *)
Lemma push_reaches_speaking buffer w ssrc userStat opusPacket w0 :
  readUInt32BE buffer 8 = Some ssrc →
  resolve w ssrc = Some userStat →
  silenceCheck buffer userStat (streams w !! userId userStat)
    (videoStreams w !! userId userStat) w = Normal opusPacket w0 →
  startReturns w ssrc userStat →
  speakingTimeouts (world_of (push buffer w))
  = debounceTimeouts w ssrc userStat
  ∧ ∃ evs, trace (world_of (push buffer w))
           = trace w ++ debounceEvents w ssrc userStat ++ evs
           ∧ Forall (λ ev, isSink ev = true) evs.
Proof.
  intros Hr Hu Hsil Hret. rewrite (push_resolved _ _ _ _ _ _ _ Hr Hu).
  rewrite (method_bind_Normal _ _ _ _ _ Hsil).
  destruct (silenceCheck_Normal_world _ _ _ _ _ _ _ Hsil) as [n ->].
  destruct (advanceSpeaking_returns FLAGS_SPEAKING (set_nonce n w) ssrc
              userStat) as (ws & Hs & _ & Htr & Hto); [exact Hret|].
  rewrite (method_bind_Normal _ _ _ _ _ Hs). rewrite world_of_method.
  destruct (deliver_frame buffer (streams w !! userId userStat)
              (videoStreams w !! userId userStat) opusPacket ws)
    as (Hto' & evs & Htr' & Hev).
  split; [by rewrite Hto', Hto|].
  exists evs. split; [|done]. rewrite Htr', Htr. by rewrite <- app_assoc.
Qed.

(** A packet stopped by the silence check never reaches the speaking
    step. *)
Lemma push_stopped buffer w ssrc userStat :
  readUInt32BE buffer 8 = Some ssrc →
  resolve w ssrc = Some userStat →
  (∀ opusPacket w0,
     silenceCheck buffer userStat (streams w !! userId userStat)
       (videoStreams w !! userId userStat) w ≠ Normal opusPacket w0) →
  speakingTimeouts (world_of (push buffer w)) = speakingTimeouts w
  ∧ ∃ evs, trace (world_of (push buffer w)) = trace w ++ evs
           ∧ Forall (λ ev, isSink ev = true) evs.
Proof.
  intros Hr Hu Hn. rewrite (push_resolved _ _ _ _ _ _ _ Hr Hu).
  rewrite world_of_method.
  pose proof (silenceCheck_stops buffer userStat
                (streams w !! userId userStat)
                (videoStreams w !! userId userStat) w Hn) as Hst.
  cbn zeta in Hst. unfold mbind, M_bind.
  destruct (silenceCheck buffer userStat _ _ w) as [o w0|w0|e w0];
    [by destruct (Hn o w0)|done|done].
Qed.

(** A silence frame of a user in video: [push] returns at once. *)
Lemma push_silence buffer w ssrc userStat w1 :
  readUInt32BE buffer 8 = Some ssrc →
  resolve w ssrc = Some userStat →
  hasVideo userStat = true →
  parseBuffer buffer w = Normal (inr SILENCE_FRAME) w1 →
  push buffer w = Normal tt w1.
Proof.
  intros Hr Hu Hv Hp. rewrite (push_resolved _ _ _ _ _ _ _ Hr Hu).
  unfold method.
  by rewrite (bind_Return _ _ _ _
                (silenceCheck_silence _ _ _ _ _ _ _ _ Hv Hp)).
Qed.

(** [push] ends by returning or by throwing. *)
Lemma push_not_thrown buffer w :
  throws (push buffer w) = false → ∃ w', push buffer w = Normal tt w'.
Proof.
  unfold PacketHandler.push, method.
  match goal with
  | |- context [match ?c with Normal _ _ => _ | _ => _ end] =>
      destruct c as [[] w'|w'|e w']
  end; cbn; [eauto|eauto|done].
Qed.

End ReachFacts.

(* ===================================================================== *)
(** ** C1, C2: the speaking debouncer                                     *)
(* ===================================================================== *)

Section SpeakingClaims.
Variable secretbox_open : Buffer → Buffer → Buffer → OpenResult.
Variable SILENCE_FRAME : Buffer.
Variable FLAGS_SPEAKING : Z.

#[local] Abbreviation silenceCheck := (silenceCheck secretbox_open SILENCE_FRAME).
#[local] Abbreviation push := (push secretbox_open SILENCE_FRAME FLAGS_SPEAKING).
#[local] Abbreviation startData := (startData FLAGS_SPEAKING).
#[local] Abbreviation debounceEvents := (debounceEvents FLAGS_SPEAKING).
#[local] Abbreviation startReturns := (startReturns FLAGS_SPEAKING).

Lemma resolve_exact w ssrc userStat :
  ssrcMap (connection w) !! ssrc = Some userStat →
  resolve w ssrc = Some userStat.
Proof. intros H. unfold resolve. by rewrite H. Qed.

(** C1 (amended): a datagram that resolves to a directory entry and
    passes the silence check, and whose start notification (if one is
    made) returns, advances the debouncer of its SSRC exactly once when
    that SSRC itself is in the directory; when it resolves only through
    the entry under SSRC-1, [push] advances no debouncer and leaves the
    timer map as it was. *)
Theorem C1_debouncer_advanced_for_directory_ssrc
    buffer w ssrc userStat opusPacket w0 :
  readUInt32BE buffer 8 = Some ssrc →
  resolve w ssrc = Some userStat →
  silenceCheck buffer userStat (streams w !! userId userStat)
    (videoStreams w !! userId userStat) w = Normal opusPacket w0 →
  startReturns w ssrc userStat →
  let w' := world_of (push buffer w) in
  (is_Some (ssrcMap (connection w) !! ssrc) →
     count (isAdvance ssrc) (emitted w w') = 1%nat
     ∧ ∃ t, speakingTimeouts w' !! ssrc = Some t
            ∧ t_deadline t = clock w + DISCORD_SPEAKING_DELAY
            ∧ t_armed t = true)
  ∧ (ssrcMap (connection w) !! ssrc = None →
     (∀ s, count (isAdvance s) (emitted w w') = 0%nat)
     ∧ speakingTimeouts w' = speakingTimeouts w).
Proof.
  intros Hr Hu Hsil Hret. cbn zeta.
  destruct (push_reaches_speaking _ _ _ _ _ _ _ _ _ Hr Hu Hsil Hret)
    as (Hto & evs & Htr & Hev).
  apply sink_events_only in Hev as (Hadv & _).
  rewrite (emitted_app _ _ _ Htr), Hto.
  unfold Obs.debounceEvents, debounceTimeouts. split.
  - intros Hin. rewrite bool_decide_true by done.
    rewrite count_app, Hadv, lookup_insert_eq. split.
    + destruct (speakingTimeouts w !! ssrc); cbn;
        by rewrite bool_decide_true.
    + eexists. by split.
  - intros Hnone. rewrite bool_decide_false by (rewrite Hnone; by intros []).
    split; [|done]. intros s. by rewrite Hadv.
Qed.

(** C2 (amended): for an SSRC registered in the directory and a packet
    that passes the silence check, [Speaking.FLAGS.SPEAKING] being
    non-zero.  Idle (no timer entry), the start notification returning:
    exactly one notification is made, a speaking-start, and a timer is
    set for 250 ms.  Speaking (a timer entry): no notification is made
    and the same timer is refreshed to 250 ms from now.  The timer
    firing, the stop notification returning: exactly one speaking-stop
    is made and the entry is removed. *)
Theorem C2_speaking_state_machine buffer w ssrc userStat opusPacket w0 :
  FLAGS_SPEAKING ≠ 0 →
  readUInt32BE buffer 8 = Some ssrc →
  ssrcMap (connection w) !! ssrc = Some userStat →
  silenceCheck buffer userStat (streams w !! userId userStat)
    (videoStreams w !! userId userStat) w = Normal opusPacket w0 →
  let w' := world_of (push buffer w) in
  (speakingTimeouts w !! ssrc = None →
   onSpeaking (connection w) (startData ssrc userStat) = true →
     count (isStart ssrc) (emitted w w') = 1%nat
     ∧ count isNotify (emitted w w') = 1%nat
     ∧ count (isAdvance ssrc) (emitted w w') = 1%nat
     ∧ SetTimeout ssrc 250 ∈ emitted w w'
     ∧ speakingTimeouts w' !! ssrc
       = Some {| t_deadline := clock w + 250; t_armed := true;
                 t_user_id := userId userStat |})
  ∧ (∀ t, speakingTimeouts w !! ssrc = Some t →
     count isNotify (emitted w w') = 0%nat
     ∧ count (isAdvance ssrc) (emitted w w') = 1%nat
     ∧ Refresh ssrc ∈ emitted w w'
     ∧ speakingTimeouts w' !! ssrc
       = Some {| t_deadline := clock w + 250; t_armed := true;
                 t_user_id := t_user_id t |})
  ∧ (∀ t, speakingTimeouts w !! ssrc = Some t →
     onSpeaking (connection w)
       {| user_id := t_user_id t; sd_ssrc := ssrc; sd_speaking := 0 |}
     = true →
     ∃ wf, fireTimeout ssrc w = Normal tt wf
           ∧ emitted w wf
             = [OnSpeaking {| user_id := t_user_id t; sd_ssrc := ssrc;
                              sd_speaking := 0 |};
                ClearTimeout ssrc]
           ∧ count (isStop ssrc) (emitted w wf) = 1%nat
           ∧ count isNotify (emitted w wf) = 1%nat
           ∧ speakingTimeouts wf !! ssrc = None).
Proof.
  intros Hflag Hr Hin Hsil. cbn zeta.
  pose proof (resolve_exact _ _ _ Hin) as Hu.
  split; [|split].
  - intros Hidle Hok.
    destruct (push_reaches_speaking secretbox_open SILENCE_FRAME
                FLAGS_SPEAKING _ _ _ _ _ _ Hr Hu Hsil)
      as (Hto & evs & Htr & Hev); [by intros _ _|].
    apply sink_events_only in Hev as (Hadv & Hnot & Hstart & _).
    rewrite (emitted_app _ _ _ Htr), Hto.
    unfold Obs.debounceEvents, debounceTimeouts.
    rewrite bool_decide_true by (by rewrite Hin). rewrite Hidle.
    rewrite !count_app, Hadv, Hnot, Hstart, lookup_insert_eq. cbn.
    rewrite !bool_decide_true by done. cbn.
    assert (sd_speaking (startData ssrc userStat) ≠ 0) as Hnz.
    { cbn. destruct (speaking userStat =? 0) eqn:E; [done|].
      by apply Z.eqb_neq in E. }
    apply Z.eqb_neq in Hnz. cbn in Hnz. rewrite Hnz. cbn.
    repeat split; try done. set_solver.
  - intros t Ht.
    destruct (push_reaches_speaking secretbox_open SILENCE_FRAME
                FLAGS_SPEAKING _ _ _ _ _ _ Hr Hu Hsil)
      as (Hto & evs & Htr & Hev); [intros _ Hnone; congruence|].
    apply sink_events_only in Hev as (Hadv & Hnot & _).
    rewrite (emitted_app _ _ _ Htr), Hto.
    unfold Obs.debounceEvents, debounceTimeouts.
    rewrite bool_decide_true by (by rewrite Hin). rewrite Ht.
    rewrite !count_app, Hadv, Hnot, lookup_insert_eq. cbn.
    rewrite !bool_decide_true by done.
    repeat split; try done. set_solver.
  - intros t Ht Hok.
    destruct (fireTimeout_returns ssrc t w Ht Hok) as (wf & Hf & Htr & Hto).
    exists wf. split; [done|]. rewrite (emitted_app _ _ _ Htr), Hto. cbn.
    rewrite bool_decide_true by done. cbn.
    repeat split; try done. apply lookup_delete_eq.
Qed.

End SpeakingClaims.

(** C1, as the specification states it, fails: the datagram carries
    SSRC 42, the directory has alice under 41 and nothing under 42.  The
    packet resolves to alice through SSRC-1 and its payload is pushed on
    her audio stream, so it is not dropped, yet no timer is set or
    refreshed and no speaking notification is made: the speaking step is
    guarded by [ssrcMap.has(ssrc)].  The same payload sent with SSRC 41
    does advance the debouncer. *)
Lemma C1_fallback_packet_skips_debouncer :
  let w := Demo.world "xsalsa20_poly1305" true in
  readUInt32BE (Demo.header x2a ++ [x01; x02]) 8 = Some 42
  ∧ resolve w 42 = Some Demo.alice
  ∧ emitted w (world_of (Demo.pushDemo (Demo.header x2a ++ [x01; x02]) w))
    = [StreamPush 0%nat (Some [x01; x02])]
  ∧ count (isAdvance 42)
      (emitted w (world_of (Demo.pushDemo (Demo.header x2a ++ [x01; x02]) w)))
    = 0%nat
  ∧ speakingTimeouts
      (world_of (Demo.pushDemo (Demo.header x2a ++ [x01; x02]) w)) !! 42 = None
  ∧ count (isAdvance 41)
      (emitted w (world_of (Demo.pushDemo (Demo.header x29 ++ [x01; x02]) w)))
    = 1%nat.
Proof. vm_compute. done. Qed.

(** The amended C1 at a datagram of alice sent with her own SSRC 41. *)
Lemma C1_debouncer_advanced_for_directory_ssrc_witness :
  let w := Demo.world "xsalsa20_poly1305" true in
  count (isAdvance 41)
    (emitted w (world_of (Demo.pushDemo (Demo.header x29 ++ [x01; x02]) w)))
  = 1%nat.
Proof.
  cbn zeta.
  refine (proj1 (proj1 (C1_debouncer_advanced_for_directory_ssrc
                   Demo.open_ Demo.SILENCE_FRAME Demo.FLAGS_SPEAKING
                   (Demo.header x29 ++ [x01; x02])
                   (Demo.world "xsalsa20_poly1305" true) 41 Demo.alice
                   None (Demo.world "xsalsa20_poly1305" true)
                   eq_refl eq_refl eq_refl (λ _ _, eq_refl)) _)).
  by exists Demo.alice.
Defined.

(** C2, as the specification states it, fails twice.  A datagram of
    alice that carries SSRC 42 resolves through her entry under 41: no
    timer entry exists for 42, the packet is not dropped (its payload
    reaches her stream), and yet no notification is made and no timer
    is armed.  And when the timer of 41 fires while [onSpeaking] throws,
    the stop is attempted once but the entry is not removed. *)
Lemma C2_idle_packet_without_start :
  let w := Demo.world "xsalsa20_poly1305" true in
  let w' := world_of (Demo.pushDemo (Demo.header x2a ++ [x01; x02]) w) in
  let s := Demo.speaking_world "xsalsa20_poly1305" false in
  (speakingTimeouts w !! 42 = None
   ∧ emitted w w' = [StreamPush 0%nat (Some [x01; x02])]
   ∧ count isNotify (emitted w w') = 0%nat
   ∧ speakingTimeouts w' !! 42 = None)
  ∧ (count (isStop 41) (emitted s (world_of (fireTimeout 41 s))) = 1%nat
     ∧ speakingTimeouts (world_of (fireTimeout 41 s)) !! 41
       = Some {| t_deadline := 1250; t_armed := false;
                 t_user_id := "alice" |}).
Proof. vm_compute. done. Qed.

(** C2 at the first datagram of alice: one start, timer due at 1250. *)
Lemma C2_speaking_state_machine_witness :
  let w := Demo.world "xsalsa20_poly1305" true in
  count (isStart 41)
    (emitted w (world_of (Demo.pushDemo (Demo.header x29 ++ [x01; x02]) w)))
  = 1%nat
  ∧ speakingTimeouts
      (world_of (Demo.pushDemo (Demo.header x29 ++ [x01; x02]) w)) !! 41
    = Some {| t_deadline := 1250; t_armed := true; t_user_id := "alice" |}.
Proof.
  cbn zeta.
  destruct (C2_speaking_state_machine
              Demo.open_ Demo.SILENCE_FRAME Demo.FLAGS_SPEAKING
              (Demo.header x29 ++ [x01; x02])
              (Demo.world "xsalsa20_poly1305" true) 41 Demo.alice
              None (Demo.world "xsalsa20_poly1305" true)
              ltac:(discriminate) eq_refl eq_refl eq_refl)
    as (Hidle & _ & _).
  destruct (Hidle eq_refl eq_refl) as (Hstart & _ & _ & _ & Hto).
  split; [exact Hstart | exact Hto].
Defined.

(** One burst of alice: two datagrams 100 ms apart, then the timer
    250 ms after the second.  One start, one refresh, one stop; the
    directory entry of alice keeps the speaking flag written into it. *)
Example debounce_run :
  let w1 := world_of (Demo.pushDemo (Demo.header x29 ++ [x01])
                        (Demo.world "xsalsa20_poly1305" true)) in
  let w2 := world_of (Demo.pushDemo (Demo.header x29 ++ [x02])
                        (set_clock 1100 w1)) in
  let w3 := world_of (fireTimeout 41 (set_clock 1350 w2)) in
  trace w3
  = [OnSpeaking {| user_id := "alice"; sd_ssrc := 41; sd_speaking := 1 |};
     SetTimeout 41 250;
     StreamPush 0%nat (Some [x01]);
     Refresh 41;
     StreamPush 0%nat (Some [x02]);
     OnSpeaking {| user_id := "alice"; sd_ssrc := 41; sd_speaking := 0 |};
     ClearTimeout 41]
  ∧ t_deadline <$> speakingTimeouts w2 !! 41 = Some 1350
  ∧ speakingTimeouts w3 !! 41 = None
  ∧ speaking <$> ssrcMap (connection w3) !! 41 = Some 1.
Proof. vm_compute. done. Qed.

(* ===================================================================== *)
(** ** C4: which parse failures reach the error channel                   *)
(* ===================================================================== *)

Section ErrorClaims.
Variable secretbox_open : Buffer → Buffer → Buffer → OpenResult.
Variable SILENCE_FRAME : Buffer.
Variable FLAGS_SPEAKING : Z.

#[local] Abbreviation parseBuffer := (parseBuffer secretbox_open).
#[local] Abbreviation silenceCheck := (silenceCheck secretbox_open SILENCE_FRAME).
#[local] Abbreviation advanceSpeaking := (advanceSpeaking FLAGS_SPEAKING).
#[local] Abbreviation push := (push secretbox_open SILENCE_FRAME FLAGS_SPEAKING).
#[local] Abbreviation startData := (startData FLAGS_SPEAKING).
#[local] Abbreviation debounceEvents := (debounceEvents FLAGS_SPEAKING).
#[local] Abbreviation startReturns := (startReturns FLAGS_SPEAKING).

Lemma debounceEvents_no_sink w ssrc userStat :
  count isError (debounceEvents w ssrc userStat) = 0%nat
  ∧ count isDelivery (debounceEvents w ssrc userStat) = 0%nat.
Proof.
  unfold Obs.debounceEvents.
  by destruct (bool_decide _), (speakingTimeouts w !! ssrc).
Qed.

Lemma startReturns_cases w ssrc userStat :
  startReturns w ssrc userStat
  ∨ (is_Some (ssrcMap (connection w) !! ssrc)
     ∧ speakingTimeouts w !! ssrc = None
     ∧ onSpeaking (connection w) (startData ssrc userStat) = false).
Proof.
  unfold Obs.startReturns.
  destruct (onSpeaking (connection w) (startData ssrc userStat)) eqn:E;
    [by left|].
  destruct (ssrcMap (connection w) !! ssrc) eqn:Hin;
    [|left; by intros []].
  destruct (speakingTimeouts w !! ssrc) eqn:Ht; [left; by intros _ ?|].
  right. by repeat split.
Qed.

(** The start notification throws: [push] throws with it, before any
    sink is looked at. *)
Lemma push_start_throws buffer w ssrc userStat :
  readUInt32BE buffer 8 = Some ssrc →
  resolve w ssrc = Some userStat →
  hasVideo userStat = false →
  is_Some (ssrcMap (connection w) !! ssrc) →
  speakingTimeouts w !! ssrc = None →
  onSpeaking (connection w) (startData ssrc userStat) = false →
  trace (world_of (push buffer w))
  = trace w ++ [OnSpeaking (startData ssrc userStat)]
  ∧ throws (push buffer w) = true.
Proof.
  intros Hr Hu Hv Hin Ht Hf. rewrite (push_resolved _ _ _ _ _ _ _ Hr Hu).
  rewrite (method_bind_Normal _ _ _ _ _
             (silenceCheck_no_video _ _ _ _ _ _ _ Hv)).
  destruct (advanceSpeaking_throws FLAGS_SPEAKING w ssrc userStat Hin Ht Hf)
    as (ws & Hs & Htr & _).
  unfold method. by rewrite (bind_Throw _ _ _ _ _ Hs).
Qed.

(** C4 (amended): a packet whose parse fails by [parseBuffer]
    returning an Error value (a missing key, a decryption that ends in
    a falsy result).  With no audio and no video sink registered for the
    resolved user, no error event is emitted.  With at least one sink
    registered (and the speaking-start notification of the packet, if
    one is made, returning), exactly one error event is emitted,
    carrying that Error, and nothing is pushed on any sink. *)
Theorem C4_error_visibility buffer w ssrc userStat err w1 :
  readUInt32BE buffer 8 = Some ssrc →
  resolve w ssrc = Some userStat →
  parseBuffer buffer w = Normal (inl err) w1 →
  let w' := world_of (push buffer w) in
  (streams w !! userId userStat = None →
   videoStreams w !! userId userStat = None →
     count isError (emitted w w') = 0%nat
     ∧ count isDelivery (emitted w w') = 0%nat)
  ∧ (is_Some (streams w !! userId userStat)
     ∨ is_Some (videoStreams w !! userId userStat) →
     startReturns w ssrc userStat →
     count isError (emitted w w') = 1%nat
     ∧ EmitError err ∈ emitted w w'
     ∧ count isDelivery (emitted w w') = 0%nat).
Proof.
  intros Hr Hu Hp. cbn zeta.
  destruct (debounceEvents_no_sink w ssrc userStat) as [He Hd].
  split.
  - intros Hsa Hsv. destruct (hasVideo userStat) eqn:Hv.
    + destruct (push_error_video secretbox_open SILENCE_FRAME FLAGS_SPEAKING
                  _ _ _ _ _ _ Hr Hu Hp Hv)
        as (Htr & _). cbn zeta in Htr. rewrite Hsa, Hsv in Htr.
      by rewrite (emitted_app _ _ _ Htr).
    + destruct (startReturns_cases w ssrc userStat)
        as [Hret|(Hin & Ht & Hf)].
      * destruct (push_error_audio secretbox_open SILENCE_FRAME FLAGS_SPEAKING
                  _ _ _ _ _ _ Hr Hu Hp Hv Hret)
          as (Htr & _). cbn zeta in Htr. rewrite Hsa, Hsv in Htr.
        rewrite (emitted_app _ _ _ Htr). cbn. rewrite app_nil_r.
        by rewrite He, Hd.
      * destruct (push_start_throws _ _ _ _ Hr Hu Hv Hin Ht Hf) as (Htr & _).
        by rewrite (emitted_app _ _ _ Htr).
  - intros Hheard Hret.
    assert (listening (streams w !! userId userStat)
              (videoStreams w !! userId userStat) = true) as Hl.
    { unfold listening. apply orb_true_iff.
      destruct Hheard as [Ha|Hb]; [left|right];
        by apply bool_decide_eq_true. }
    destruct (hasVideo userStat) eqn:Hv.
    + destruct (push_error_video secretbox_open SILENCE_FRAME FLAGS_SPEAKING
                  _ _ _ _ _ _ Hr Hu Hp Hv)
        as (Htr & _). cbn zeta in Htr. rewrite Hl in Htr.
      rewrite (emitted_app _ _ _ Htr). cbn. repeat split; try done.
      apply list_elem_of_here.
    + destruct (push_error_audio secretbox_open SILENCE_FRAME FLAGS_SPEAKING
                  _ _ _ _ _ _ Hr Hu Hp Hv Hret)
        as (Htr & _). cbn zeta in Htr. rewrite Hl in Htr.
      rewrite (emitted_app _ _ _ Htr). rewrite !count_app, He, Hd. cbn.
      repeat split; try done.
      apply elem_of_app. right. apply list_elem_of_here.
Qed.

End ErrorClaims.

(** C4, as the specification states it, fails for the failures that
    are thrown.  alice has her audio stream registered.  A datagram
    whose plaintext is the two octets BE DE fails to parse: the read of
    the extension length raises a RangeError; a 12-octet datagram in
    suffix mode fails in the nonce builder; a key of the wrong size
    makes the secretbox throw.  Each time the exception leaves [push]
    and no error event is emitted. *)
Lemma C4_thrown_failure_emits_no_error :
  let w := Demo.world "xsalsa20_poly1305" true in
  let x := Demo.world "xsalsa20_poly1305_suffix" true in
  let k := Demo.short_key_world "xsalsa20_poly1305" true in
  streams w !! "alice" = Some {| stream := 0%nat; end_ := "manual" |}
  ∧ (throws (Demo.parseDemo (Demo.header x29 ++ [xbe; xde]) w) = true
     ∧ throws (Demo.pushDemo (Demo.header x29 ++ [xbe; xde]) w) = true
     ∧ count isError
         (emitted w
            (world_of (Demo.pushDemo (Demo.header x29 ++ [xbe; xde]) w)))
       = 0%nat)
  ∧ (throws (Demo.parseDemo (Demo.header x29) x) = true
     ∧ throws (Demo.pushDemo (Demo.header x29) x) = true
     ∧ count isError
         (emitted x (world_of (Demo.pushDemo (Demo.header x29) x)))
       = 0%nat)
  ∧ (Demo.parseDemo (Demo.header x29 ++ [x01; x02]) k
     = Throw SecretboxError (set_nonce (Demo.header x29 ++ alloc 12) k)
     ∧ throws (Demo.pushDemo (Demo.header x29 ++ [x01; x02]) k) = true
     ∧ count isError
         (emitted k
            (world_of (Demo.pushDemo (Demo.header x29 ++ [x01; x02]) k)))
       = 0%nat).
Proof. vm_compute. done. Qed.

(** C4 at a datagram of alice whose decryption fails: one error event
    and no delivery while her audio stream is registered, no error event
    in the same session with no stream registered. *)
Lemma C4_error_visibility_witness :
  let w := Demo.world "xsalsa20_poly1305" true in
  let u := Demo.unattended "xsalsa20_poly1305" true in
  (count isError
     (emitted w (world_of (Demo.pushDemo (Demo.header x29 ++ [xff; x02]) w)))
   = 1%nat
   ∧ count isDelivery
       (emitted w (world_of (Demo.pushDemo (Demo.header x29 ++ [xff; x02]) w)))
     = 0%nat)
  ∧ count isError
      (emitted u (world_of (Demo.pushDemo (Demo.header x29 ++ [xff; x02]) u)))
    = 0%nat.
Proof.
  cbn zeta. split.
  - destruct (C4_error_visibility
                Demo.open_ Demo.SILENCE_FRAME Demo.FLAGS_SPEAKING
                (Demo.header x29 ++ [xff; x02])
                (Demo.world "xsalsa20_poly1305" true) 41 Demo.alice
                DecryptFailed
                (set_nonce (Demo.header x29 ++ alloc 12)
                   (Demo.world "xsalsa20_poly1305" true))
                eq_refl eq_refl eq_refl)
      as (_ & Hheard).
    destruct Hheard as (Hone & _ & Hnone).
    + left. by eexists.
    + intros _ _. reflexivity.
    + split; [exact Hone | exact Hnone].
  - destruct (C4_error_visibility
                Demo.open_ Demo.SILENCE_FRAME Demo.FLAGS_SPEAKING
                (Demo.header x29 ++ [xff; x02])
                (Demo.unattended "xsalsa20_poly1305" true) 41 Demo.alice
                DecryptFailed
                (set_nonce (Demo.header x29 ++ alloc 12)
                   (Demo.unattended "xsalsa20_poly1305" true))
                eq_refl eq_refl eq_refl)
      as (Hnone & _).
    exact (proj1 (Hnone eq_refl eq_refl)).
Defined.

(* ===================================================================== *)
(** ** C6: when [push] returns                                            *)
(* ===================================================================== *)

Lemma at_inside (b : Buffer) (i : Z) :
  0 ≤ i < len b → is_Some (at_ b i).
Proof.
  intros H. unfold at_, len in *. destruct (Z.ltb_spec i 0); [lia|].
  apply lookup_lt_is_Some. lia.
Qed.

Lemma readUInt32BE_inside (b : Buffer) (offset : Z) :
  0 ≤ offset → offset + 4 ≤ len b → is_Some (readUInt32BE b offset).
Proof.
  intros H0 H4. unfold readUInt32BE.
  destruct (at_inside b offset) as [b0 ->]; [lia|].
  destruct (at_inside b (offset + 1)) as [b1 ->]; [lia|].
  destruct (at_inside b (offset + 2)) as [b2 ->]; [lia|].
  destruct (at_inside b (offset + 3)) as [b3 ->]; [lia|].
  done.
Qed.

Lemma copy_in_range (source target : Buffer) (ss : Z) (se : option Z) :
  0 ≤ ss ≤ len source → 0 ≤ default (len source) se →
  is_Some (copy source target 0 ss se).
Proof.
  intros Hss Hse. unfold copy.
  destruct (Z.ltb_spec 0 0); [lia|].
  destruct (Z.ltb_spec ss 0); [lia|].
  destruct (Z.ltb_spec (len source) ss); [lia|].
  destruct (Z.ltb_spec (default (len source) se) 0); [lia|].
  cbn [orb]. by destruct (_ || _).
Qed.

(** The nonce is chosen without a RangeError once the datagram holds a
    header, and 24 octets in suffix mode. *)
Lemma chooseNonce_in_range (mode : string) (nonce buffer : Buffer) :
  4 ≤ len buffer →
  (mode = "xsalsa20_poly1305_suffix" → 24 ≤ len buffer) →
  is_Some (chooseNonce mode nonce buffer).
Proof.
  intros H4 H24. pose proof (len_nonneg buffer). unfold chooseNonce.
  repeat case_decide.
  - destruct (copy_in_range buffer nonce (len buffer - 4) None) as [n ->];
      [lia|cbn; lia|done].
  - destruct (copy_in_range buffer nonce (len buffer - 24) None) as [n ->];
      [subst mode; specialize (H24 eq_refl); lia|cbn; lia|done].
  - destruct (copy_in_range buffer nonce 0 (Some 12)) as [n ->];
      [lia|cbn; lia|done].
Qed.

Section SafetyClaims.
Variable secretbox_open : Buffer → Buffer → Buffer → OpenResult.
Variable SILENCE_FRAME : Buffer.
Variable FLAGS_SPEAKING : Z.

#[local] Abbreviation parseBuffer := (parseBuffer secretbox_open).
#[local] Abbreviation push := (push secretbox_open SILENCE_FRAME FLAGS_SPEAKING).
#[local] Abbreviation startReturns := (startReturns FLAGS_SPEAKING).

(** What [parseBuffer] does once the nonce is chosen and the secretbox
    has answered. *)
Lemma parseBuffer_opened buffer w nonce' end' key plaintext payload :
  chooseNonce (mode (authentication (connection w))) (nonce w) buffer
  = Some (nonce', end') →
  secret_key (authentication (connection w)) = Some key →
  secretbox_open (slice buffer 12 end') nonce' key = Opened plaintext →
  stripExtension plaintext = Some payload →
  parseBuffer buffer w = Normal (inr payload) (set_nonce nonce' w).
Proof.
  intros Hc Hk Ho Hs. unfold PacketHandler.parseBuffer. msimpl.
  rewrite Hc. msimpl. rewrite Hk, Ho. msimpl. by rewrite Hs.
Qed.

Lemma parseBuffer_returns buffer w :
  4 ≤ len buffer →
  (mode (authentication (connection w)) = "xsalsa20_poly1305_suffix" →
   24 ≤ len buffer) →
  (∀ nonce' end' key,
     chooseNonce (mode (authentication (connection w))) (nonce w) buffer
     = Some (nonce', end') →
     secret_key (authentication (connection w)) = Some key →
     secretbox_open (slice buffer 12 end') nonce' key ≠ OpenThrew) →
  (∀ nonce' end' key plaintext,
     chooseNonce (mode (authentication (connection w))) (nonce w) buffer
     = Some (nonce', end') →
     secret_key (authentication (connection w)) = Some key →
     secretbox_open (slice buffer 12 end') nonce' key = Opened plaintext →
     is_Some (stripExtension plaintext)) →
  ∃ r w1, parseBuffer buffer w = Normal r w1.
Proof.
  intros H4 H24 Hopen Hstrip.
  destruct (chooseNonce_in_range _ (nonce w) buffer H4 H24)
    as [[nonce' end'] Hc].
  unfold PacketHandler.parseBuffer. msimpl. rewrite Hc. msimpl.
  destruct (secret_key _) as [key|] eqn:Hk; msimpl; [|eauto].
  destruct (secretbox_open _ _ _) as [plaintext| |] eqn:Ho; msimpl;
    [|eauto|by destruct (Hopen _ _ _ Hc eq_refl)].
  destruct (Hstrip _ _ _ _ Hc eq_refl Ho) as [payload ->]. msimpl. eauto.
Qed.

(** C6 (amended): [push] returns without throwing for every datagram
    that holds the 12-octet header, and 24 octets in suffix mode, when
    the call of [secretbox.methods.open] made for it returns (a
    plaintext or the falsy value of a failed decryption) rather than
    throws, the plaintext it decrypts to, if it starts with the
    extension marker, has the 4 octets of the extension header, an
    ['error'] listener is attached to the handler, and the
    speaking-start notification, if one is made, returns.  Missing key
    and failed decryption then end in a dropped packet and at most one
    error event. *)
Theorem C6_push_returns buffer w :
  12 ≤ len buffer →
  (mode (authentication (connection w)) = "xsalsa20_poly1305_suffix" →
   24 ≤ len buffer) →
  (∀ nonce' end' key,
     chooseNonce (mode (authentication (connection w))) (nonce w) buffer
     = Some (nonce', end') →
     secret_key (authentication (connection w)) = Some key →
     secretbox_open (slice buffer 12 end') nonce' key ≠ OpenThrew) →
  (∀ nonce' end' key plaintext,
     chooseNonce (mode (authentication (connection w))) (nonce w) buffer
     = Some (nonce', end') →
     secret_key (authentication (connection w)) = Some key →
     secretbox_open (slice buffer 12 end') nonce' key = Opened plaintext →
     is_Some (stripExtension plaintext)) →
  errorListener w = true →
  (∀ ssrc userStat, startReturns w ssrc userStat) →
  ∃ w', push buffer w = Normal tt w'
        ∧ (count isError (emitted w w') ≤ 1)%nat.
Proof.
  intros H12 H24 Hopen Hstrip Hl Hret.
  destruct (readUInt32BE_inside buffer 8) as [ssrc Hr]; [lia|lia|].
  destruct (resolve w ssrc) as [userStat|] eqn:Hu.
  2: { exists w. split; [exact (push_unresolved _ _ _ _ _ _ Hr Hu)|].
       rewrite emitted_same by done. cbn. lia. }
  destruct (parseBuffer_returns buffer w) as ([err|payload] & w1 & Hp);
    [lia|done|done|done| |].
  - (* the parse yields an Error value *)
    assert (throws (push buffer w) = false
            ∧ (count isError (emitted w (world_of (push buffer w)))
               ≤ 1)%nat)
      as [Hth Hcnt].
    { destruct (hasVideo userStat) eqn:Hv.
      - destruct (push_error_video secretbox_open SILENCE_FRAME
                    FLAGS_SPEAKING _ _ _ _ _ _ Hr Hu Hp Hv)
          as (Htr & _ & Hth). cbn zeta in Htr, Hth.
        rewrite Hl, andb_false_r in Hth. split; [done|].
        rewrite (emitted_app _ _ _ Htr). destruct (listening _ _); cbn; lia.
      - destruct (push_error_audio secretbox_open SILENCE_FRAME
                    FLAGS_SPEAKING _ _ _ _ _ _ Hr Hu Hp Hv (Hret _ _))
          as (Htr & _ & Hth). cbn zeta in Htr, Hth.
        rewrite Hl, andb_false_r in Hth. split; [done|].
        rewrite (emitted_app _ _ _ Htr), count_app.
        destruct (debounceEvents_no_sink FLAGS_SPEAKING w ssrc userStat)
          as [-> _].
        destruct (listening _ _); cbn; lia. }
    destruct (push_not_thrown _ _ _ _ _ Hth) as [w' Hw'].
    exists w'. split; [done|]. by rewrite Hw' in Hcnt.
  - (* the parse yields a payload *)
    destruct (decide (hasVideo userStat = true ∧ payload = SILENCE_FRAME))
      as [[Hv ->]|Hns].
    + exists w1. split; [by eapply push_silence|].
      rewrite emitted_same; [cbn; lia|].
      by rewrite (parseBuffer_Normal_world _ _ _ _ _ Hp).
    + destruct (push_delivers secretbox_open SILENCE_FRAME FLAGS_SPEAKING
                  _ _ _ _ _ _ Hr Hu Hp) as (w' & Hw' & Htr & _);
        [naive_solver|done|].
      exists w'. split; [done|].
      rewrite (emitted_app _ _ _ Htr), count_app.
      destruct (debounceEvents_no_sink FLAGS_SPEAKING w ssrc userStat)
        as [-> _].
      unfold deliveryEvents.
      destruct (streams w !! _), (videoStreams w !! _); cbn; lia.
Qed.

End SafetyClaims.

(** C6, as the specification states it, fails.  A 3-octet datagram:
    [readUInt32BE(8)] raises a RangeError that leaves [push].  A
    12-octet datagram for a listened user in suffix mode: the [copy] of
    its last 24 octets raises one.  A datagram that decrypts to the two
    octets BE DE: the read of the extension length raises one. *)
Lemma C6_truncated_datagram_throws :
  Demo.pushDemo [x80; x78; x00] (Demo.world "xsalsa20_poly1305" true)
  = Throw RangeError (Demo.world "xsalsa20_poly1305" true)
  ∧ throws (Demo.pushDemo (Demo.header x29)
              (Demo.world "xsalsa20_poly1305_suffix" true)) = true
  ∧ throws (Demo.pushDemo (Demo.header x29 ++ [xbe; xde])
              (Demo.world "xsalsa20_poly1305" true)) = true.
Proof. vm_compute. done. Qed.

(** The two hypotheses on the surroundings are needed: with no
    ['error'] listener attached the failed decryption is thrown by
    [emit], and a throwing [onSpeaking] leaves [push] from the speaking
    step. *)
Example push_throws_without_listener :
  throws (Demo.pushDemo (Demo.header x29 ++ [xff; x02])
            (set_errorListener false (Demo.world "xsalsa20_poly1305" true)))
  = true
  ∧ trace (world_of
             (Demo.pushDemo (Demo.header x29 ++ [xff; x02])
                (set_errorListener false
                   (Demo.world "xsalsa20_poly1305" true))))
    = [OnSpeaking {| user_id := "alice"; sd_ssrc := 41; sd_speaking := 1 |};
       SetTimeout 41 250; EmitError DecryptFailed].
Proof. vm_compute. done. Qed.

Example push_throws_with_notification :
  throws (Demo.pushDemo (Demo.header x29 ++ [x01; x02])
            (Demo.world "xsalsa20_poly1305" false)) = true
  ∧ speakingTimeouts
      (world_of (Demo.pushDemo (Demo.header x29 ++ [x01; x02])
                   (Demo.world "xsalsa20_poly1305" false))) !! 41 = None.
Proof. vm_compute. done. Qed.

(** So is the hypothesis on the secretbox: with a key of the wrong
    size its exception leaves [push], listener attached and notification
    returning. *)
Example push_throws_with_secretbox :
  let k := Demo.short_key_world "xsalsa20_poly1305" true in
  errorListener k = true
  ∧ Demo.pushDemo (Demo.header x29 ++ [x01; x02]) k
    = Throw SecretboxError
        (world_of (Demo.pushDemo (Demo.header x29 ++ [x01; x02]) k))
  ∧ trace (world_of (Demo.pushDemo (Demo.header x29 ++ [x01; x02]) k))
    = [OnSpeaking {| user_id := "alice"; sd_ssrc := 41; sd_speaking := 1 |};
       SetTimeout 41 250].
Proof. vm_compute. done. Qed.

(** The amended C6 at a datagram of alice whose decryption fails. *)
Lemma C6_push_returns_witness :
  ∃ w', Demo.pushDemo (Demo.header x29 ++ [xff; x02])
          (Demo.world "xsalsa20_poly1305" true) = Normal tt w'
        ∧ (count isError
             (emitted (Demo.world "xsalsa20_poly1305" true) w') ≤ 1)%nat.
Proof.
  apply (C6_push_returns Demo.open_ Demo.SILENCE_FRAME Demo.FLAGS_SPEAKING
           (Demo.header x29 ++ [xff; x02])
           (Demo.world "xsalsa20_poly1305" true)).
  - vm_compute. discriminate.
  - discriminate.
  - intros nonce' end' key Hc Hk. vm_compute in Hc, Hk.
    injection Hc as <- <-. injection Hk as <-. discriminate.
  - intros nonce' end' key plaintext Hc Hk. vm_compute in Hc, Hk.
    injection Hc as <- <-. injection Hk as <-. discriminate.
  - reflexivity.
  - intros ssrc userStat _ _. reflexivity.
Defined.

(* ===================================================================== *)
(** ** C8: an extension longer than the plaintext                         *)
(* ===================================================================== *)

Section ExtensionClaims.
Variable secretbox_open : Buffer → Buffer → Buffer → OpenResult.
Variable SILENCE_FRAME : Buffer.
Variable FLAGS_SPEAKING : Z.

#[local] Abbreviation parseBuffer := (parseBuffer secretbox_open).
#[local] Abbreviation push := (push secretbox_open SILENCE_FRAME FLAGS_SPEAKING).
#[local] Abbreviation debounceEvents := (debounceEvents FLAGS_SPEAKING).
#[local] Abbreviation startReturns := (startReturns FLAGS_SPEAKING).

(** C8 (amended): a plaintext that starts with the extension marker,
    whose length word [n] can be read and whose 4 + 4n octets to skip
    reach or pass its end, is stripped to the empty payload; the packet
    is not a failure: [parseBuffer] returns the empty payload, [push]
    returns, emits no error event and pushes the empty payload on each
    registered sink (for a user in video: provided the silence frame is
    not itself empty). *)
Theorem C8_overlong_extension_delivers_empty
    buffer w ssrc userStat nonce' end' key plaintext n :
  readUInt32BE buffer 8 = Some ssrc →
  resolve w ssrc = Some userStat →
  chooseNonce (mode (authentication (connection w))) (nonce w) buffer
  = Some (nonce', end') →
  secret_key (authentication (connection w)) = Some key →
  secretbox_open (slice buffer 12 end') nonce' key = Opened plaintext →
  hasExtension plaintext = true →
  readUInt16BE plaintext 2 = Some n →
  len plaintext ≤ 4 + 4 * n →
  (hasVideo userStat = true → SILENCE_FRAME ≠ []) →
  startReturns w ssrc userStat →
  stripExtension plaintext = Some []
  ∧ parseBuffer buffer w = Normal (inr []) (set_nonce nonce' w)
  ∧ ∃ w', push buffer w = Normal tt w'
          ∧ emitted w w'
            = debounceEvents w ssrc userStat
              ++ deliveryEvents (streams w !! userId userStat)
                   (videoStreams w !! userId userStat) []
          ∧ count isError (emitted w w') = 0%nat.
Proof.
  intros Hr Hu Hc Hk Ho Hm Hn Hlong Hsil Hret.
  assert (stripExtension plaintext = Some []) as Hs.
  { rewrite (stripExtension_skip plaintext n Hm Hn). f_equal.
    apply drop_ge.
    apply readUInt16BE_range in Hn. unfold len in Hlong. lia. }
  pose proof (parseBuffer_opened secretbox_open _ _ _ _ _ _ _ Hc Hk Ho Hs)
    as Hp.
  split; [done|]. split; [done|].
  destruct (push_delivers secretbox_open SILENCE_FRAME FLAGS_SPEAKING
              _ _ _ _ _ _ Hr Hu Hp) as (w' & Hw' & Htr & _);
    [naive_solver|done|].
  exists w'. split; [done|]. rewrite (emitted_app _ _ _ Htr).
  split; [done|]. rewrite count_app.
  destruct (debounceEvents_no_sink FLAGS_SPEAKING w ssrc userStat) as [-> _].
  unfold deliveryEvents.
  by destruct (streams w !! _), (videoStreams w !! _).
Qed.

End ExtensionClaims.

(** C8, as the specification states it, fails: the datagram of alice
    decrypts to BE DE 00 05 01 02, whose length word asks to skip 24 of
    its 6 octets.  [subarray] clamps, the payload is empty, no error is
    raised, and the empty payload is pushed on her audio stream after
    the speaking step has run.  (The stand-in secretbox releases the
    ciphertext as the plaintext; a real one does so for the ciphertext
    the sender made from this plaintext.) *)
Lemma C8_overlong_extension_is_delivered :
  let w := Demo.world "xsalsa20_poly1305" true in
  Demo.parseDemo (Demo.header x29 ++ [xbe; xde; x00; x05; x01; x02]) w
  = Normal (inr []) (set_nonce (Demo.header x29 ++ alloc 12) w)
  ∧ emitted w
      (world_of (Demo.pushDemo
                   (Demo.header x29 ++ [xbe; xde; x00; x05; x01; x02]) w))
    = [OnSpeaking {| user_id := "alice"; sd_ssrc := 41; sd_speaking := 1 |};
       SetTimeout 41 250;
       StreamPush 0%nat (Some [])]
  ∧ throws (Demo.pushDemo
              (Demo.header x29 ++ [xbe; xde; x00; x05; x01; x02]) w)
    = false.
Proof. vm_compute. done. Qed.

(** The amended C8 at the datagram of the counterexample. *)
Lemma C8_overlong_extension_delivers_empty_witness :
  ∃ w', Demo.pushDemo (Demo.header x29 ++ [xbe; xde; x00; x05; x01; x02])
          (Demo.world "xsalsa20_poly1305" true) = Normal tt w'
        ∧ emitted (Demo.world "xsalsa20_poly1305" true) w'
          = [OnSpeaking {| user_id := "alice"; sd_ssrc := 41;
                           sd_speaking := 1 |};
             SetTimeout 41 250;
             StreamPush 0%nat (Some [])]
        ∧ count isError (emitted (Demo.world "xsalsa20_poly1305" true) w')
          = 0%nat.
Proof.
  refine (proj2 (proj2 (C8_overlong_extension_delivers_empty
            Demo.open_ Demo.SILENCE_FRAME Demo.FLAGS_SPEAKING
            (Demo.header x29 ++ [xbe; xde; x00; x05; x01; x02])
            (Demo.world "xsalsa20_poly1305" true) 41 Demo.alice
            (Demo.header x29 ++ alloc 12) None Demo.key
            [xbe; xde; x00; x05; x01; x02] 5
            eq_refl eq_refl eq_refl eq_refl eq_refl eq_refl eq_refl
            _ _ _))).
  - vm_compute. discriminate.
  - discriminate.
  - intros _ _. reflexivity.
Defined.

(* ===================================================================== *)
(** ** C9: silence frames of users in video                               *)
(* ===================================================================== *)

Section SilenceClaims.
Variable secretbox_open : Buffer → Buffer → Buffer → OpenResult.
Variable SILENCE_FRAME : Buffer.
Variable FLAGS_SPEAKING : Z.

#[local] Abbreviation parseBuffer := (parseBuffer secretbox_open).
#[local] Abbreviation push := (push secretbox_open SILENCE_FRAME FLAGS_SPEAKING).
#[local] Abbreviation debounceEvents := (debounceEvents FLAGS_SPEAKING).
#[local] Abbreviation startReturns := (startReturns FLAGS_SPEAKING).

(** C9: a packet of a user in video that decodes to [payload].  If
    [payload] is the silence frame, [push] returns having called nothing:
    no sink receives anything and no timer is set or refreshed.  If it
    is any other payload, of the same length or not (and the
    speaking-start notification, if one is made, returns), the speaking
    step runs and [payload] is pushed on each registered sink. *)
Theorem C9_silence_filter buffer w ssrc userStat payload w1 :
  readUInt32BE buffer 8 = Some ssrc →
  resolve w ssrc = Some userStat →
  hasVideo userStat = true →
  parseBuffer buffer w = Normal (inr payload) w1 →
  (payload = SILENCE_FRAME →
     push buffer w = Normal tt w1
     ∧ emitted w w1 = []
     ∧ speakingTimeouts w1 = speakingTimeouts w
     ∧ streams w1 = streams w ∧ videoStreams w1 = videoStreams w
     ∧ connection w1 = connection w)
  ∧ (payload ≠ SILENCE_FRAME →
     startReturns w ssrc userStat →
     ∃ w', push buffer w = Normal tt w'
           ∧ emitted w w'
             = debounceEvents w ssrc userStat
               ++ deliveryEvents (streams w !! userId userStat)
                    (videoStreams w !! userId userStat) payload
           ∧ speakingTimeouts w' = debounceTimeouts w ssrc userStat).
Proof.
  intros Hr Hu Hv Hp. split.
  - intros ->. split; [by eapply push_silence|].
    rewrite (parseBuffer_Normal_world _ _ _ _ _ Hp).
    by rewrite emitted_same.
  - intros Hns Hret.
    destruct (push_delivers secretbox_open SILENCE_FRAME FLAGS_SPEAKING
                _ _ _ _ _ _ Hr Hu Hp (λ _, Hns) Hret)
      as (w' & Hw' & Htr & Hto).
    exists w'. split; [done|]. by rewrite (emitted_app _ _ _ Htr).
Qed.

End SilenceClaims.

(** C9 at carol (in video, SSRC 80): the silence frame F8 FF FE is
    dropped, the payload F8 FF 00 of the same length is delivered. *)
Lemma C9_silence_filter_witness :
  let w := Demo.world "xsalsa20_poly1305" true in
  Demo.pushDemo (Demo.header x50 ++ [xf8; xff; xfe]) w
  = Normal tt (set_nonce (Demo.header x50 ++ alloc 12) w)
  ∧ emitted w (set_nonce (Demo.header x50 ++ alloc 12) w) = []
  ∧ ∃ w', Demo.pushDemo (Demo.header x50 ++ [xf8; xff; x00]) w = Normal tt w'
          ∧ emitted w w'
            = [OnSpeaking {| user_id := "carol"; sd_ssrc := 80;
                             sd_speaking := 5 |};
               SetTimeout 80 250;
               StreamPush 1%nat (Some [xf8; xff; x00]);
               VideoPush 2%nat [xf8; xff; x00]].
Proof.
  cbn zeta.
  destruct (C9_silence_filter
              Demo.open_ Demo.SILENCE_FRAME Demo.FLAGS_SPEAKING
              (Demo.header x50 ++ [xf8; xff; xfe])
              (Demo.world "xsalsa20_poly1305" true) 80 Demo.carol
              [xf8; xff; xfe]
              (set_nonce (Demo.header x50 ++ alloc 12)
                 (Demo.world "xsalsa20_poly1305" true))
              eq_refl eq_refl eq_refl eq_refl) as (Hsil & _).
  destruct (Hsil eq_refl) as (Hpush & Hnone & _).
  destruct (C9_silence_filter
              Demo.open_ Demo.SILENCE_FRAME Demo.FLAGS_SPEAKING
              (Demo.header x50 ++ [xf8; xff; x00])
              (Demo.world "xsalsa20_poly1305" true) 80 Demo.carol
              [xf8; xff; x00]
              (set_nonce (Demo.header x50 ++ alloc 12)
                 (Demo.world "xsalsa20_poly1305" true))
              eq_refl eq_refl eq_refl eq_refl) as (_ & Hpass).
  destruct Hpass as (w' & Hw' & Hev & _);
    [discriminate | intros _ _; reflexivity |].
  split; [exact Hpush|]. split; [exact Hnone|].
  exists w'. split; [exact Hw' | exact Hev].
Defined.

(* ===================================================================== *)
(** ** What every call leaves alone                                       *)
(* ===================================================================== *)

Section Preserves.
Context (R : World → World → Prop) `{!PreOrder R}.

Lemma preserves_ret {A} (a : A) : preserves R (mret a).
Proof. intros w. cbn. reflexivity. Qed.

Lemma preserves_get : preserves R get.
Proof. intros w. cbn. reflexivity. Qed.

Lemma preserves_throw {A} e : preserves R (@throw A e).
Proof. intros w. cbn. reflexivity. Qed.

Lemma preserves_return {A} : preserves R (@return_ A).
Proof. intros w. cbn. reflexivity. Qed.

Lemma preserves_modify f : (∀ w, R w (f w)) → preserves R (modify f).
Proof. intros H w. apply H. Qed.

Lemma preserves_bind {A B} (m : M A) (f : A → M B) :
  preserves R m → (∀ a, preserves R (f a)) → preserves R (m ≫= f).
Proof.
  intros Hm Hf w. specialize (Hm w). unfold mbind, M_bind.
  destruct (m w) as [a w1|w1|e w1]; cbn in *; [|done|done].
  etrans; [exact Hm|apply Hf].
Qed.

Lemma preserves_method (m : M unit) : preserves R m → preserves R (method m).
Proof. intros Hm w. rewrite world_of_method. apply Hm. Qed.

Lemma preserves_try_catch (m : M unit) :
  preserves R m → preserves R (try_catch m).
Proof.
  intros Hm w. specialize (Hm w). unfold try_catch. by destruct (m w).
Qed.

Lemma preserves_orRangeError {A} (o : option A) :
  preserves R (orRangeError o).
Proof. destruct o; [apply preserves_ret|apply preserves_throw]. Qed.

End Preserves.

#[local] Instance push_frame_preorder : PreOrder push_frame.
Proof.
  split.
  - intros w. by split.
  - intros w1 w2 w3 [] []. split; congruence.
Qed.

Lemma push_frame_log ev : preserves push_frame (log ev).
Proof. apply (preserves_modify push_frame). intros w. by split. Qed.

Lemma push_frame_emit_error e : preserves push_frame (emit_error e).
Proof.
  unfold emit_error. apply (preserves_bind push_frame); [apply push_frame_log|].
  intros _. apply (preserves_bind push_frame); [by apply (preserves_get push_frame)|].
  intros w. destruct (errorListener w);
    [by apply (preserves_ret push_frame)|by apply (preserves_throw push_frame)].
Qed.

Lemma push_frame_call_onSpeaking d : preserves push_frame (call_onSpeaking d).
Proof.
  unfold call_onSpeaking.
  apply (preserves_bind push_frame); [apply push_frame_log|].
  intros _. apply (preserves_bind push_frame); [by apply (preserves_get push_frame)|].
  intros w. destruct (onSpeaking (connection w) d);
    [by apply (preserves_ret push_frame)|by apply (preserves_throw push_frame)].
Qed.

Lemma chooseNonce_length (mode : string) (nonce buffer : Buffer) nonce' end' :
  chooseNonce mode nonce buffer = Some (nonce', end') →
  length nonce' = length nonce.
Proof.
  unfold chooseNonce.
  repeat case_decide; intros Hcn;
    destruct (copy _ _ _ _ _) as [n|] eqn:Hc; cbn in Hcn; try done;
    injection Hcn as <- <-; by eapply copy_length.
Qed.

Section FrameFacts.
Variable secretbox_open : Buffer → Buffer → Buffer → OpenResult.
Variable SILENCE_FRAME : Buffer.
Variable FLAGS_SPEAKING : Z.

Lemma push_frame_parseBuffer buffer :
  preserves push_frame (parseBuffer secretbox_open buffer).
Proof.
  intros w. unfold PacketHandler.parseBuffer. msimpl.
  destruct (chooseNonce _ _ _) as [[n e]|] eqn:Hc; msimpl; [|by split].
  apply chooseNonce_length in Hc.
  destruct (secret_key _) as [key|]; msimpl; [|by split].
  destruct (secretbox_open _ _ _) as [p| |]; msimpl; [|by split..].
  destruct (stripExtension p); msimpl; by split.
Qed.

Lemma push_frame_silenceCheck buffer userStat sa sv :
  preserves push_frame
    (silenceCheck secretbox_open SILENCE_FRAME buffer userStat sa sv).
Proof.
  unfold PacketHandler.silenceCheck.
  destruct (hasVideo userStat); [|by apply (preserves_ret push_frame)].
  apply (preserves_bind push_frame); [apply push_frame_parseBuffer|].
  intros [err|p].
  - apply (preserves_bind push_frame); [|intros; by apply (preserves_return push_frame)].
    destruct (_ || _); [apply push_frame_emit_error|by apply (preserves_ret push_frame)].
  - destruct (equals SILENCE_FRAME p);
      [by apply (preserves_return push_frame)|by apply (preserves_ret push_frame)].
Qed.

Lemma push_frame_advanceSpeaking ssrc userStat :
  preserves push_frame (advanceSpeaking FLAGS_SPEAKING ssrc userStat).
Proof.
  intros w. unfold PacketHandler.advanceSpeaking. msimpl.
  destruct (bool_decide _); msimpl; [|by split].
  destruct (speakingTimeouts w !! ssrc); msimpl; [by split|].
  destruct (speaking userStat =? 0); msimpl;
    destruct (onSpeaking _ _); msimpl; by split.
Qed.

Lemma push_frame_ensureParsed buffer opusPacket :
  preserves push_frame (ensureParsed secretbox_open buffer opusPacket).
Proof.
  unfold PacketHandler.ensureParsed.
  destruct opusPacket; [by apply (preserves_ret push_frame)|].
  apply (preserves_bind push_frame); [apply push_frame_parseBuffer|].
  intros [err|p]; [|by apply (preserves_ret push_frame)].
  apply (preserves_bind push_frame); [apply push_frame_emit_error|].
  intros; by apply (preserves_return push_frame).
Qed.

Lemma push_frame_deliver buffer sa sv opusPacket :
  preserves push_frame (deliver secretbox_open buffer sa sv opusPacket).
Proof.
  unfold Obs.deliver, PacketHandler.deliverAudio, PacketHandler.deliverVideo.
  apply (preserves_bind push_frame); [|].
  - destruct sa; [|by apply (preserves_ret push_frame)].
    apply (preserves_bind push_frame); [apply push_frame_ensureParsed|].
    intros p. apply (preserves_bind push_frame); [apply push_frame_log|].
    intros; by apply (preserves_ret push_frame).
  - intros o. destruct sv; [|by apply (preserves_ret push_frame)].
    apply (preserves_bind push_frame); [apply push_frame_ensureParsed|].
    intros p. apply push_frame_log.
Qed.

Lemma push_frame_push buffer :
  preserves push_frame
    (push secretbox_open SILENCE_FRAME FLAGS_SPEAKING buffer).
Proof.
  unfold PacketHandler.push. apply (preserves_method push_frame).
  apply (preserves_bind push_frame); [by apply (preserves_orRangeError push_frame)|].
  intros ssrc. apply (preserves_bind push_frame); [by apply (preserves_get push_frame)|].
  intros w0. destruct (resolve w0 ssrc) as [userStat|];
    [|by apply (preserves_return push_frame)].
  apply (preserves_bind push_frame); [apply push_frame_silenceCheck|].
  intros opus. apply (preserves_bind push_frame); [apply push_frame_advanceSpeaking|].
  intros _. apply (push_frame_deliver buffer).
Qed.

End FrameFacts.

(* ===================================================================== *)
(** ** Further properties of [push]                                       *)
(* ===================================================================== *)

#[local] Instance same_connection_preorder : PreOrder same_connection.
Proof.
  split; [by intros w|]. intros w1 w2 w3. unfold same_connection. congruence.
Qed.

Section PushFacts.
Variable secretbox_open : Buffer → Buffer → Buffer → OpenResult.
Variable SILENCE_FRAME : Buffer.
Variable FLAGS_SPEAKING : Z.

#[local] Abbreviation parseBuffer := (parseBuffer secretbox_open).
#[local] Abbreviation silenceCheck := (silenceCheck secretbox_open SILENCE_FRAME).
#[local] Abbreviation advanceSpeaking := (advanceSpeaking FLAGS_SPEAKING).
#[local] Abbreviation push := (push secretbox_open SILENCE_FRAME FLAGS_SPEAKING).
#[local] Abbreviation deliver := (deliver secretbox_open).

Lemma same_connection_parseBuffer buffer :
  preserves same_connection (parseBuffer buffer).
Proof.
  intros w. rewrite (parseBuffer_frame secretbox_open buffer w).
  by destruct (parseBuffer buffer w).
Qed.

Lemma same_connection_emit_error e : preserves same_connection (emit_error e).
Proof. intros w. unfold emit_error. msimpl. by destruct (errorListener w). Qed.

Lemma same_connection_silenceCheck buffer userStat sa sv :
  preserves same_connection (silenceCheck buffer userStat sa sv).
Proof.
  unfold PacketHandler.silenceCheck.
  destruct (hasVideo userStat); [|by apply (preserves_ret same_connection)].
  apply (preserves_bind same_connection);
    [apply same_connection_parseBuffer|].
  intros [err|p].
  - apply (preserves_bind same_connection);
      [|intros; by apply (preserves_return same_connection)].
    destruct (_ || _); [apply same_connection_emit_error|].
    by apply (preserves_ret same_connection).
  - destruct (equals SILENCE_FRAME p);
      [by apply (preserves_return same_connection)|].
    by apply (preserves_ret same_connection).
Qed.

Lemma same_connection_deliver buffer sa sv opusPacket :
  preserves same_connection (deliver buffer sa sv opusPacket).
Proof.
  assert (∀ o, preserves same_connection
                 (ensureParsed secretbox_open buffer o)) as Hens.
  { intros [p|]; unfold PacketHandler.ensureParsed;
      [by apply (preserves_ret same_connection)|].
    apply (preserves_bind same_connection);
      [apply same_connection_parseBuffer|].
    intros [err|p]; [|by apply (preserves_ret same_connection)].
    apply (preserves_bind same_connection);
      [apply same_connection_emit_error|].
    intros; by apply (preserves_return same_connection). }
  assert (∀ ev, preserves same_connection (log ev)) as Hlog by (by intros ev w).
  unfold Obs.deliver, PacketHandler.deliverAudio, PacketHandler.deliverVideo.
  apply (preserves_bind same_connection).
  - destruct sa; [|by apply (preserves_ret same_connection)].
    apply (preserves_bind same_connection); [apply Hens|].
    intros p. apply (preserves_bind same_connection); [apply Hlog|].
    intros; by apply (preserves_ret same_connection).
  - intros o. destruct sv; [|by apply (preserves_ret same_connection)].
    apply (preserves_bind same_connection); [apply Hens|].
    intros p. apply Hlog.
Qed.

(** The speaking step writes the directory at most once, under the
    SSRC of the datagram, and only to raise a zero speaking field. *)
Lemma advanceSpeaking_directory ssrc userStat w :
  ssrcMap (connection w) !! ssrc = Some userStat
  ∨ ssrcMap (connection w) !! ssrc = None →
  directory_step FLAGS_SPEAKING ssrc w
    (world_of (advanceSpeaking ssrc userStat w)).
Proof.
  intros Hin. unfold PacketHandler.advanceSpeaking, directory_step. msimpl.
  case_bool_decide as Hsome; msimpl; [|by left].
  destruct Hin as [Hin|Hin]; [|rewrite Hin in Hsome; by destruct Hsome].
  destruct (speakingTimeouts w !! ssrc); msimpl; [by left|].
  destruct (speaking userStat =? 0) eqn:E; msimpl;
    destruct (onSpeaking _ _); msimpl; try (by left);
    right; exists userStat; apply Z.eqb_eq in E; by repeat split.
Qed.

Lemma resolve_directory w ssrc userStat :
  resolve w ssrc = Some userStat →
  ssrcMap (connection w) !! ssrc = Some userStat
  ∨ ssrcMap (connection w) !! ssrc = None.
Proof.
  unfold resolve. destruct (ssrcMap (connection w) !! ssrc);
    [intros [= ->]; by left|by right].
Qed.

Lemma push_directory buffer w ssrc :
  readUInt32BE buffer 8 = Some ssrc →
  directory_step FLAGS_SPEAKING ssrc w (world_of (push buffer w)).
Proof.
  intros Hr. destruct (resolve w ssrc) as [userStat|] eqn:Hu.
  2: { rewrite (push_unresolved _ _ _ _ _ _ Hr Hu). by left. }
  rewrite (push_resolved _ _ _ _ _ _ _ Hr Hu), world_of_method.
  pose proof (same_connection_silenceCheck buffer userStat
                (streams w !! userId userStat)
                (videoStreams w !! userId userStat) w) as Hc1.
  unfold mbind, M_bind.
  destruct (silenceCheck buffer userStat _ _ w) as [o w1|w1|e w1];
    cbn in Hc1; unfold same_connection in Hc1;
    [|left; cbn; by rewrite Hc1|left; cbn; by rewrite Hc1].
  pose proof (advanceSpeaking_directory ssrc userStat w1) as Hd.
  rewrite Hc1 in Hd. specialize (Hd (resolve_directory _ _ _ Hu)).
  destruct (advanceSpeaking ssrc userStat w1) as [[] ws|ws|e ws];
    cbn in Hd |- *; unfold directory_step in *; rewrite ?Hc1 in Hd;
    [|done|done].
  pose proof (same_connection_deliver buffer
                (streams w !! userId userStat)
                (videoStreams w !! userId userStat) o ws) as Hc2.
  unfold same_connection in Hc2. by rewrite Hc2.
Qed.

(** X1: a datagram whose SSRC and SSRC-1 are both absent from the
    directory is dropped without any effect: [push] returns and the
    world, nonce buffer and trace included, is as before. *)
Theorem unknown_ssrc_has_no_effect buffer w ssrc :
  readUInt32BE buffer 8 = Some ssrc →
  ssrcMap (connection w) !! ssrc = None →
  ssrcMap (connection w) !! (ssrc - 1) = None →
  push buffer w = Normal tt w.
Proof.
  intros Hr H0 H1. apply (push_unresolved _ _ _ _ _ _ Hr).
  unfold resolve. by rewrite H0, H1.
Qed.

(** X2: the datagram of an audio-only user for whom no audio and no
    video stream is registered is never decrypted: whatever the
    secretbox, the silence frame and the octets after the SSRC are,
    [push] does the same; it leaves the nonce buffer alone and emits no
    error and no delivery, even with a missing key or a forged
    datagram. *)
Theorem unattended_audio_is_never_decrypted
    (open' : Buffer → Buffer → Buffer → OpenResult)
    (SILENCE_FRAME' : Buffer) buffer buffer' w ssrc userStat :
  readUInt32BE buffer 8 = Some ssrc →
  readUInt32BE buffer' 8 = Some ssrc →
  resolve w ssrc = Some userStat →
  hasVideo userStat = false →
  streams w !! userId userStat = None →
  videoStreams w !! userId userStat = None →
  push buffer w
  = PacketHandler.push open' SILENCE_FRAME' FLAGS_SPEAKING buffer' w
  ∧ nonce (world_of (push buffer w)) = nonce w
  ∧ count isError (emitted w (world_of (push buffer w))) = 0%nat
  ∧ count isDelivery (emitted w (world_of (push buffer w))) = 0%nat.
Proof.
  intros Hr Hr' Hu Hv Hsa Hsv.
  assert (∀ o S b, readUInt32BE b 8 = Some ssrc →
            PacketHandler.push o S FLAGS_SPEAKING b w
            = method (advanceSpeaking ssrc userStat) w) as Hpush.
  { intros o S b Hb. rewrite (push_resolved _ _ _ _ _ _ _ Hb Hu).
    rewrite (method_bind_Normal _ _ _ _ _
               (silenceCheck_no_video _ _ _ _ _ _ _ Hv)).
    rewrite Hsa, Hsv. unfold method, mbind, M_bind.
    by destruct (advanceSpeaking ssrc userStat w) as [[] ?|?|? ?]. }
  rewrite !Hpush by done. split; [done|].
  rewrite world_of_method. unfold PacketHandler.advanceSpeaking. msimpl.
  destruct (bool_decide _); msimpl;
    [|by rewrite emitted_same].
  destruct (speakingTimeouts w !! ssrc); msimpl.
  - split; [done|].
    by rewrite (emitted_app w _ [Refresh ssrc]).
  - destruct (speaking userStat =? 0); msimpl;
      destruct (onSpeaking _ _); msimpl;
      (split; [done|]);
      erewrite !emitted_app by (cbn; rewrite <- ?app_assoc; reflexivity);
      done.
Qed.

(** X3: [push] never registers or removes a sink, whatever the datagram
    and however the call ends: both registries, the allocator of
    streams, the clock, the listeners, the authentication and the
    notifier of the connection are as before, and the nonce buffer keeps
    its size. *)
Theorem push_leaves_registries_alone buffer w :
  let w' := world_of (push buffer w) in
  streams w' = streams w
  ∧ videoStreams w' = videoStreams w
  ∧ nextHandle w' = nextHandle w
  ∧ clock w' = clock w
  ∧ errorListener w' = errorListener w
  ∧ authentication (connection w') = authentication (connection w)
  ∧ onSpeaking (connection w') = onSpeaking (connection w)
  ∧ length (nonce w') = length (nonce w).
Proof.
  cbn zeta.
  by destruct (push_frame_push secretbox_open SILENCE_FRAME FLAGS_SPEAKING
                 buffer w).
Qed.

(** X4: what [push] writes into the directory.  After any call,
    however it ends, the directory holds the same SSRCs, every entry has
    the userId and the hasVideo it had, and the entry under the SSRC of
    the datagram has the speaking value it had, or had 0 and now has
    [Speaking.FLAGS.SPEAKING].  (The speaking value of the other
    entries is left out: the assignment of line 126 goes through the
    entry object, and the directory is kept here by value.) *)
Theorem push_writes_only_the_speaking_flag buffer w ssrc :
  readUInt32BE buffer 8 = Some ssrc →
  let m := ssrcMap (connection w) in
  let m' := ssrcMap (connection (world_of (push buffer w))) in
  (∀ k, is_Some (m' !! k) ↔ is_Some (m !! k))
  ∧ (∀ k u', m' !! k = Some u' →
       ∃ u, m !! k = Some u
            ∧ userId u' = userId u ∧ hasVideo u' = hasVideo u)
  ∧ (∀ u u', m !! ssrc = Some u → m' !! ssrc = Some u' →
       speaking u' = speaking u
       ∨ (speaking u = 0 ∧ speaking u' = FLAGS_SPEAKING)).
Proof.
  intros Hr. cbn zeta.
  destruct (push_directory buffer w ssrc Hr) as [->|(u0 & Hin & H0 & ->)].
  - split; [done|]. split; [intros k u' ->; by eexists|].
    intros u u' -> [= ->]. by left.
  - split; [|split].
    + intros k. destruct (decide (k = ssrc)) as [->|Hne].
      * rewrite lookup_insert_eq, Hin. split; by eexists.
      * by rewrite lookup_insert_ne.
    + intros k u'. destruct (decide (k = ssrc)) as [->|Hne].
      * rewrite lookup_insert_eq. intros [= <-]. by exists u0.
      * rewrite lookup_insert_ne by done. intros ->. by eexists.
    + intros u u'. rewrite lookup_insert_eq, Hin. intros [= <-] [= <-].
      right. by split.
Qed.

End PushFacts.

(* ===================================================================== *)
(** ** Further properties of [parseBuffer]                                *)
(* ===================================================================== *)

Lemma copy_tail_throws (source target : Buffer) (n : Z) :
  0 ≤ n →
  copy source target 0 (len source - n) None = None ↔ len source < n.
Proof.
  intros Hn. split; [|apply copy_negative].
  intros Hc. destruct (Z.lt_ge_cases (len source) n) as [|Hge]; [done|].
  pose proof (len_nonneg source).
  destruct (copy_in_range source target (len source - n) None) as [x Hx];
    [lia|cbn; lia|congruence].
Qed.

(** X5: the nonce builder raises a RangeError exactly for a datagram
    shorter than 4 octets in lite mode and shorter than 24 octets in
    suffix mode; in every other mode it never raises, whatever the
    datagram and the scratch buffer are. *)
Theorem chooseNonce_throws_iff (mode : string) (nonce buffer : Buffer) :
  chooseNonce mode nonce buffer = None
  ↔ (mode = "xsalsa20_poly1305_lite" ∧ len buffer < 4)
    ∨ (mode = "xsalsa20_poly1305_suffix" ∧ len buffer < 24).
Proof.
  unfold chooseNonce. repeat case_decide; subst.
  - destruct (copy _ _ _ _ _) as [n|] eqn:Hc; cbn.
    + split; [done|]. intros [[_ Hlt]|[Hm _]]; [|done].
      apply (copy_negative buffer nonce) in Hlt. congruence.
    + apply copy_tail_throws in Hc; [|lia]. split; [by left|done].
  - destruct (copy _ _ _ _ _) as [n|] eqn:Hc; cbn.
    + split; [done|]. intros [[Hm _]|[_ Hlt]]; [done|].
      apply (copy_negative buffer nonce) in Hlt. congruence.
    + apply copy_tail_throws in Hc; [|lia]. split; [by right|done].
  - pose proof (len_nonneg buffer).
    destruct (copy_in_range buffer nonce 0 (Some 12)) as [n ->];
      [lia|cbn; lia|]. cbn. split; [done|]. by intros [[]|[]].
Qed.

(** X6: the extension stripper raises exactly on a plaintext that
    starts with the marker BE DE and has fewer than 4 octets, the ones
    its length word would be read from. *)
Theorem stripExtension_throws_iff (packet : Buffer) :
  stripExtension packet = None
  ↔ hasExtension packet = true ∧ len packet < 4.
Proof.
  unfold stripExtension. destruct (hasExtension packet) eqn:Hm.
  - apply hasExtension_cons in Hm as [rest ->].
    destruct rest as [|b2 [|b3 rest]]; cbn; unfold len; cbn.
    + split; [intros _; split; [done|lia]|done].
    + split; [intros _; split; [done|lia]|done].
    + split; [done|]. intros [_ Hlt]. lia.
  - split; [done|]. by intros [].
Qed.

Section ParseClaims.
Variable secretbox_open : Buffer → Buffer → Buffer → OpenResult.

#[local] Abbreviation parseBuffer := (parseBuffer secretbox_open).

(** X7: [parseBuffer] throws exactly when the nonce builder raises, or
    when the key is present and either the call of the secretbox throws,
    or the secretbox releases a plaintext that starts with BE DE within
    fewer than 4 octets.  What it throws is the exception of the
    secretbox in the second case and a RangeError in the two others.  A
    missing key and a decryption that fails with a falsy result never
    throw: they are returned as Error values. *)
Theorem parseBuffer_throws_iff buffer w :
  let m := mode (authentication (connection w)) in
  let opened nonce' end' key :=
    chooseNonce m (nonce w) buffer = Some (nonce', end')
    ∧ secret_key (authentication (connection w)) = Some key in
  (throws (parseBuffer buffer w) = true
   ↔ chooseNonce m (nonce w) buffer = None
     ∨ (∃ nonce' end' key,
          opened nonce' end' key
          ∧ secretbox_open (slice buffer 12 end') nonce' key = OpenThrew)
     ∨ (∃ nonce' end' key plaintext,
          opened nonce' end' key
          ∧ secretbox_open (slice buffer 12 end') nonce' key
            = Opened plaintext
          ∧ hasExtension plaintext = true
          ∧ len plaintext < 4))
  ∧ (∀ e w1, parseBuffer buffer w = Throw e w1 →
       e = SecretboxError
       ↔ ∃ nonce' end' key,
           opened nonce' end' key
           ∧ secretbox_open (slice buffer 12 end') nonce' key = OpenThrew)
  ∧ (∀ e w1, parseBuffer buffer w = Throw e w1 →
       e = RangeError ∨ e = SecretboxError).
Proof.
  cbn zeta. unfold PacketHandler.parseBuffer. msimpl.
  destruct (chooseNonce _ _ _) as [[n e]|] eqn:Hc; msimpl.
  2: { split; [split; [by left|done]|]. split.
       - intros e w1 [= <- <-]. split; [done|]. by intros (? & ? & ? & [] & _).
       - intros e w1 [= <- <-]. by left. }
  destruct (secret_key _) as [key|] eqn:Hk; msimpl.
  2: { split; [|done]. split; [done|].
       by intros [|[(? & ? & ? & [] & _)|(? & ? & ? & ? & [] & _)]]. }
  destruct (secretbox_open _ _ _) as [p| |] eqn:Ho; msimpl.
  2: { split; [|done]. split; [done|].
       intros [|[(? & ? & ? & [[= <- <-] [= <-]] & ?)
                 |(? & ? & ? & ? & [[= <- <-] [= <-]] & ? & _)]];
         congruence. }
  2: { split; [split; [intros _; right; left; by exists n, e, key|done]|].
       split.
       - intros e' w1 [= <- <-]. split; [|done]. intros _. by exists n, e, key.
       - intros e' w1 [= <- <-]. by right. }
  destruct (stripExtension p) as [q|] eqn:Hs; msimpl.
  - split; [|done]. split; [done|].
    intros [|[(? & ? & ? & [[= <- <-] [= <-]] & ?)
              |(? & ? & ? & ? & [[= <- <-] [= <-]] & Ho' & Hm & Hlt)]];
      [done|congruence|].
    rewrite Ho in Ho'. injection Ho' as <-.
    assert (stripExtension p = None) by (by apply stripExtension_throws_iff).
    congruence.
  - split; [split; [|done]|].
    + intros _. right. right.
      apply stripExtension_throws_iff in Hs as [Hm Hlt].
      by exists n, e, key, p.
    + split.
      * intros e' w1 [= <- <-]. split; [done|].
        intros (? & ? & ? & [[= <- <-] [= <-]] & ?). congruence.
      * intros e' w1 [= <- <-]. by left.
Qed.

(** X8: how [parseBuffer] takes a datagram apart.  With a key, a
    24-octet nonce buffer and a 12-octet header in front: in any mode
    but lite and suffix the secretbox opens all that follows the header
    under the header padded by the last 12 octets of the nonce buffer;
    in suffix mode it opens what lies between the header and the last 24
    octets under those 24 octets; in lite mode it opens what lies
    between the header and the last 4 octets under those 4 octets padded
    by the last 20 octets of the nonce buffer.  If the plaintext it
    releases has no extension marker, that plaintext is returned, and
    the nonce used is left in the nonce buffer. *)
Theorem parseBuffer_takes_datagram_apart
    (header ciphertext tail key plaintext : Buffer) (w : World) :
  length header = 12%nat →
  length (nonce w) = 24%nat →
  secret_key (authentication (connection w)) = Some key →
  hasExtension plaintext = false →
  let m := mode (authentication (connection w)) in
  (m ≠ "xsalsa20_poly1305_lite" → m ≠ "xsalsa20_poly1305_suffix" →
   secretbox_open ciphertext (header ++ drop 12 (nonce w)) key
   = Opened plaintext →
   parseBuffer (header ++ ciphertext) w
   = Normal (inr plaintext) (set_nonce (header ++ drop 12 (nonce w)) w))
  ∧ (m = "xsalsa20_poly1305_suffix" → length tail = 24%nat →
     secretbox_open ciphertext tail key = Opened plaintext →
     parseBuffer (header ++ ciphertext ++ tail) w
     = Normal (inr plaintext) (set_nonce tail w))
  ∧ (m = "xsalsa20_poly1305_lite" → length tail = 4%nat →
     secretbox_open ciphertext (tail ++ drop 4 (nonce w)) key
     = Opened plaintext →
     parseBuffer (header ++ ciphertext ++ tail) w
     = Normal (inr plaintext) (set_nonce (tail ++ drop 4 (nonce w)) w)).
Proof.
  intros Hh Hn Hk Hm. cbn zeta.
  assert (stripExtension plaintext = Some plaintext) as Hs
    by (unfold stripExtension; by rewrite Hm).
  assert (len (nonce w) = 24) as Hn' by (unfold len; lia).
  split; [|split].
  - intros Hl Hsf Ho.
    apply (parseBuffer_opened secretbox_open _ _ _ None key plaintext);
      [|done| |done].
    + rewrite chooseNonce_other; try done.
      * by rewrite take_app_length'.
      * unfold len. rewrite length_app. lia.
      * lia.
    + unfold slice. rewrite subarray_from by lia.
      change (Z.to_nat 12) with 12%nat. by rewrite drop_app_length'.
  - intros Hmode Ht Ho.
    assert (len (header ++ ciphertext ++ tail)
            = 36 + len ciphertext) as Hlen
      by (unfold len; rewrite !length_app; lia).
    pose proof (len_nonneg ciphertext).
    apply (parseBuffer_opened secretbox_open _ _ _
             (Some (len (header ++ ciphertext ++ tail) - 24)) key plaintext);
      [|done| |done].
    + rewrite Hmode, chooseNonce_suffix by lia. do 2 f_equal.
      rewrite app_assoc. apply drop_app_length'.
      rewrite !length_app. lia.
    + rewrite slice_within by lia.
      replace (Z.to_nat (len (header ++ ciphertext ++ tail) - 24))
        with (length (header ++ ciphertext))
        by (unfold len in *; rewrite length_app; lia).
      rewrite app_assoc, take_app_length.
      change (Z.to_nat 12) with 12%nat. by rewrite drop_app_length'.
  - intros Hmode Ht Ho.
    assert (len (header ++ ciphertext ++ tail)
            = 16 + len ciphertext) as Hlen
      by (unfold len; rewrite !length_app; lia).
    pose proof (len_nonneg ciphertext).
    apply (parseBuffer_opened secretbox_open _ _ _
             (Some (len (header ++ ciphertext ++ tail) - 4)) key plaintext);
      [|done| |done].
    + rewrite Hmode, chooseNonce_lite by lia. do 3 f_equal.
      rewrite app_assoc. apply drop_app_length'.
      rewrite !length_app. lia.
    + rewrite slice_within by lia.
      replace (Z.to_nat (len (header ++ ciphertext ++ tail) - 4))
        with (length (header ++ ciphertext))
        by (unfold len in *; rewrite length_app; lia).
      rewrite app_assoc, take_app_length.
      change (Z.to_nat 12) with 12%nat. by rewrite drop_app_length'.
Qed.

End ParseClaims.

(* ===================================================================== *)
(** ** The stream registry                                                *)
(* ===================================================================== *)

(** X9: [makeStream] and [makeVideoStream] are get-or-create, from any
    state of the handler: the call returns, a second call for the same
    user (with any [end]) returns the same stream and changes nothing,
    the stream is then registered for the user, no other user's stream
    is touched, and neither registry is touched by the other method. *)
Theorem makeStream_get_or_create (user end1 end2 : string) (w : World) :
  (∃ h w1,
     makeStream user end1 w = Normal h w1
     ∧ makeStream user end2 w1 = Normal h w1
     ∧ stream <$> streams w1 !! user = Some h
     ∧ (∀ other, other ≠ user → streams w1 !! other = streams w !! other)
     ∧ videoStreams w1 = videoStreams w
     ∧ trace w1 = trace w)
  ∧ (∃ h w1,
       makeVideoStream user w = Normal h w1
       ∧ makeVideoStream user w1 = Normal h w1
       ∧ videoStreams w1 !! user = Some h
       ∧ (∀ other, other ≠ user →
                   videoStreams w1 !! other = videoStreams w !! other)
       ∧ streams w1 = streams w
       ∧ trace w1 = trace w).
Proof.
  split.
  - unfold makeStream. msimpl.
    destruct (streams w !! user) as [si|] eqn:Hs; msimpl.
    + exists (stream si), w. rewrite Hs. by repeat split.
    + eexists _, _. split; [done|]. cbn. rewrite lookup_insert_eq. cbn.
      repeat split; try done. intros other Hne. by apply lookup_insert_ne.
  - unfold makeVideoStream. msimpl.
    destruct (videoStreams w !! user) as [h|] eqn:Hs; msimpl.
    + exists h, w. rewrite Hs. by repeat split.
    + eexists _, _. split; [done|]. cbn. rewrite lookup_insert_eq. cbn.
      repeat split; try done. intros other Hne. by apply lookup_insert_ne.
Qed.


(** X11: the ['end'] listener of an ended stream removes a newer one.
    After [_stoppedSpeaking] has ended the 'silence' stream of a user
    and [makeStream] has made a new stream for the same user, a
    different object, the listener [makeStream] had attached to the old
    stream, running once its end-of-stream is consumed, deletes the
    registration of the new stream, which was never ended. *)
Theorem stale_end_listener_removes_new_stream
    (user end2 : string) (si : StreamInfo) (w : World) :
  streams w !! user = Some si →
  end_ si = "silence" →
  (stream si < nextHandle w)%nat →
  let w1 := world_of (_stoppedSpeaking user w) in
  ∃ h2 w2,
    makeStream user end2 w1 = Normal h2 w2
    ∧ h2 ≠ stream si
    ∧ streams w2 !! user = Some {| stream := h2; end_ := end2 |}
    ∧ emitted w (world_of (onStreamEnd user w2))
      = [StreamPush (stream si) None]
    ∧ streams (world_of (onStreamEnd user w2)) !! user = None.
Proof.
  intros Hs He Hold. cbn zeta. unfold _stoppedSpeaking, makeStream. msimpl.
  rewrite Hs. rewrite decide_True by done. msimpl.
  rewrite lookup_delete_eq. msimpl.
  eexists _, _. split; [done|]. cbn.
  rewrite lookup_insert_eq, lookup_delete_eq.
  rewrite (emitted_app w _ [_]) by done.
  repeat split; try done. lia.
Qed.

(** X11 at carol, whose stream 1 was made with 'silence'. *)
Lemma stale_end_listener_removes_new_stream_witness :
  ∃ h2 w2,
    makeStream "carol" "manual"
      (world_of (_stoppedSpeaking "carol"
                   (Demo.world "xsalsa20_poly1305" true)))
    = Normal h2 w2
    ∧ h2 ≠ 1%nat
    ∧ streams w2 !! "carol" = Some {| stream := h2; end_ := "manual" |}
    ∧ emitted (Demo.world "xsalsa20_poly1305" true)
        (world_of (onStreamEnd "carol" w2))
      = [StreamPush 1%nat None]
    ∧ streams (world_of (onStreamEnd "carol" w2)) !! "carol" = None.
Proof.
  apply (stale_end_listener_removes_new_stream "carol" "manual"
           {| stream := 1%nat; end_ := "silence" |}
           (Demo.world "xsalsa20_poly1305" true));
    [reflexivity | reflexivity | vm_compute; lia].
Defined.

(* ===================================================================== *)
(** ** Invariants of a handler's life                                     *)
(* ===================================================================== *)

Lemma push_frame_fireTimeout ssrc : preserves push_frame (fireTimeout ssrc).
Proof.
  intros w. unfold fireTimeout, speakingTimeoutCallback. msimpl.
  destruct (speakingTimeouts w !! ssrc); msimpl; [|by split].
  destruct (onSpeaking _ _); msimpl; by split.
Qed.

Lemma push_frame_timerDue ssrc : preserves push_frame (timerDue ssrc).
Proof.
  intros w. unfold timerDue. msimpl.
  destruct (speakingTimeouts w !! ssrc) as [t|]; msimpl; [|by split].
  destruct (_ && _); [apply push_frame_fireTimeout|by split].
Qed.

Lemma registry_wf_frame w w' :
  streams w' = streams w → videoStreams w' = videoStreams w →
  nextHandle w' = nextHandle w → registry_wf w → registry_wf w'.
Proof.
  intros Hs Hv Hn [H1 H2 H3 H4 H5].
  split; rewrite ?Hs, ?Hv, ?Hn; eauto.
Qed.

Lemma registry_wf_delete_audio user w :
  registry_wf w → registry_wf (set_streams (delete user (streams w)) w).
Proof.
  intros [H1 H2 H3 H4 H5]. split; cbn.
  - intros u si [_ Hu]%lookup_delete_Some. eauto.
  - eauto.
  - intros u1 u2 s1 s2 [_ Hu1]%lookup_delete_Some
      [_ Hu2]%lookup_delete_Some. eauto.
  - eauto.
  - intros u1 u2 si h [_ Hu1]%lookup_delete_Some. eauto.
Qed.

Lemma registry_wf_delete_video user w :
  registry_wf w →
  registry_wf (set_videoStreams (delete user (videoStreams w)) w).
Proof.
  intros [H1 H2 H3 H4 H5]. split; cbn.
  - eauto.
  - intros u h [_ Hu]%lookup_delete_Some. eauto.
  - eauto.
  - intros u1 u2 h [_ Hu1]%lookup_delete_Some
      [_ Hu2]%lookup_delete_Some. eauto.
  - intros u1 u2 si h Hu1 [_ Hu2]%lookup_delete_Some. eauto.
Qed.

Lemma registry_wf_makeStream user end' w :
  registry_wf w → registry_wf (world_of (makeStream user end' w)).
Proof.
  intros Hwf. unfold makeStream. msimpl.
  destruct (streams w !! user) as [si|] eqn:Hs; msimpl; [done|].
  destruct Hwf as [H1 H2 H3 H4 H5]. split; cbn.
  - intros u si. rewrite lookup_insert. case_decide.
    + intros [= <-]. cbn. lia.
    + intros Hu. specialize (H1 _ _ Hu). lia.
  - intros u h Hu. specialize (H2 _ _ Hu). lia.
  - intros u1 u2 s1 s2. rewrite !lookup_insert. repeat case_decide.
    + congruence.
    + intros [= <-] Hu2 Heq. cbn in Heq. specialize (H1 _ _ Hu2). lia.
    + intros Hu1 [= <-] Heq. cbn in Heq. specialize (H1 _ _ Hu1). lia.
    + eauto.
  - eauto.
  - intros u1 u2 si h. rewrite lookup_insert. case_decide.
    + intros [= <-] Hu2. cbn. specialize (H2 _ _ Hu2). lia.
    + eauto.
Qed.

Lemma registry_wf_makeVideoStream user w :
  registry_wf w → registry_wf (world_of (makeVideoStream user w)).
Proof.
  intros Hwf. unfold makeVideoStream. msimpl.
  destruct (videoStreams w !! user) as [h0|] eqn:Hs; msimpl; [done|].
  destruct Hwf as [H1 H2 H3 H4 H5]. split; cbn.
  - intros u si Hu. specialize (H1 _ _ Hu). lia.
  - intros u h. rewrite lookup_insert. case_decide.
    + intros [= <-]. lia.
    + intros Hu. specialize (H2 _ _ Hu). lia.
  - eauto.
  - intros u1 u2 h. rewrite !lookup_insert. repeat case_decide.
    + congruence.
    + intros [= <-] Hu2. specialize (H2 _ _ Hu2). lia.
    + intros Hu1 [= <-]. specialize (H2 _ _ Hu1). lia.
    + eauto.
  - intros u1 u2 si h Hu1. rewrite lookup_insert. case_decide.
    + intros [= <-]. specialize (H1 _ _ Hu1). lia.
    + eauto.
Qed.

Lemma registry_wf_stoppedSpeaking user w :
  registry_wf w → registry_wf (world_of (_stoppedSpeaking user w)).
Proof.
  intros Hwf. unfold _stoppedSpeaking. msimpl.
  destruct (streams w !! user) as [si|]; msimpl; [|done].
  destruct (decide _); msimpl; [|done].
  eapply registry_wf_frame; [..|by apply (registry_wf_delete_audio user)];
    done.
Qed.

Section RunFacts.
Variable secretbox_open : Buffer → Buffer → Buffer → OpenResult.
Variable SILENCE_FRAME : Buffer.
Variable FLAGS_SPEAKING : Z.

#[local] Abbreviation exec := (exec secretbox_open SILENCE_FRAME FLAGS_SPEAKING).
#[local] Abbreviation run := (run secretbox_open SILENCE_FRAME FLAGS_SPEAKING).
#[local] Abbreviation push := (push secretbox_open SILENCE_FRAME FLAGS_SPEAKING).

(** An invariant of every step is an invariant of every run. *)
Lemma run_invariant (I : World → Prop) (ok : Op → Prop) :
  (∀ w op, I w → ok op → I (exec w op)) →
  ∀ ops w, I w → Forall ok ops → I (run w ops).
Proof.
  intros Hstep ops. induction ops as [|op ops IH]; intros w Hw Hok; [done|].
  apply Forall_cons in Hok as [Hop Hok]. cbn. apply IH; [|done].
  by apply Hstep.
Qed.

Lemma exec_registry_wf w op : registry_wf w → registry_wf (exec w op).
Proof.
  intros Hwf. destruct op; cbn [Run.exec].
  - destruct (push_frame_push secretbox_open SILENCE_FRAME FLAGS_SPEAKING
                buffer w).
    eapply registry_wf_frame; [| | |exact Hwf]; done.
  - destruct (push_frame_timerDue ssrc w).
    eapply registry_wf_frame; [| | |exact Hwf]; done.
  - eapply registry_wf_frame; [| | |exact Hwf]; done.
  - by apply registry_wf_makeStream.
  - by apply registry_wf_makeVideoStream.
  - by apply registry_wf_stoppedSpeaking.
  - by apply registry_wf_delete_audio.
  - by apply registry_wf_delete_video.
  - eapply registry_wf_frame; [| | |exact Hwf]; done.
  - eapply registry_wf_frame; [| | |exact Hwf]; done.
Qed.

Lemma exec_nonce_length w op :
  length (nonce (exec w op)) = length (nonce w).
Proof.
  destruct op; cbn [Run.exec]; try done.
  - by destruct (push_frame_push secretbox_open SILENCE_FRAME FLAGS_SPEAKING
                   buffer w).
  - by destruct (push_frame_timerDue ssrc w).
  - unfold makeStream. msimpl. by destruct (streams w !! user).
  - unfold makeVideoStream. msimpl. by destruct (videoStreams w !! user).
  - unfold _stoppedSpeaking. msimpl.
    destruct (streams w !! user); msimpl; [|done]. by destruct (decide _).
Qed.

(** X12: sinks are never shared.  In every world a handler reaches from
    its constructor, by any sequence of datagrams, timers, stream
    requests, stops, stream ends and changes of its connection, no two
    users have the same audio stream, no two users have the same video
    stream, and no audio stream is also a video stream. *)
Theorem sinks_are_never_shared (c : Connection) (now : Z) (fresh : Handle)
    (ops : list Op) :
  let w := run (constructor c now fresh) ops in
  (∀ u1 u2 s1 s2, streams w !! u1 = Some s1 → streams w !! u2 = Some s2 →
                  stream s1 = stream s2 → u1 = u2)
  ∧ (∀ u1 u2 h, videoStreams w !! u1 = Some h →
                videoStreams w !! u2 = Some h → u1 = u2)
  ∧ (∀ u1 u2 si h, streams w !! u1 = Some si →
                   videoStreams w !! u2 = Some h → stream si ≠ h).
Proof.
  cbn zeta.
  assert (registry_wf (run (constructor c now fresh) ops)) as [_ _ H3 H4 H5].
  { apply (run_invariant registry_wf (λ _, True)).
    - intros w op Hw _. by apply exec_registry_wf.
    - by split.
    - by apply Forall_true. }
  done.
Qed.

(** X13: the nonce buffer always has 24 octets: in every world a
    handler reaches from its constructor, whatever datagrams it was
    given, also the ones [push] threw on. *)
Theorem nonce_is_always_24_octets (c : Connection) (now : Z) (fresh : Handle)
    (ops : list Op) :
  length (nonce (run (constructor c now fresh) ops)) = 24%nat.
Proof.
  apply (run_invariant (λ w, length (nonce w) = 24%nat) (λ _, True)).
  - intros w op Hw _. by rewrite exec_nonce_length.
  - done.
  - by apply Forall_true.
Qed.

End RunFacts.

(* ===================================================================== *)
(** ** Starts and stops over a handler's life                             *)
(* ===================================================================== *)

Lemma balanced_quiet w w' evs :
  balanced w →
  speakingTimeouts w' = speakingTimeouts w →
  trace w' = trace w ++ evs →
  (∀ s, count (isStart s) evs = 0%nat) →
  (∀ s, count (isStop s) evs = 0%nat) →
  balanced w'.
Proof.
  intros Hb Hto Htr H1 H2 s. rewrite Htr, Hto, !count_app, H1, H2, (Hb s). lia.
Qed.

Lemma balanced_same w w' :
  balanced w → speakingTimeouts w' = speakingTimeouts w →
  trace w' = trace w → balanced w'.
Proof.
  intros Hb Hto Htr. apply (balanced_quiet w w' []); try done.
  by rewrite app_nil_r.
Qed.

Section ArmedRun.
Variable secretbox_open : Buffer → Buffer → Buffer → OpenResult.
Variable SILENCE_FRAME : Buffer.
Variable FLAGS_SPEAKING : Z.

#[local] Abbreviation exec := (exec secretbox_open SILENCE_FRAME FLAGS_SPEAKING).
#[local] Abbreviation run := (run secretbox_open SILENCE_FRAME FLAGS_SPEAKING).
#[local] Abbreviation push := (push secretbox_open SILENCE_FRAME FLAGS_SPEAKING).
#[local] Abbreviation debounceEvents := (debounceEvents FLAGS_SPEAKING).

(** With a notifying connection a call of [push] either leaves the
    timers alone and adds sink events only, or runs the speaking step
    once and then adds sink events only. *)
Lemma push_summary buffer w :
  notifies (connection w) →
  (speakingTimeouts (world_of (push buffer w)) = speakingTimeouts w
   ∧ ∃ evs, trace (world_of (push buffer w)) = trace w ++ evs
            ∧ Forall (λ ev, isSink ev = true) evs)
  ∨ ∃ ssrc userStat,
      speakingTimeouts (world_of (push buffer w))
      = debounceTimeouts w ssrc userStat
      ∧ ∃ evs, trace (world_of (push buffer w))
               = trace w ++ debounceEvents w ssrc userStat ++ evs
               ∧ Forall (λ ev, isSink ev = true) evs.
Proof.
  intros Hnot.
  destruct (readUInt32BE buffer 8) as [ssrc|] eqn:Hr.
  2: { left. rewrite (push_truncated _ _ _ _ _ Hr). split; [done|].
       exists []. by rewrite app_nil_r. }
  destruct (resolve w ssrc) as [userStat|] eqn:Hu.
  2: { left. rewrite (push_unresolved _ _ _ _ _ _ Hr Hu). split; [done|].
       exists []. by rewrite app_nil_r. }
  destruct (silenceCheck secretbox_open SILENCE_FRAME buffer userStat
              (streams w !! userId userStat)
              (videoStreams w !! userId userStat) w)
    as [o w0|w0|e w0] eqn:Hsil.
  - right. exists ssrc, userStat.
    apply (push_reaches_speaking _ _ _ _ _ _ _ _ _ Hr Hu Hsil).
    intros _ _. apply Hnot.
  - left. apply (push_stopped _ _ _ _ _ _ _ Hr Hu).
    intros o w1. by rewrite Hsil.
  - left. apply (push_stopped _ _ _ _ _ _ _ Hr Hu).
    intros o w1. by rewrite Hsil.
Qed.

Lemma all_armed_debounce w ssrc userStat :
  all_armed w →
  ∀ s t, debounceTimeouts w ssrc userStat !! s = Some t → t_armed t = true.
Proof.
  intros Ha s t. unfold debounceTimeouts.
  destruct (bool_decide _); [|apply Ha].
  rewrite lookup_insert. case_decide; [by intros [= <-]|apply Ha].
Qed.

Lemma exec_notifies w op :
  notifies (connection w) → installs_notifying op →
  notifies (connection (exec w op)).
Proof.
  intros Hnot Hop. destruct op; cbn [Run.exec]; try done.
  - intros d.
    destruct (push_frame_push secretbox_open SILENCE_FRAME FLAGS_SPEAKING
                buffer w) as [_ _ _ _ _ _ -> _]. apply Hnot.
  - intros d. destruct (push_frame_timerDue ssrc w) as [_ _ _ _ _ _ -> _].
    apply Hnot.
  - unfold makeStream. msimpl. by destruct (streams w !! user).
  - unfold makeVideoStream. msimpl. by destruct (videoStreams w !! user).
  - unfold _stoppedSpeaking. msimpl.
    destruct (streams w !! user); msimpl; [|done]. by destruct (decide _).
Qed.

Lemma exec_armed_inv w op :
  armed_inv w → installs_notifying op → armed_inv (exec w op).
Proof.
  intros (Hnot & Harm) Hop. split; [by apply exec_notifies|].
  destruct op; cbn [Run.exec]; try done.
  - destruct (push_summary buffer w Hnot)
      as [(Hto & _)|(s & u & Hto & _)]; intros s' t; rewrite Hto.
    + apply Harm.
    + by apply all_armed_debounce.
  - unfold timerDue. msimpl.
    destruct (speakingTimeouts w !! ssrc) as [t|] eqn:Ht; msimpl; [|done].
    destruct (_ && _); [|done].
    destruct (fireTimeout_returns ssrc t w Ht (Hnot _))
      as (w' & Hf & Htr & Hto).
    rewrite Hf. cbn. intros s t'. rewrite Hto.
    intros [_ Hs]%lookup_delete_Some. by eapply Harm.
  - unfold makeStream. msimpl. by destruct (streams w !! user).
  - unfold makeVideoStream. msimpl. by destruct (videoStreams w !! user).
  - unfold _stoppedSpeaking. msimpl.
    destruct (streams w !! user); msimpl; [|done]. by destruct (decide _).
Qed.

(** X15: no timer entry is left behind unscheduled.  In every world
    reached from the constructor while the connection notifies without
    throwing, every entry of [speakingTimeouts] is a timer that is
    still scheduled. *)
Theorem timer_entries_stay_scheduled (c : Connection) (now : Z)
    (fresh : Handle) (ops : list Op) (ssrc : Z) (t : Timeout) :
  notifies c →
  Forall installs_notifying ops →
  speakingTimeouts (run (constructor c now fresh) ops) !! ssrc = Some t →
  t_armed t = true.
Proof.
  intros Hc Hops.
  assert (armed_inv (run (constructor c now fresh) ops)) as (_ & Harm).
  { apply (run_invariant _ _ _ armed_inv installs_notifying);
      [apply exec_armed_inv|by split|done]. }
  apply Harm.
Qed.

End ArmedRun.

Section DebounceRun.
Variable secretbox_open : Buffer → Buffer → Buffer → OpenResult.
Variable SILENCE_FRAME : Buffer.
Variable FLAGS_SPEAKING : Z.
Hypothesis FLAGS_SPEAKING_set : FLAGS_SPEAKING ≠ 0.

#[local] Abbreviation exec := (exec secretbox_open SILENCE_FRAME FLAGS_SPEAKING).
#[local] Abbreviation run := (run secretbox_open SILENCE_FRAME FLAGS_SPEAKING).
#[local] Abbreviation push := (push secretbox_open SILENCE_FRAME FLAGS_SPEAKING).
#[local] Abbreviation startData := (startData FLAGS_SPEAKING).
#[local] Abbreviation debounceEvents := (debounceEvents FLAGS_SPEAKING).

Lemma startData_speaks ssrc userStat :
  (sd_speaking (startData ssrc userStat) =? 0) = false.
Proof.
  apply Z.eqb_neq. cbn.
  destruct (speaking userStat =? 0) eqn:E; [done|]. by apply Z.eqb_neq.
Qed.

Lemma balanced_debounce w w' ssrc userStat evs :
  balanced w →
  speakingTimeouts w' = debounceTimeouts w ssrc userStat →
  trace w' = trace w ++ debounceEvents w ssrc userStat ++ evs →
  Forall (λ ev, isSink ev = true) evs →
  balanced w'.
Proof.
  intros Hb Hto Htr Hev.
  apply sink_events_only in Hev as (_ & _ & Hstart & Hstop).
  unfold Obs.debounceEvents, debounceTimeouts in *.
  destruct (bool_decide _);
    [|by apply (balanced_quiet w w' evs)].
  destruct (speakingTimeouts w !! ssrc) as [t|] eqn:Ht.
  - intros s. rewrite Htr, Hto, !count_app, Hstart, Hstop. cbn.
    rewrite (Hb s), lookup_insert. case_decide; [subst; rewrite Ht|]; lia.
  - intros s. rewrite Htr, Hto, !count_app, Hstart, Hstop.
    cbn [count isStart isStop]. rewrite startData_speaks.
    cbn [sd_ssrc Obs.startData negb].
    rewrite (Hb s), lookup_insert, andb_true_r, andb_false_r.
    case_decide as Hs.
    + subst s. rewrite bool_decide_true by done. rewrite Ht. lia.
    + rewrite bool_decide_false by done. lia.
Qed.

Lemma exec_debounce_inv w op :
  debounce_inv w → installs_notifying op → debounce_inv (exec w op).
Proof.
  intros (Hnot & Hbal & Harm) Hop. destruct op; cbn [Run.exec].
  - (* push *)
    split; [|split].
    + by apply (exec_notifies secretbox_open SILENCE_FRAME FLAGS_SPEAKING
                  w (Push buffer)).
    + destruct (push_summary secretbox_open SILENCE_FRAME FLAGS_SPEAKING
                  buffer w Hnot)
        as [(Hto & evs & Htr & Hev)|(s & u & Hto & evs & Htr & Hev)].
      * apply sink_events_only in Hev as (_ & _ & ? & ?).
        by apply (balanced_quiet w _ evs).
      * by apply (balanced_debounce w _ s u evs).
    + destruct (push_summary secretbox_open SILENCE_FRAME FLAGS_SPEAKING
                  buffer w Hnot)
        as [(Hto & _)|(s & u & Hto & _)]; intros s' t; rewrite Hto.
      * apply Harm.
      * by apply all_armed_debounce.
  - (* a timer *)
    unfold timerDue. msimpl.
    destruct (speakingTimeouts w !! ssrc) as [t|] eqn:Ht; msimpl; [|done].
    destruct (_ && _); [|done].
    destruct (fireTimeout_returns ssrc t w Ht (Hnot _))
      as (w' & Hf & Htr & Hto).
    rewrite Hf. cbn. split; [|split].
    + intros d.
      pose proof (push_frame_fireTimeout ssrc w) as [_ _ _ _ _ _ Hn _].
      rewrite Hf in Hn. cbn in Hn. rewrite Hn. apply Hnot.
    + intros s. rewrite Htr, Hto, !count_app. cbn.
      rewrite (Hbal s), lookup_delete, andb_true_r, andb_false_r.
      case_decide as Hs.
      * subst s. rewrite bool_decide_true by done. rewrite Ht. lia.
      * rewrite bool_decide_false by done. lia.
    + intros s t'. rewrite Hto. intros [_ Hs]%lookup_delete_Some.
      by eapply Harm.
  - done.
  - unfold makeStream. msimpl. by destruct (streams w !! user).
  - unfold makeVideoStream. msimpl. by destruct (videoStreams w !! user).
  - unfold _stoppedSpeaking. msimpl.
    destruct (streams w !! user) as [si|]; msimpl; [|done].
    destruct (decide _); msimpl; [|done].
    split; [done|]. split; [|done].
    by apply (balanced_quiet w _ [StreamPush (stream si) None]).
  - done.
  - done.
  - done.
  - done.
Qed.

Lemma constructor_debounce_inv c now fresh :
  notifies c → debounce_inv (constructor c now fresh).
Proof. intros Hc. split; [done|]. split; [by intros s|by intros s t]. Qed.

(** X14: starts and stops alternate.  In every world reached from the
    constructor while the connection notifies without throwing, each
    SSRC has had exactly as many speaking-start notifications as
    speaking-stop notifications when it has no timer entry, and exactly
    one more when it has one: a start is never repeated before its stop,
    and no stop is made without a start. *)
Theorem starts_and_stops_alternate (c : Connection) (now : Z)
    (fresh : Handle) (ops : list Op) (ssrc : Z) :
  notifies c →
  Forall installs_notifying ops →
  let w := run (constructor c now fresh) ops in
  count (isStart ssrc) (trace w)
  = (count (isStop ssrc) (trace w)
     + match speakingTimeouts w !! ssrc with
       | Some _ => 1
       | None => 0
       end)%nat.
Proof.
  intros Hc Hops. cbn zeta.
  assert (debounce_inv (run (constructor c now fresh) ops))
    as (_ & Hbal & _).
  { apply (run_invariant _ _ _ debounce_inv installs_notifying);
      [apply exec_debounce_inv|by apply constructor_debounce_inv|done]. }
  apply Hbal.
Qed.

End DebounceRun.

(* ===================================================================== *)
(** ** The order of the steps of [push]                                   *)
(* ===================================================================== *)

Section OrderClaims.
Variable secretbox_open : Buffer → Buffer → Buffer → OpenResult.
Variable SILENCE_FRAME : Buffer.
Variable FLAGS_SPEAKING : Z.

#[local] Abbreviation parseBuffer := (parseBuffer secretbox_open).
#[local] Abbreviation push := (push secretbox_open SILENCE_FRAME FLAGS_SPEAKING).
#[local] Abbreviation startData := (startData FLAGS_SPEAKING).

(** X16: a speaking-start notification that throws.  For an audio-only
    user whose SSRC is in the directory and has no timer entry, [push]
    then throws what [onSpeaking] threw: the notification was attempted
    once, no timer entry is created (so the next datagram attempts the
    start again), and the datagram is lost for the sinks: it is neither
    decrypted nor pushed on any stream, and no error event is emitted. *)
Theorem failed_start_loses_the_datagram buffer w ssrc userStat :
  readUInt32BE buffer 8 = Some ssrc →
  ssrcMap (connection w) !! ssrc = Some userStat →
  hasVideo userStat = false →
  speakingTimeouts w !! ssrc = None →
  onSpeaking (connection w) (startData ssrc userStat) = false →
  ∃ w', push buffer w = Throw NotifyFailed w'
        ∧ emitted w w' = [OnSpeaking (startData ssrc userStat)]
        ∧ speakingTimeouts w' = speakingTimeouts w
        ∧ nonce w' = nonce w.
Proof.
  intros Hr Hin Hv Ht Hf.
  pose proof (resolve_exact _ _ _ Hin) as Hu.
  rewrite (push_resolved _ _ _ _ _ _ _ Hr Hu).
  rewrite (method_bind_Normal _ _ _ _ _
             (silenceCheck_no_video _ _ _ _ _ _ _ Hv)).
  unfold PacketHandler.advanceSpeaking, Obs.startData in *. msimpl.
  rewrite bool_decide_true by (by rewrite Hin). rewrite Ht. revert Hf.
  destruct (speaking userStat =? 0); msimpl; intros ->; msimpl;
    eexists; (split; [done|]);
    erewrite emitted_app by (cbn; rewrite <- ?app_assoc; reflexivity);
    done.
Qed.

(** X17: a datagram that fails to decrypt counts as speech for an
    audio-only user and not for a user in video.  With the SSRC in the
    directory, no timer entry and a notifying connection: for an
    audio-only user the speaking step has run before the parse, so one
    notification is made and a timer is set although nothing is
    delivered; for a user in video the parse comes first, so no
    notification is made and no timer is set. *)
Theorem undecryptable_audio_still_counts_as_speech
    buffer w ssrc userStat err w1 :
  readUInt32BE buffer 8 = Some ssrc →
  ssrcMap (connection w) !! ssrc = Some userStat →
  parseBuffer buffer w = Normal (inl err) w1 →
  speakingTimeouts w !! ssrc = None →
  onSpeaking (connection w) (startData ssrc userStat) = true →
  let w' := world_of (push buffer w) in
  (hasVideo userStat = false →
     count isNotify (emitted w w') = 1%nat
     ∧ SetTimeout ssrc 250 ∈ emitted w w'
     ∧ is_Some (speakingTimeouts w' !! ssrc)
     ∧ count isDelivery (emitted w w') = 0%nat)
  ∧ (hasVideo userStat = true →
     count isNotify (emitted w w') = 0%nat
     ∧ speakingTimeouts w' = speakingTimeouts w
     ∧ count isDelivery (emitted w w') = 0%nat).
Proof.
  intros Hr Hin Hp Ht Hok. cbn zeta.
  pose proof (resolve_exact _ _ _ Hin) as Hu.
  split; intros Hv.
  - destruct (push_error_audio secretbox_open SILENCE_FRAME FLAGS_SPEAKING
                _ _ _ _ _ _ Hr Hu Hp Hv) as (Htr & Hto & _);
      [by intros _ _|].
    cbn zeta in Htr. rewrite (emitted_app _ _ _ Htr), Hto.
    unfold Obs.debounceEvents, debounceTimeouts.
    rewrite bool_decide_true by (by rewrite Hin). rewrite Ht.
    rewrite lookup_insert_eq.
    destruct (listening _ _); cbn; repeat split; try done;
      apply list_elem_of_further, list_elem_of_here.
  - destruct (push_error_video secretbox_open SILENCE_FRAME FLAGS_SPEAKING
                _ _ _ _ _ _ Hr Hu Hp Hv) as (Htr & Hto & _).
    cbn zeta in Htr. rewrite (emitted_app _ _ _ Htr), Hto.
    by destruct (listening _ _).
Qed.

End OrderClaims.

(* ===================================================================== *)
(** ** What [push] throws                                                 *)
(* ===================================================================== *)

Lemma handled_bind {A B} (m : M A) (f : A → M B) :
  handled m → preserves push_frame m → (∀ a, handled (f a)) →
  handled (m ≫= f).
Proof.
  intros Hm Hfr Hf w e w' Hl. specialize (Hfr w). unfold mbind, M_bind.
  destruct (m w) as [a w1|w1|e1 w1] eqn:Hmw; cbn in Hfr; [|done|].
  - apply Hf. by rewrite (pf_listener _ _ Hfr).
  - intros [= <- <-]. by eapply Hm.
Qed.

Lemma handled_ret {A} (a : A) : handled (mret a).
Proof. by intros w e w' _. Qed.

Lemma handled_return {A} : handled (@return_ A).
Proof. by intros w e w' _. Qed.

Lemma handled_log ev : handled (log ev).
Proof. by intros w e w' _. Qed.

Lemma handled_emit_error err : handled (emit_error err).
Proof.
  intros w e w' Hl. unfold emit_error. msimpl. by rewrite Hl.
Qed.

Lemma handled_call_onSpeaking d : handled (call_onSpeaking d).
Proof.
  intros w e w' _. unfold call_onSpeaking. msimpl.
  destruct (onSpeaking _ _); [done|]. intros [= <- _]. right. by left.
Qed.

Lemma handled_method (m : M unit) : handled m → handled (method m).
Proof.
  intros Hm w e w' Hl. unfold method.
  destruct (m w) as [a w1|w1|e1 w1] eqn:Hmw; [done|done|].
  intros [= <- <-]. by eapply Hm.
Qed.

Section ThrowFacts.
Variable secretbox_open : Buffer → Buffer → Buffer → OpenResult.
Variable SILENCE_FRAME : Buffer.
Variable FLAGS_SPEAKING : Z.

Lemma handled_parseBuffer buffer :
  handled (parseBuffer secretbox_open buffer).
Proof.
  intros w e w' _. unfold PacketHandler.parseBuffer. msimpl.
  destruct (chooseNonce _ _ _) as [[n en]|]; msimpl;
    [|intros [= <- _]; by left].
  destruct (secret_key _); msimpl; [|done].
  destruct (secretbox_open _ _ _) as [p| |]; msimpl;
    [|done|intros [= <- _]; right; by right].
  destruct (stripExtension p); msimpl; [done|]. intros [= <- _]. by left.
Qed.

Lemma handled_silenceCheck buffer userStat sa sv :
  handled (silenceCheck secretbox_open SILENCE_FRAME buffer userStat sa sv).
Proof.
  unfold PacketHandler.silenceCheck.
  destruct (hasVideo userStat); [|apply handled_ret].
  apply handled_bind;
    [apply handled_parseBuffer|apply push_frame_parseBuffer|].
  intros [err|p].
  - apply handled_bind; [| |intros; apply handled_return].
    + destruct (_ || _); [apply handled_emit_error|apply handled_ret].
    + destruct (_ || _); [apply push_frame_emit_error|].
      by apply (preserves_ret push_frame).
  - destruct (equals SILENCE_FRAME p); [apply handled_return|].
    apply handled_ret.
Qed.

Lemma handled_advanceSpeaking ssrc userStat :
  handled (advanceSpeaking FLAGS_SPEAKING ssrc userStat).
Proof.
  intros w e w' _. unfold PacketHandler.advanceSpeaking. msimpl.
  destruct (bool_decide _); msimpl; [|done].
  destruct (speakingTimeouts w !! ssrc); msimpl; [done|].
  destruct (speaking userStat =? 0); msimpl;
    (destruct (onSpeaking _ _); msimpl; [done|]);
    intros [= <- _]; right; by left.
Qed.

Lemma handled_ensureParsed buffer opusPacket :
  handled (ensureParsed secretbox_open buffer opusPacket).
Proof.
  unfold PacketHandler.ensureParsed.
  destruct opusPacket; [apply handled_ret|].
  apply handled_bind;
    [apply handled_parseBuffer|apply push_frame_parseBuffer|].
  intros [err|p]; [|apply handled_ret].
  apply handled_bind;
    [apply handled_emit_error|apply push_frame_emit_error|].
  intros; apply handled_return.
Qed.

Lemma handled_deliver buffer sa sv opusPacket :
  handled (deliver secretbox_open buffer sa sv opusPacket).
Proof.
  unfold Obs.deliver. apply handled_bind.
  - unfold PacketHandler.deliverAudio. destruct sa; [|apply handled_ret].
    apply handled_bind;
      [apply handled_ensureParsed|apply push_frame_ensureParsed|].
    intros p. apply handled_bind; [apply handled_log|apply push_frame_log|].
    intros; apply handled_ret.
  - unfold PacketHandler.deliverAudio. destruct sa;
      [|by apply (preserves_ret push_frame)].
    apply (preserves_bind push_frame); [apply push_frame_ensureParsed|].
    intros p. apply (preserves_bind push_frame); [apply push_frame_log|].
    intros; by apply (preserves_ret push_frame).
  - intros o. unfold PacketHandler.deliverVideo.
    destruct sv; [|apply handled_ret].
    apply handled_bind;
      [apply handled_ensureParsed|apply push_frame_ensureParsed|].
    intros p. apply handled_log.
Qed.

(** X18: what [push] throws.  With an ['error'] listener attached to
    the handler, [push] never throws the Error value of a missing key
    or of a decryption that failed with a falsy result: whatever the
    datagram, the key and the secretbox, it returns, or it throws a
    RangeError of a Buffer read, or what [onSpeaking] threw, or what
    [secretbox.methods.open] threw. *)
Theorem push_throws_only_range_or_notifier buffer w e w' :
  errorListener w = true →
  push secretbox_open SILENCE_FRAME FLAGS_SPEAKING buffer w = Throw e w' →
  e = RangeError ∨ e = NotifyFailed ∨ e = SecretboxError.
Proof.
  revert w e w'. unfold PacketHandler.push. apply handled_method.
  apply handled_bind.
  - intros w e w' _. destruct (readUInt32BE buffer 8); cbn; [done|].
    intros [= <- _]. by left.
  - by apply (preserves_orRangeError push_frame).
  - intros ssrc. apply handled_bind;
      [by intros w e w' _|by apply (preserves_get push_frame)|].
    intros w0. destruct (resolve w0 ssrc) as [userStat|];
      [|apply handled_return].
    apply handled_bind;
      [apply handled_silenceCheck|apply push_frame_silenceCheck|].
    intros opus. apply handled_bind;
      [apply handled_advanceSpeaking|apply push_frame_advanceSpeaking|].
    intros _. apply (handled_deliver buffer).
Qed.

End ThrowFacts.

(* ===================================================================== *)
(** ** The further properties on the concrete session                     *)
(* ===================================================================== *)

(** X1 at a datagram with SSRC 99, unknown to the directory. *)
Lemma unknown_ssrc_has_no_effect_witness :
  Demo.pushDemo (Demo.header x63 ++ [x01; x02])
    (Demo.world "xsalsa20_poly1305" true)
  = Normal tt (Demo.world "xsalsa20_poly1305" true).
Proof.
  apply (unknown_ssrc_has_no_effect Demo.open_ Demo.SILENCE_FRAME
           Demo.FLAGS_SPEAKING _ _ 99); reflexivity.
Defined.

(** X2 at alice with nobody listening: a forged datagram and a secretbox
    that rejects everything change nothing. *)
Lemma unattended_audio_is_never_decrypted_witness :
  Demo.pushDemo (Demo.header x29 ++ [x01; x02])
    (Demo.unattended "xsalsa20_poly1305" true)
  = PacketHandler.push (λ _ _ _, Rejected) [] Demo.FLAGS_SPEAKING
      (Demo.header x29 ++ [xff])
      (Demo.unattended "xsalsa20_poly1305" true)
  ∧ nonce (world_of (Demo.pushDemo (Demo.header x29 ++ [x01; x02])
                       (Demo.unattended "xsalsa20_poly1305" true)))
    = alloc 24.
Proof.
  destruct (unattended_audio_is_never_decrypted
              Demo.open_ Demo.SILENCE_FRAME Demo.FLAGS_SPEAKING
              (λ _ _ _, Rejected) []
              (Demo.header x29 ++ [x01; x02]) (Demo.header x29 ++ [xff])
              (Demo.unattended "xsalsa20_poly1305" true) 41 Demo.alice
              eq_refl eq_refl eq_refl eq_refl eq_refl eq_refl)
    as (Hsame & Hnonce & _).
  split; [exact Hsame | exact Hnonce].
Defined.

(** X4 at the first datagram of alice, whose speaking field is 0. *)
Lemma push_writes_only_the_speaking_flag_witness :
  speaking (set_speaking 1 Demo.alice) = speaking Demo.alice
  ∨ (speaking Demo.alice = 0
     ∧ speaking (set_speaking 1 Demo.alice) = Demo.FLAGS_SPEAKING).
Proof.
  destruct (push_writes_only_the_speaking_flag Demo.open_ Demo.SILENCE_FRAME
              Demo.FLAGS_SPEAKING (Demo.header x29 ++ [x01])
              (Demo.world "xsalsa20_poly1305" true) 41 eq_refl)
    as (_ & _ & Hflag).
  apply Hflag; vm_compute; reflexivity.
Defined.

(** X8 at a suffix-mode datagram: header, two octets of ciphertext, 24
    octets of nonce. *)
Lemma parseBuffer_takes_datagram_apart_witness :
  let w := Demo.world "xsalsa20_poly1305_suffix" true in
  Demo.parseDemo (Demo.header x29 ++ [x01; x02] ++ replicate 24 x07) w
  = Normal (inr [x01; x02]) (set_nonce (replicate 24 x07) w).
Proof.
  cbn zeta.
  destruct (parseBuffer_takes_datagram_apart Demo.open_
              (Demo.header x29) [x01; x02] (replicate 24 x07) Demo.key
              [x01; x02] (Demo.world "xsalsa20_poly1305_suffix" true)
              eq_refl eq_refl eq_refl eq_refl) as (_ & Hsuffix & _).
  apply Hsuffix; reflexivity.
Defined.

(** X14 on a life of alice: a stream request, two datagrams 100 ms
    apart, and the timer 250 ms later. *)
Lemma starts_and_stops_alternate_witness :
  let w := Run.run Demo.open_ Demo.SILENCE_FRAME Demo.FLAGS_SPEAKING
             (constructor (Demo.conn "xsalsa20_poly1305" true) 1000 0%nat)
             [MakeStream "alice" "manual"; Push (Demo.header x29 ++ [x01]);
              Tick 100; Push (Demo.header x29 ++ [x02]); Tick 250;
              TimerDue 41] in
  count (isStart 41) (trace w)
  = (count (isStop 41%Z) (trace w)
     + match speakingTimeouts w !! 41%Z with
       | Some _ => 1
       | None => 0
       end)%nat.
Proof.
  apply (starts_and_stops_alternate Demo.open_ Demo.SILENCE_FRAME
           Demo.FLAGS_SPEAKING).
  - discriminate.
  - intros d. reflexivity.
  - repeat constructor.
Defined.

(** X15 on the same life, stopped after the second datagram. *)
Lemma timer_entries_stay_scheduled_witness :
  speakingTimeouts
    (Run.run Demo.open_ Demo.SILENCE_FRAME Demo.FLAGS_SPEAKING
       (constructor (Demo.conn "xsalsa20_poly1305" true) 1000 0%nat)
       [MakeStream "alice" "manual"; Push (Demo.header x29 ++ [x01]);
        Tick 100; Push (Demo.header x29 ++ [x02])]) !! 41
  = Some {| t_deadline := 1350; t_armed := true; t_user_id := "alice" |}
  ∧ t_armed {| t_deadline := 1350; t_armed := true; t_user_id := "alice" |}
    = true.
Proof.
  split; [vm_compute; reflexivity|].
  apply (timer_entries_stay_scheduled Demo.open_ Demo.SILENCE_FRAME
           Demo.FLAGS_SPEAKING
           (Demo.conn "xsalsa20_poly1305" true) 1000 0%nat
           [MakeStream "alice" "manual"; Push (Demo.header x29 ++ [x01]);
            Tick 100; Push (Demo.header x29 ++ [x02])] 41).
  - intros d. reflexivity.
  - repeat constructor.
  - vm_compute. reflexivity.
Defined.

(** X16 at alice while the connection throws. *)
Lemma failed_start_loses_the_datagram_witness :
  ∃ w', Demo.pushDemo (Demo.header x29 ++ [x01; x02])
          (Demo.world "xsalsa20_poly1305" false)
        = Throw NotifyFailed w'
        ∧ emitted (Demo.world "xsalsa20_poly1305" false) w'
          = [OnSpeaking {| user_id := "alice"; sd_ssrc := 41;
                           sd_speaking := 1 |}]
        ∧ speakingTimeouts w' = ∅
        ∧ nonce w' = alloc 24.
Proof.
  apply (failed_start_loses_the_datagram Demo.open_ Demo.SILENCE_FRAME
           Demo.FLAGS_SPEAKING (Demo.header x29 ++ [x01; x02])
           (Demo.world "xsalsa20_poly1305" false) 41 Demo.alice);
    reflexivity.
Defined.

(** X17 at alice (audio only) with a datagram the secretbox rejects. *)
Lemma undecryptable_audio_still_counts_as_speech_witness :
  let w := Demo.world "xsalsa20_poly1305" true in
  count isNotify
    (emitted w (world_of (Demo.pushDemo (Demo.header x29 ++ [xff; x02]) w)))
  = 1%nat
  ∧ count isDelivery
      (emitted w (world_of (Demo.pushDemo (Demo.header x29 ++ [xff; x02]) w)))
    = 0%nat.
Proof.
  cbn zeta.
  destruct (undecryptable_audio_still_counts_as_speech
              Demo.open_ Demo.SILENCE_FRAME Demo.FLAGS_SPEAKING
              (Demo.header x29 ++ [xff; x02])
              (Demo.world "xsalsa20_poly1305" true) 41 Demo.alice
              DecryptFailed
              (set_nonce (Demo.header x29 ++ alloc 12)
                 (Demo.world "xsalsa20_poly1305" true))
              eq_refl eq_refl eq_refl eq_refl eq_refl) as (Haudio & _).
  destruct (Haudio eq_refl) as (Hone & _ & _ & Hnone).
  split; [exact Hone | exact Hnone].
Defined.

(** X18 at a datagram of alice given to a handler with a listener whose
    key the secretbox refuses: what leaves [push] is the exception of
    the secretbox. *)
Lemma push_throws_only_range_or_notifier_witness :
  let w := Demo.short_key_world "xsalsa20_poly1305" true in
  Demo.pushDemo (Demo.header x29 ++ [x01; x02]) w
  = Throw SecretboxError
      (world_of (Demo.pushDemo (Demo.header x29 ++ [x01; x02]) w))
  ∧ (SecretboxError = RangeError ∨ SecretboxError = NotifyFailed
     ∨ SecretboxError = SecretboxError).
Proof.
  split; [vm_compute; reflexivity|].
  apply (push_throws_only_range_or_notifier Demo.open_ Demo.SILENCE_FRAME
           Demo.FLAGS_SPEAKING (Demo.header x29 ++ [x01; x02])
           (Demo.short_key_world "xsalsa20_poly1305" true) SecretboxError
           (world_of (Demo.pushDemo (Demo.header x29 ++ [x01; x02])
                        (Demo.short_key_world "xsalsa20_poly1305" true))));
    [reflexivity|vm_compute; reflexivity].
Defined.

(* ===================================================================== *)
(** ** Payloads stay with the streams of their user                       *)
(* ===================================================================== *)

#[local] Instance extends_preorder P : PreOrder (extends P).
Proof.
  split.
  - intros w. exists []. by rewrite app_nil_r.
  - intros w1 w2 w3 (e1 & H1 & F1) (e2 & H2 & F2). exists (e1 ++ e2).
    split; [by rewrite H2, H1, app_assoc|]. by apply Forall_app.
Qed.

Lemma extends_log P ev : P ev → preserves (extends P) (log ev).
Proof. intros H w. exists [ev]. split; [done|]. by constructor. Qed.

Lemma extends_same P w w' : trace w' = trace w → extends P w w'.
Proof. intros H. exists []. by rewrite app_nil_r. Qed.

Section OwnFacts.
Variable secretbox_open : Buffer → Buffer → Buffer → OpenResult.
Variable SILENCE_FRAME : Buffer.
Variable FLAGS_SPEAKING : Z.
#[local] Abbreviation own sa sv := (extends (ownEvent sa sv)).

Lemma own_parseBuffer sa sv buffer :
  preserves (own sa sv) (parseBuffer secretbox_open buffer).
Proof.
  intros w. apply extends_same.
  rewrite (parseBuffer_frame secretbox_open buffer w).
  by destruct (parseBuffer secretbox_open buffer w).
Qed.

Lemma own_emit_error sa sv err : preserves (own sa sv) (emit_error err).
Proof.
  unfold emit_error.
  apply (preserves_bind (own _ _)); [by apply extends_log|]. intros _.
  apply (preserves_bind (own _ _)); [by apply (preserves_get (own _ _))|]. intros w.
  destruct (errorListener w);
    [by apply (preserves_ret (own _ _))|by apply (preserves_throw (own _ _))].
Qed.

Lemma own_silenceCheck sa sv buffer userStat :
  preserves (own sa sv)
    (silenceCheck secretbox_open SILENCE_FRAME buffer userStat sa sv).
Proof.
  unfold PacketHandler.silenceCheck.
  destruct (hasVideo userStat); [|by apply (preserves_ret (own _ _))].
  apply (preserves_bind (own _ _)); [apply own_parseBuffer|].
  intros [err|p].
  - apply (preserves_bind (own _ _)); [|intros; by apply (preserves_return (own _ _))].
    destruct (_ || _); [apply own_emit_error|by apply (preserves_ret (own _ _))].
  - destruct (equals SILENCE_FRAME p);
      [by apply (preserves_return (own _ _))|by apply (preserves_ret (own _ _))].
Qed.

Lemma own_advanceSpeaking sa sv ssrc userStat :
  preserves (own sa sv) (advanceSpeaking FLAGS_SPEAKING ssrc userStat).
Proof.
  intros w. unfold PacketHandler.advanceSpeaking. msimpl.
  destruct (bool_decide _); msimpl; [|by apply extends_same].
  destruct (speakingTimeouts w !! ssrc); msimpl.
  - exists [Refresh ssrc]. split; [done|]. by repeat constructor.
  - destruct (speaking userStat =? 0); msimpl;
      destruct (onSpeaking _ _); msimpl;
      eexists; (split; [by rewrite <- ?app_assoc|]); by repeat constructor.
Qed.

Lemma own_ensureParsed sa sv buffer opusPacket :
  preserves (own sa sv) (ensureParsed secretbox_open buffer opusPacket).
Proof.
  unfold PacketHandler.ensureParsed.
  destruct opusPacket; [by apply (preserves_ret (own _ _))|].
  apply (preserves_bind (own _ _)); [apply own_parseBuffer|].
  intros [err|p]; [|by apply (preserves_ret (own _ _))].
  apply (preserves_bind (own _ _)); [apply own_emit_error|].
  intros; by apply (preserves_return (own _ _)).
Qed.

Lemma own_deliver sa sv buffer opusPacket :
  preserves (own sa sv) (deliver secretbox_open buffer sa sv opusPacket).
Proof.
  unfold Obs.deliver, PacketHandler.deliverAudio, PacketHandler.deliverVideo.
  apply (preserves_bind (own _ _)).
  - destruct sa as [si|]; [|by apply (preserves_ret (own _ _))].
    apply (preserves_bind (own _ _)); [apply own_ensureParsed|].
    intros p. apply (preserves_bind (own _ _));
      [|intros; by apply (preserves_ret (own _ _))].
    apply extends_log. cbn. by exists p, si.
  - intros o. destruct sv as [h|]; [|by apply (preserves_ret (own _ _))].
    apply (preserves_bind (own _ _)); [apply own_ensureParsed|].
    intros p. by apply extends_log.
Qed.

End OwnFacts.

Section OwnClaims.
Variable secretbox_open : Buffer → Buffer → Buffer → OpenResult.
Variable SILENCE_FRAME : Buffer.
Variable FLAGS_SPEAKING : Z.

#[local] Abbreviation push := (push secretbox_open SILENCE_FRAME FLAGS_SPEAKING).

(** X19: payloads stay with the streams of their user.  Whatever a call
    of [push] for a datagram resolved to [userStat] pushes on an audio
    stream is a payload, never the end-of-stream [null], and goes on the
    stream registered for that user when the call began; whatever it
    pushes on a video stream goes on the video stream registered for
    that user.  A datagram that resolves to nobody pushes nothing. *)
Theorem push_stays_with_its_user buffer w ssrc :
  readUInt32BE buffer 8 = Some ssrc →
  let events := emitted w (world_of (push buffer w)) in
  match resolve w ssrc with
  | Some userStat =>
      ∀ ev, ev ∈ events →
        (∀ h chunk, ev = StreamPush h chunk →
           ∃ payload si, chunk = Some payload
                         ∧ streams w !! userId userStat = Some si
                         ∧ h = stream si)
        ∧ (∀ h payload, ev = VideoPush h payload →
             videoStreams w !! userId userStat = Some h)
  | None => events = []
  end.
Proof.
  intros Hr. cbn zeta. destruct (resolve w ssrc) as [userStat|] eqn:Hu.
  2: { rewrite (push_unresolved _ _ _ _ _ _ Hr Hu). by apply emitted_same. }
  rewrite (push_resolved _ _ _ _ _ _ _ Hr Hu), world_of_method.
  set (sa := streams w !! userId userStat).
  set (sv := videoStreams w !! userId userStat).
  assert (extends (ownEvent sa sv) w
            (world_of
               ((silenceCheck secretbox_open SILENCE_FRAME buffer userStat
                   sa sv
                 ≫= λ opusPacket,
                      advanceSpeaking FLAGS_SPEAKING ssrc userStat;;
                      deliver secretbox_open buffer sa sv opusPacket) w)))
    as (evs & Htr & Hown).
  { apply (preserves_bind (extends (ownEvent sa sv)));
      [apply own_silenceCheck|].
    intros o. apply (preserves_bind (extends (ownEvent sa sv)));
      [apply own_advanceSpeaking|].
    intros _. apply own_deliver. }
  rewrite (emitted_app _ _ _ Htr). intros ev Hev.
  rewrite Forall_forall in Hown. specialize (Hown ev Hev).
  split.
  - intros h chunk ->. exact Hown.
  - intros h payload ->. exact Hown.
Qed.

End OwnClaims.

(** X19 at the datagram of carol, who has both streams: what is pushed
    on stream 1 and on video stream 2 is pushed on her streams. *)
Lemma push_stays_with_its_user_witness :
  (∃ payload si, Some [x01] = Some payload
                 ∧ streams (Demo.world "xsalsa20_poly1305" true) !! "carol"
                   = Some si
                 ∧ 1%nat = stream si)
  ∧ videoStreams (Demo.world "xsalsa20_poly1305" true) !! "carol"
    = Some 2%nat.
Proof.
  pose proof (push_stays_with_its_user Demo.open_ Demo.SILENCE_FRAME
                Demo.FLAGS_SPEAKING (Demo.header x50 ++ [x01])
                (Demo.world "xsalsa20_poly1305" true) 80 eq_refl) as Hown.
  cbn zeta in Hown.
  change (resolve (Demo.world "xsalsa20_poly1305" true) 80)
    with (Some Demo.carol) in Hown.
  split.
  - refine (proj1 (Hown (StreamPush 1%nat (Some [x01])) _) _ _ eq_refl).
    vm_compute. repeat constructor.
  - refine (proj2 (Hown (VideoPush 2%nat [x01]) _) _ _ eq_refl).
    vm_compute. repeat constructor.
Defined.
